(** * unified-analytics: a shallow embedding of the facade and its adapters

    The development follows the layout of the repository:

    - [platform.js]               -> [Module Platform]
    - [utils/helpers.js]          -> [Module Helpers]
    - [providers/BaseProvider.js] -> [Module BaseProvider]
    - the four concrete adapters  -> [CountlyProviderWeb], [CountlyProviderNative],
                                     [PostHogProviderWeb], [PostHogProviderNative]
    - the two platform proxies    -> [CountlyProvider], [PostHogProvider]
    - [UnifiedAnalytics.js]       -> [Module UnifiedAnalytics]

    JavaScript objects that the library stores and hands out (the Countly
    [userContext], the PostHog [registeredProperties], the objects returned
    by the getters) live in an explicit heap, so that aliasing between a
    returned object and a stored one can be stated.  Calls into the wrapped
    third-party SDKs are recorded in a trace; what the SDKs answer (and
    whether they throw) is read from an environment record.  Console logging
    is not modelled. *)

From Stdlib Require Import ZArith Ascii String List.
From stdpp Require Import base option list gmap strings fin_maps pretty.

Open Scope string_scope.

#[local] Set Warnings "-register-all".

(** ** JavaScript values *)

(** Numbers are restricted to integer values (printed in decimal, as
    [String(n)] and [JSON.stringify(n)] do for integers below 1e21);
    functions and symbols are not modelled.  [JsObject] keeps its fields
    in enumeration order. *)
Inductive JsValue : Type :=
| JsUndefined
| JsNull
| JsBool (b : bool)
| JsNumber (n : Z)
| JsString (s : string)
| JsArray (items : list JsValue)
| JsObject (fields : list (string * JsValue)).

(** A property bag [Record<string, any>] used as a dictionary. *)
Abbreviation Props := (gmap string JsValue).

(** Segmentation as the Countly SDKs receive it: every value is a string. *)
Abbreviation Segments := (gmap string string).

Inductive JsType := TyUndefined | TyObject | TyBoolean | TyNumber | TyString.

Definition typeof (v : JsValue) : JsType :=
  match v with
  | JsUndefined => TyUndefined
  | JsNull => TyObject
  | JsBool _ => TyBoolean
  | JsNumber _ => TyNumber
  | JsString _ => TyString
  | JsArray _ | JsObject _ => TyObject
  end.

Definition is_undefined (v : JsValue) : bool :=
  match v with JsUndefined => true | _ => false end.

Definition is_null (v : JsValue) : bool :=
  match v with JsNull => true | _ => false end.

Definition is_object_type (v : JsValue) : bool :=
  match typeof v with TyObject => true | _ => false end.

(** Truthiness of a string-typed optional field ([None] is [undefined]). *)
Definition truthy_string (s : option string) : bool :=
  match s with
  | Some (String _ _) => true
  | _ => false
  end.

Definition join (sep : string) (parts : list string) : string :=
  String.concat sep parts.

(** *** Plain objects given by their fields *)

(** [fields[key]]: the value of the property, [undefined] when the object
    has none of that name. *)
Fixpoint get_field (key : string) (fields : list (string * JsValue)) : JsValue :=
  match fields with
  | [] => JsUndefined
  | kv :: rest => if String.eqb (fst kv) key then snd kv else get_field key rest
  end.

(** [fields[key] = value]: the property is overwritten where it stands, or
    added after the others. *)
Fixpoint set_field (key : string) (value : JsValue) (fields : list (string * JsValue))
  : list (string * JsValue) :=
  match fields with
  | [] => [(key, value)]
  | kv :: rest =>
      if String.eqb (fst kv) key then (fst kv, value) :: rest
      else kv :: set_field key value rest
  end.

(** [Object.keys(fields)]. *)
Definition field_keys (fields : list (string * JsValue)) : list string := map fst fields.

(** The plain objects [deepMerge] runs through when given as its
    source: every object met by going down through object fields has each
    of its keys once, as the objects of the language do, and no key named
    [hasOwnProperty] (which would hide the method the loop calls) or
    [__proto__] (an assignment to which goes to the accessor of
    [Object.prototype], outside this model). *)
Fixpoint mergeable (v : JsValue) : bool :=
  match v with
  | JsObject fields =>
      bool_decide (NoDup (map fst fields))
      && forallb (fun kv => negb (String.eqb (fst kv) "hasOwnProperty")
                            && negb (String.eqb (fst kv) "__proto__")
                            && mergeable (snd kv)) fields
  | _ => true
  end.

(** *** The built-ins [String] and [JSON.stringify] *)

Module Builtins.

Definition quote_char : ascii := ascii_of_nat 34.
Definition backslash : ascii := ascii_of_nat 92.

Definition hex_digit (n : nat) : ascii :=
  if Nat.ltb n 10 then ascii_of_nat (48 + n) else ascii_of_nat (87 + n).

(** The JSON escape of one character of a string literal. *)
Definition json_escape (c : ascii) : string :=
  let n := nat_of_ascii c in
  if Nat.eqb n 34 then String backslash (String quote_char EmptyString)
  else if Nat.eqb n 92 then String backslash (String backslash EmptyString)
  else if Nat.eqb n 8 then String backslash "b"
  else if Nat.eqb n 9 then String backslash "t"
  else if Nat.eqb n 10 then String backslash "n"
  else if Nat.eqb n 12 then String backslash "f"
  else if Nat.eqb n 13 then String backslash "r"
  else if Nat.ltb n 32 then
    String backslash
      ("u00" ++ String (hex_digit (n / 16)) (String (hex_digit (n mod 16)) EmptyString))
  else String c EmptyString.

Fixpoint json_escape_all (s : string) : string :=
  match s with
  | EmptyString => EmptyString
  | String c rest => json_escape c ++ json_escape_all rest
  end.

Definition json_quote (s : string) : string :=
  String quote_char (json_escape_all s ++ String quote_char EmptyString).

Definition bool_text (b : bool) : string := if b then "true" else "false".

(** The text [JSON.stringify] produces for a value nested in a container:
    inside an array [undefined] prints as [null]; a field whose value is
    [undefined] is left out of its object. *)
Fixpoint json_text (v : JsValue) : string :=
  match v with
  | JsUndefined | JsNull => "null"
  | JsBool b => bool_text b
  | JsNumber n => pretty n
  | JsString s => json_quote s
  | JsArray items => "[" ++ join "," (map json_text items) ++ "]"
  | JsObject fields =>
      "{" ++ join ","
               (flat_map
                  (fun kv =>
                     if is_undefined (snd kv) then []
                     else [json_quote (fst kv) ++ ":" ++ json_text (snd kv)])
                  fields)
          ++ "}"
  end.

(** [JSON.stringify(v)] for a value other than [undefined] (for which the
    built-in returns [undefined] instead of a string). *)
Definition JSON_stringify (v : JsValue) : string := json_text v.

(** [String(v)]. *)
Fixpoint String_ (v : JsValue) : string :=
  match v with
  | JsUndefined => "undefined"
  | JsNull => "null"
  | JsBool b => bool_text b
  | JsNumber n => pretty n
  | JsString s => s
  | JsArray items =>
      join ","
        (map (fun it =>
                match it with
                | JsUndefined | JsNull => EmptyString
                | _ => String_ it
                end)
             items)
  | JsObject _ => "[object Object]"
  end.

End Builtins.

(** ** Results of calls that may throw *)

Inductive Exception :=
| Error (message : string)
| TypeError (message : string).

Inductive Result (A : Type) :=
| Returns (a : A)
| Throws (e : Exception).
Arguments Returns {A} a.
Arguments Throws {A} e.

(** ** [providers/BaseProvider.js]: helpers shared by the adapters *)

Module BaseProvider.

(** [safeString(value)]. *)
Definition safeString (value : JsValue) : string :=
  if is_null value || is_undefined value then ""
  else if is_object_type value then Builtins.JSON_stringify value
  else Builtins.String_ value.

(** [stringifyProperties(properties)]; [None] stands for a falsy
    argument ([undefined] or [null]).  The loop over [Object.entries] is
    a fold building [result]. *)
Definition stringifyProperties (properties : option Props) : Segments :=
  match properties with
  | None => ∅
  | Some props =>
      map_fold
        (fun key value (result : Segments) =>
           if negb (is_undefined value) then <[key := safeString value]> result
           else result)
        ∅ props
  end.

End BaseProvider.

(** ** Configuration ([AnalyticsConfig] of [index.d.ts]) *)

(** Only the options the facade itself reads are fields; every other
    recognised option is passed through to the SDK untouched. *)
Record CountlyConfig := {
  serverUrl : option string;
  appKey : option string;
  countly_debug : option bool;
}.

Record PostHogConfig := {
  apiKey : option string;
  host : option string;
  posthog_debug : option bool;
}.

Record AnalyticsConfig := {
  platform : option string;
  debug : option bool;
  trackScreenViews : option bool;
  countly : option CountlyConfig;
  posthog : option PostHogConfig;
}.

(** ** Runtime shared by all components *)

Inductive PlatformName := web | native.

Inductive ProviderName := Countly | PostHog.

(** An application callback, known by an identifier. *)
Definition Callback := nat.

(** Calls that leave the library, in the order they are made.  [SdkInit]
    is the [try] block of an adapter's [init] (loading the SDK module and
    running its set-up calls) together with its outcome. *)
Inductive SdkCall :=
| SdkInit (provider : ProviderName) (on : PlatformName) (failure : option Exception)
| Countly_add_event (key : string) (segmentation : Segments)
| Countly_track_pageview (viewName : string) (segments : Segments)
| Countly_recordEvent (name : string) (segments : Segments)
| Countly_recordView (viewName : string) (segments : Segments)
| PostHog_capture (event : string) (properties : Props)
| PostHog_screen (viewName : string) (properties : Props)
| PostHog_register (properties : Props)
| PostHog_unregister (propertyName : string)
| PostHog_onFeatureFlags (callback : Callback)
| Callback_call (callback : Callback) (flags : JsValue).

(** What lies outside the library: the host the code runs on and the
    behaviour of the wrapped SDKs. *)
Record Env := {
  autoDetectPlatform : PlatformName;
  import_adapter : ProviderName -> PlatformName -> option Exception;
  sdk_init : ProviderName -> PlatformName -> option Exception;
  sdk_getFeatureFlag : string -> Result JsValue;
  sdk_isFeatureEnabled : string -> Result JsValue;
  sdk_getFeatureFlags : Result JsValue;
  sdk_onFeatureFlags : Callback -> option Exception;
  callback_call : Callback -> JsValue -> option Exception;
}.

Definition loc := nat.

Abbreviation Heap := (list Props).

Record Runtime := {
  currentPlatform : option PlatformName;
  heap : Heap;
  sdk : list SdkCall;
}.

Definition with_platform (p : option PlatformName) (rt : Runtime) : Runtime :=
  {| currentPlatform := p; heap := heap rt; sdk := sdk rt |}.

Definition with_heap (h : Heap) (rt : Runtime) : Runtime :=
  {| currentPlatform := currentPlatform rt; heap := h; sdk := sdk rt |}.

(** Record one call to an SDK (or to an application callback). *)
Definition emit (c : SdkCall) (rt : Runtime) : Runtime :=
  {| currentPlatform := currentPlatform rt; heap := heap rt; sdk := sdk rt ++ [c] |}.

(** A new object: the next free address. *)
Definition alloc (o : Props) (rt : Runtime) : loc * Runtime :=
  (length (heap rt), with_heap (heap rt ++ [o]) rt).

(** The contents of an object. *)
Definition deref (rt : Runtime) (l : loc) : Props :=
  default ∅ (heap rt !! l).

(** Overwrite the contents of an object in place. *)
Definition store (l : loc) (o : Props) (rt : Runtime) : Runtime :=
  with_heap (<[l := o]> (heap rt)) rt.

(** ** Identity, errors and timed events: the SDK methods behind them *)

(** The device id handed to the native Countly SDK: a string of the
    caller's, or the SDK's own [Countly.TemporaryDeviceIDString]. *)
Inductive DeviceId :=
| GivenDeviceId (id : string)
| TemporaryDeviceIDString.

(** The object the Countly adapters build for the SDK's user-details
    call: its named fields, and its nested [custom] object when set. *)
Record UserData := {
  user_details : Props;
  user_custom : option Props;
}.

(** Calls into the SDKs made by the operations on identity, errors and
    timed events.  Each operation returns the requests it made, in the
    order it made them. *)
Inductive SdkRequest :=
| Countly_user_details (userData : UserData)
| Countly_start_event (name : string)
| Countly_end_event (key : string) (segmentation : Segments)
| Countly_add_log (message : JsValue)
| Countly_log_error (error : JsValue) (nonfatal : bool) (segments : Segments)
| Countly_changeDeviceId (newDeviceId : DeviceId) (mergeOnServer : bool)
| Countly_userDataBulk_setUserProperties (userData : UserData)
| Countly_userDataBulk_setProperty (key value : string)
| Countly_userDataBulk_save
| Countly_events_startEvent (name : string)
| Countly_events_endEvent (name : string) (segments : Segments)
| Countly_addCrashLog (message : JsValue)
| Countly_logException (error : JsValue) (nonfatal : bool) (segments : Segments)
| PostHog_identify (userId : JsValue) (properties : Props)
| PostHog_reset.

(** Which of these calls the SDK answers by throwing, and for which keys
    the PostHog client's [unregister] throws. *)
Record Faults := {
  request_throws : SdkRequest -> bool;
  unregister_throws : string -> bool;
}.

(** The requests of a [try] block that are made: all up to and including
    the first one that throws. *)
Fixpoint attempted (faults : Faults) (block : list SdkRequest) : list SdkRequest :=
  match block with
  | [] => []
  | r :: rest => r :: (if request_throws faults r then [] else attempted faults rest)
  end.

(** The argument of the Countly adapters' [trackError(options)]; a
    property that is not given reads [undefined]. *)
Record ErrorOptions := {
  opt_message : JsValue;
  opt_stack : JsValue;
  opt_fatal : JsValue;
  opt_segments : option Props;
}.

(** ** [platform.js] *)

Module Platform.

Definition name (p : PlatformName) : string :=
  match p with web => "web" | native => "native" end.

Definition parse (s : string) : option PlatformName :=
  if String.eqb s "web" then Some web
  else if String.eqb s "native" then Some native
  else None.

Definition InvalidPlatform (given : string) : Exception :=
  Error ("Invalid platform: " ++ String Builtins.quote_char given
         ++ String Builtins.quote_char ". Must be "
         ++ String Builtins.quote_char "web" ++ String Builtins.quote_char " or "
         ++ String Builtins.quote_char "native" ++ String Builtins.quote_char ".").

(** [setPlatform(platform)]. *)
Definition setPlatform (given : string) (rt : Runtime) : Result unit * Runtime :=
  match parse given with
  | None => (Throws (InvalidPlatform given), rt)
  | Some p => (Returns tt, with_platform (Some p) rt)
  end.

(** [getPlatform()]: detects and caches on first use. *)
Definition getPlatform (env : Env) (rt : Runtime) : PlatformName * Runtime :=
  match currentPlatform rt with
  | Some p => (p, rt)
  | None =>
      let p := autoDetectPlatform env in
      (p, with_platform (Some p) rt)
  end.

(** [isWeb()]. *)
Definition isWeb (env : Env) (rt : Runtime) : bool * Runtime :=
  let (p, rt') := getPlatform env rt in
  (match p with web => true | native => false end, rt').

(** [isNative()]. *)
Definition isNative (env : Env) (rt : Runtime) : bool * Runtime :=
  let (p, rt') := getPlatform env rt in
  (match p with native => true | web => false end, rt').

End Platform.

(** ** [utils/helpers.js] *)

Module Helpers.

Record Validation := { valid : bool; errors : list string }.

(** [errors.push(message)]. *)
Definition push (errors : list string) (message : string) : list string :=
  (errors ++ [message])%list.

(** [validateConfig(config)]. *)
Definition validateConfig (config : AnalyticsConfig) : Validation :=
  let errors0 : list string :=
    if negb (bool_decide (is_Some (countly config)))
       && negb (bool_decide (is_Some (posthog config)))
    then push [] "At least one provider (countly or posthog) must be configured"
    else [] in
  let errors1 :=
    match countly config with
    | Some c =>
        let e :=
          if negb (truthy_string (serverUrl c))
          then push errors0 "countly.serverUrl is required" else errors0 in
        if negb (truthy_string (appKey c))
        then push e "countly.appKey is required" else e
    | None => errors0
    end in
  let errors2 :=
    match posthog config with
    | Some p =>
        if negb (truthy_string (apiKey p))
        then push errors1 "posthog.apiKey is required" else errors1
    | None => errors1
    end in
  {| valid := Nat.eqb (length errors2) 0; errors := errors2 |}.

(** [deepMerge(target, source)], by recursion on the source: the loop
    [for (const key in source)] runs over the fields of the source, with
    [result] starting as the copy [{ ...target }].  Each turn first calls
    [source.hasOwnProperty(key)]; a source that has a key of that name of
    its own hides the method of [Object.prototype] by a value that cannot
    be called, and the call throws.  What a nested call throws leaves the
    loop. *)
Fixpoint deepMerge_from (source : JsValue) (target : list (string * JsValue)) {struct source}
  : Result (list (string * JsValue)) :=
  match source with
  | JsObject fields =>
      (fix loop (entries : list (string * JsValue)) (result : list (string * JsValue))
           {struct entries} : Result (list (string * JsValue)) :=
         match entries with
         | [] => Returns result
         | kv :: rest =>
             if bool_decide ("hasOwnProperty" ∈ field_keys fields)
             then Throws (TypeError "source.hasOwnProperty is not a function")
             else
               let key := fst kv in
               let sourceValue := snd kv in
               let targetValue := get_field key result in
               match sourceValue, targetValue with
               | JsObject _, JsObject targetFields =>
                   match deepMerge_from sourceValue targetFields with
                   | Returns merged => loop rest (set_field key (JsObject merged) result)
                   | Throws e => Throws e
                   end
               | JsUndefined, _ => loop rest result
               | _, _ => loop rest (set_field key sourceValue result)
               end
         end) fields target
  | _ => Returns target
  end.

Definition deepMerge (target source : list (string * JsValue))
  : Result (list (string * JsValue)) :=
  deepMerge_from (JsObject source) target.

(** One turn of the loop of [deepMerge(target, source)], and the turns
    for the entries still to come. *)
Definition deepMerge_step (source result : list (string * JsValue)) (kv : string * JsValue)
  : Result (list (string * JsValue)) :=
  if bool_decide ("hasOwnProperty" ∈ field_keys source)
  then Throws (TypeError "source.hasOwnProperty is not a function")
  else
    match snd kv, get_field (fst kv) result with
    | JsObject sourceFields, JsObject targetFields =>
        match deepMerge targetFields sourceFields with
        | Returns merged => Returns (set_field (fst kv) (JsObject merged) result)
        | Throws e => Throws e
        end
    | JsUndefined, _ => Returns result
    | sourceValue, _ => Returns (set_field (fst kv) sourceValue result)
    end.

Fixpoint deepMerge_loop (source entries result : list (string * JsValue))
  : Result (list (string * JsValue)) :=
  match entries with
  | [] => Returns result
  | kv :: rest =>
      match deepMerge_step source result kv with
      | Returns result' => deepMerge_loop source rest result'
      | Throws e => Throws e
      end
  end.

End Helpers.

(** JavaScript truthiness of a value. *)
Definition truthy (v : JsValue) : bool :=
  match v with
  | JsUndefined | JsNull => false
  | JsBool b => b
  | JsNumber n => negb (Z.eqb n 0)
  | JsString s => negb (String.eqb s "")
  | JsArray _ | JsObject _ => true
  end.

(** [a ?? b]. *)
Definition nullish_or (a b : JsValue) : JsValue :=
  if is_null a || is_undefined a then b else a.

(** The object literal [{ ...a, ...b }]: the keys of both, [b] winning. *)
Definition spread (a b : Props) : Props := b ∪ a.

(** [a || b]. *)
Definition or_else (a b : JsValue) : JsValue := if truthy a then a else b.

(** The loop of [clearRegisteredProperties], the same in both PostHog
    adapters: one [unregister] per key, up to the first that throws;
    [true] when the loop ran to its end. *)
Fixpoint unregister_each (faults : Faults) (keys : list string) (rt : Runtime)
  : bool * Runtime :=
  match keys with
  | [] => (true, rt)
  | key :: rest =>
      let rt1 := emit (PostHog_unregister key) rt in
      if unregister_throws faults key then (false, rt1)
      else unregister_each faults rest rt1
  end.

(** ** The user data of the Countly adapters *)

(** [identify] builds the SDK's user data with the same statements in
    both Countly adapters. *)

(** The keys [identify] copies as named fields. *)
Definition profile_keys : list string :=
  ["name"; "email"; "username"; "organization"; "phone"; "picture"; "gender"; "birthYear"].

(** [if (properties.key) userData.key = properties.key]. *)
Definition copy_if_truthy (key : string) (properties userData : Props) : Props :=
  match properties !! key with
  | Some v => if truthy v then <[key := v]> userData else userData
  | None => userData
  end.

(** The named fields of [userData]; [birthYear] goes to [byear] through
    [String]. *)
Definition named_details (properties : Props) : Props :=
  let u1 := copy_if_truthy "name" properties ∅ in
  let u2 := copy_if_truthy "email" properties u1 in
  let u3 := copy_if_truthy "username" properties u2 in
  let u4 := copy_if_truthy "organization" properties u3 in
  let u5 := copy_if_truthy "phone" properties u4 in
  let u6 := copy_if_truthy "picture" properties u5 in
  let u7 := copy_if_truthy "gender" properties u6 in
  match properties !! "birthYear" with
  | Some v => if truthy v then <["byear" := JsString (Builtins.String_ v)]> u7 else u7
  | None => u7
  end.

(** [customFields]: it starts as [{ user_id: userId }], and the loop over
    [Object.entries(properties)] adds every other key through
    [safeString]. *)
Definition custom_fields (userId : JsValue) (properties : Props) : Props :=
  map_fold
    (fun key value (customFields : Props) =>
       if negb (bool_decide (key ∈ profile_keys))
       then <[key := JsString (BaseProvider.safeString value)]> customFields
       else customFields)
    {[ "user_id" := userId ]} properties.

Definition identify_userData (userId : JsValue) (properties : Props) : UserData :=
  {| user_details := named_details properties;
     user_custom := Some (custom_fields userId properties) |}.

(** The [custom] object of [setUserProperties]: every key, through
    [safeString]. *)
Definition custom_of (properties : Props) : Props :=
  map_fold
    (fun key value (custom : Props) =>
       <[key := JsString (BaseProvider.safeString value)]> custom)
    ∅ properties.

(** ** [providers/CountlyProvider.web.js] *)

Module CountlyProviderWeb.

Record t := {
  initialized : bool;
  debug : bool;
  config : option CountlyConfig;
  userContext : loc;
}.

Definition set_initialized (b : bool) (self : t) : t :=
  {| initialized := b; debug := debug self; config := config self;
     userContext := userContext self |}.

Definition set_userContext (l : loc) (self : t) : t :=
  {| initialized := initialized self; debug := debug self; config := config self;
     userContext := l |}.

(** [new CountlyProviderWeb()]: the class fields, [userContext = {}]
    being a new object. *)
Definition new (rt : Runtime) : t * Runtime :=
  let (l, rt') := alloc ∅ rt in
  ({| initialized := false; debug := false; config := None; userContext := l |}, rt').

Definition isInitialized (self : t) : bool := initialized self.

(** [ensureInitialized()] (the warning is console output). *)
Definition ensureInitialized (self : t) : bool := initialized self.

Definition setDebug (enabled : bool) (self : t) : t :=
  {| initialized := initialized self; debug := enabled; config := config self;
     userContext := userContext self |}.

(** [init(config)]. *)
Definition init (env : Env) (self : t) (cfg : CountlyConfig) (rt : Runtime)
  : Result unit * t * Runtime :=
  if initialized self then (Returns tt, self, rt)
  else
    let self1 :=
      {| initialized := initialized self;
         debug := default false (countly_debug cfg);
         config := Some cfg;
         userContext := userContext self |} in
    match sdk_init env Countly web with
    | None => (Returns tt, set_initialized true self1, emit (SdkInit Countly web None) rt)
    | Some e => (Throws e, self1, emit (SdkInit Countly web (Some e)) rt)
    end.

(** [mergeWithUserContext(properties)]. *)
Definition mergeWithUserContext (self : t) (properties : option Props) (rt : Runtime) : Props :=
  spread (deref rt (userContext self)) (default ∅ properties).

(** [trackEvent(name, properties)]. *)
Definition trackEvent (self : t) (name : string) (properties : option Props) (rt : Runtime)
  : Runtime :=
  if negb (ensureInitialized self) then rt
  else
    let mergedProps := mergeWithUserContext self properties rt in
    let segments := BaseProvider.stringifyProperties (Some mergedProps) in
    emit (Countly_add_event name segments) rt.

(** [trackView(viewName, properties)]. *)
Definition trackView (self : t) (viewName : string) (properties : option Props) (rt : Runtime)
  : Runtime :=
  if negb (ensureInitialized self) then rt
  else
    let mergedProps := mergeWithUserContext self properties rt in
    let segments := BaseProvider.stringifyProperties (Some mergedProps) in
    emit (Countly_track_pageview viewName segments) rt.

(** [setUserContext(properties)]. *)
Definition setUserContext (self : t) (properties : Props) (rt : Runtime) : t * Runtime :=
  if negb (ensureInitialized self) then (self, rt)
  else
    let (l, rt') := alloc (spread (deref rt (userContext self)) properties) rt in
    (set_userContext l self, rt').

(** [getUserContext()]: the address of a new object. *)
Definition getUserContext (self : t) (rt : Runtime) : loc * Runtime :=
  alloc (spread (deref rt (userContext self)) ∅) rt.

(** [clearUserContext()]. *)
Definition clearUserContext (self : t) (rt : Runtime) : t * Runtime :=
  let (l, rt') := alloc ∅ rt in
  (set_userContext l self, rt').

(** [identify(userId, properties = {})]. *)
Definition identify (self : t) (userId : JsValue) (properties : option Props)
  : list SdkRequest :=
  if negb (ensureInitialized self) then []
  else [Countly_user_details (identify_userData userId (default ∅ properties))].

(** [setUserProperties(properties)]; [Object.entries] of a missing
    argument throws inside the [try], and nothing is sent. *)
Definition setUserProperties (self : t) (properties : option Props) : list SdkRequest :=
  if negb (ensureInitialized self) then []
  else
    match properties with
    | None => []
    | Some props =>
        [Countly_user_details {| user_details := ∅; user_custom := Some (custom_of props) |}]
    end.

(** [reset()]. *)
Definition reset (self : t) (rt : Runtime) : t * Runtime :=
  if negb (ensureInitialized self) then (self, rt)
  else clearUserContext self rt.

(** [startTimedEvent(name)]. *)
Definition startTimedEvent (self : t) (name : string) : list SdkRequest :=
  if negb (ensureInitialized self) then []
  else [Countly_start_event name].

(** [endTimedEvent(name, segments)]. *)
Definition endTimedEvent (self : t) (name : string) (segments : option Props)
  : list SdkRequest :=
  if negb (ensureInitialized self) then []
  else
    let props := BaseProvider.stringifyProperties segments in
    [Countly_end_event name props].

(** [trackError(options)]; the destructuring gives [stack], [fatal] and
    [segments] their defaults. *)
Definition trackError (faults : Faults) (self : t) (options : ErrorOptions)
  : list SdkRequest :=
  if negb (ensureInitialized self) then []
  else
    let message := opt_message options in
    let stack := if is_undefined (opt_stack options) then JsString "" else opt_stack options in
    let fatal := if is_undefined (opt_fatal options) then JsBool false else opt_fatal options in
    let segments := default ∅ (opt_segments options) in
    attempted faults
      (Countly_add_log message
       :: (if truthy fatal
           then
             let props := BaseProvider.stringifyProperties (Some segments) in
             [Countly_log_error (or_else stack message) (negb (truthy fatal)) props]
           else [])).

End CountlyProviderWeb.

(** ** [providers/CountlyProvider.native.js] *)

Module CountlyProviderNative.

Record t := {
  initialized : bool;
  debug : bool;
  config : option CountlyConfig;
  userContext : loc;
}.

Definition set_initialized (b : bool) (self : t) : t :=
  {| initialized := b; debug := debug self; config := config self;
     userContext := userContext self |}.

Definition set_userContext (l : loc) (self : t) : t :=
  {| initialized := initialized self; debug := debug self; config := config self;
     userContext := l |}.

Definition new (rt : Runtime) : t * Runtime :=
  let (l, rt') := alloc ∅ rt in
  ({| initialized := false; debug := false; config := None; userContext := l |}, rt').

Definition isInitialized (self : t) : bool := initialized self.

Definition ensureInitialized (self : t) : bool := initialized self.

Definition setDebug (enabled : bool) (self : t) : t :=
  {| initialized := initialized self; debug := enabled; config := config self;
     userContext := userContext self |}.

(** [init(config)]; both ways out of the [try] block that do not throw
    (SDK already running, or set up now) set [initialized]. *)
Definition init (env : Env) (self : t) (cfg : CountlyConfig) (rt : Runtime)
  : Result unit * t * Runtime :=
  if initialized self then (Returns tt, self, rt)
  else
    let self1 :=
      {| initialized := initialized self;
         debug := default false (countly_debug cfg);
         config := Some cfg;
         userContext := userContext self |} in
    match sdk_init env Countly native with
    | None => (Returns tt, set_initialized true self1, emit (SdkInit Countly native None) rt)
    | Some e => (Throws e, self1, emit (SdkInit Countly native (Some e)) rt)
    end.

Definition mergeWithUserContext (self : t) (properties : option Props) (rt : Runtime) : Props :=
  spread (deref rt (userContext self)) (default ∅ properties).

(** [trackEvent]: [Countly.events.recordEvent(name, segments, 1, undefined)]. *)
Definition trackEvent (self : t) (name : string) (properties : option Props) (rt : Runtime)
  : Runtime :=
  if negb (ensureInitialized self) then rt
  else
    let mergedProps := mergeWithUserContext self properties rt in
    let segments := BaseProvider.stringifyProperties (Some mergedProps) in
    emit (Countly_recordEvent name segments) rt.

(** [trackView]: [Countly.recordView(viewName, segments)]. *)
Definition trackView (self : t) (viewName : string) (properties : option Props) (rt : Runtime)
  : Runtime :=
  if negb (ensureInitialized self) then rt
  else
    let mergedProps := mergeWithUserContext self properties rt in
    let segments := BaseProvider.stringifyProperties (Some mergedProps) in
    emit (Countly_recordView viewName segments) rt.

Definition setUserContext (self : t) (properties : Props) (rt : Runtime) : t * Runtime :=
  if negb (ensureInitialized self) then (self, rt)
  else
    let (l, rt') := alloc (spread (deref rt (userContext self)) properties) rt in
    (set_userContext l self, rt').

Definition getUserContext (self : t) (rt : Runtime) : loc * Runtime :=
  alloc (spread (deref rt (userContext self)) ∅) rt.

Definition clearUserContext (self : t) (rt : Runtime) : t * Runtime :=
  let (l, rt') := alloc ∅ rt in
  (set_userContext l self, rt').

(** [changeDeviceId(newDeviceId, mergeOnServer = true)]. *)
Definition changeDeviceId (self : t) (newDeviceId : DeviceId) (mergeOnServer : bool)
  : list SdkRequest :=
  if negb (ensureInitialized self) then []
  else [Countly_changeDeviceId newDeviceId mergeOnServer].

(** [enableTemporaryDeviceIdMode()]. *)
Definition enableTemporaryDeviceIdMode (self : t) : list SdkRequest :=
  if negb (ensureInitialized self) then []
  else [Countly_changeDeviceId TemporaryDeviceIDString false].

(** [identify(userId, properties = {})]: [userId.toString()] of a [null]
    or [undefined] id throws inside the [try], before anything is sent. *)
Definition identify (faults : Faults) (self : t) (userId : JsValue)
    (properties : option Props) : list SdkRequest :=
  if negb (ensureInitialized self) then []
  else if is_null userId || is_undefined userId then []
  else
    (changeDeviceId self (GivenDeviceId (Builtins.String_ userId)) true
     ++ attempted faults
          [Countly_userDataBulk_setUserProperties
             (identify_userData userId (default ∅ properties));
           Countly_userDataBulk_save])%list.

(** [setUserProperties(properties)]: one [setProperty] per entry, then
    [save]. *)
Definition setUserProperties (faults : Faults) (self : t) (properties : option Props)
  : list SdkRequest :=
  if negb (ensureInitialized self) then []
  else
    match properties with
    | None => []
    | Some props =>
        attempted faults
          (map (fun kv => Countly_userDataBulk_setProperty (fst kv)
                            (BaseProvider.safeString (snd kv)))
               (map_to_list props)
           ++ [Countly_userDataBulk_save])%list
    end.

(** [reset()]: both helpers run; [enableTemporaryDeviceIdMode] catches
    what its SDK call throws. *)
Definition reset (self : t) (rt : Runtime) : t * Runtime * list SdkRequest :=
  if negb (ensureInitialized self) then (self, rt, [])
  else
    let requests := enableTemporaryDeviceIdMode self in
    let (self', rt') := clearUserContext self rt in
    (self', rt', requests).

(** [startTimedEvent(name)]. *)
Definition startTimedEvent (self : t) (name : string) : list SdkRequest :=
  if negb (ensureInitialized self) then []
  else [Countly_events_startEvent name].

(** [endTimedEvent(name, segments)]. *)
Definition endTimedEvent (self : t) (name : string) (segments : option Props)
  : list SdkRequest :=
  if negb (ensureInitialized self) then []
  else
    let props := BaseProvider.stringifyProperties segments in
    [Countly_events_endEvent name props].

(** [trackError(options)]. *)
Definition trackError (faults : Faults) (self : t) (options : ErrorOptions)
  : list SdkRequest :=
  if negb (ensureInitialized self) then []
  else
    let message := opt_message options in
    let stack := if is_undefined (opt_stack options) then JsString "" else opt_stack options in
    let fatal := if is_undefined (opt_fatal options) then JsBool false else opt_fatal options in
    let segments := default ∅ (opt_segments options) in
    attempted faults
      (Countly_addCrashLog message
       :: (if truthy fatal
           then
             let props := BaseProvider.stringifyProperties (Some segments) in
             [Countly_logException (or_else stack message) (negb (truthy fatal)) props]
           else [])).

End CountlyProviderNative.

(** ** [providers/PostHogProvider.web.js] *)

(** What [onFeatureFlagsChange] hands back: the function [() => {}], or
    [undefined]. *)
Inductive Unsubscribe := NoopFunction | NoFunction.

Module PostHogProviderWeb.

(** [posthogClient] records whether the client reference is set; the
    session-recording flag plays no part in the operations below. *)
Record t := {
  initialized : bool;
  debug : bool;
  config : option PostHogConfig;
  posthogClient : bool;
  featureFlagsCallback : option Callback;
  registeredProperties : loc;
}.

Definition set_registeredProperties (l : loc) (self : t) : t :=
  {| initialized := initialized self; debug := debug self; config := config self;
     posthogClient := posthogClient self;
     featureFlagsCallback := featureFlagsCallback self;
     registeredProperties := l |}.

Definition set_featureFlagsCallback (cb : Callback) (self : t) : t :=
  {| initialized := initialized self; debug := debug self; config := config self;
     posthogClient := posthogClient self;
     featureFlagsCallback := Some cb;
     registeredProperties := registeredProperties self |}.

Definition new (rt : Runtime) : t * Runtime :=
  let (l, rt') := alloc ∅ rt in
  ({| initialized := false; debug := false; config := None; posthogClient := false;
      featureFlagsCallback := None; registeredProperties := l |}, rt').

Definition isInitialized (self : t) : bool := initialized self.

Definition ensureInitialized (self : t) : bool := initialized self.

Definition setDebug (enabled : bool) (self : t) : t :=
  {| initialized := initialized self; debug := enabled; config := config self;
     posthogClient := posthogClient self;
     featureFlagsCallback := featureFlagsCallback self;
     registeredProperties := registeredProperties self |}.

(** [init(config)]. *)
Definition init (env : Env) (self : t) (cfg : PostHogConfig) (rt : Runtime)
  : Result unit * t * Runtime :=
  if initialized self then (Returns tt, self, rt)
  else
    let self1 :=
      {| initialized := initialized self;
         debug := default false (posthog_debug cfg);
         config := Some cfg;
         posthogClient := posthogClient self;
         featureFlagsCallback := featureFlagsCallback self;
         registeredProperties := registeredProperties self |} in
    match sdk_init env PostHog web with
    | None =>
        (Returns tt,
         {| initialized := true; debug := debug self1; config := config self1;
            posthogClient := true;
            featureFlagsCallback := featureFlagsCallback self1;
            registeredProperties := registeredProperties self1 |},
         emit (SdkInit PostHog web None) rt)
    | Some e => (Throws e, self1, emit (SdkInit PostHog web (Some e)) rt)
    end.

(** [trackEvent]: [capture(name, properties || {})]. *)
Definition trackEvent (self : t) (name : string) (properties : option Props) (rt : Runtime)
  : Runtime :=
  if negb (ensureInitialized self) then rt
  else emit (PostHog_capture name (default ∅ properties)) rt.

(** [trackView]: a [$pageview] capture carrying [$current_url]. *)
Definition trackView (self : t) (viewName : string) (properties : option Props) (rt : Runtime)
  : Runtime :=
  if negb (ensureInitialized self) then rt
  else
    emit (PostHog_capture "$pageview"
            (spread {[ "$current_url" := JsString viewName ]} (default ∅ properties))) rt.

(** [getFeatureFlag(key)]. *)
Definition getFeatureFlag (env : Env) (self : t) (key : string) : JsValue :=
  if negb (ensureInitialized self) then JsUndefined
  else
    match sdk_getFeatureFlag env key with
    | Returns v => v
    | Throws _ => JsUndefined
    end.

(** [isFeatureEnabled(key)]. *)
Definition isFeatureEnabled (env : Env) (self : t) (key : string) : JsValue :=
  if negb (ensureInitialized self) then JsBool false
  else
    match sdk_isFeatureEnabled env key with
    | Returns v => nullish_or v (JsBool false)
    | Throws _ => JsBool false
    end.

(** [getAllFeatureFlags()]: reading a method of an unset client is a
    [TypeError], caught like any other failure. *)
Definition getAllFeatureFlags (env : Env) (self : t) : JsValue :=
  if negb (posthogClient self) then JsObject []
  else
    match sdk_getFeatureFlags env with
    | Returns v => v
    | Throws _ => JsObject []
    end.

(** [onFeatureFlags(callback)]: the SDK call is not guarded by a [try]. *)
Definition onFeatureFlags (env : Env) (self : t) (callback : Callback) (rt : Runtime)
  : Result unit * t * Runtime :=
  if negb (ensureInitialized self) then (Returns tt, self, rt)
  else
    let self1 := set_featureFlagsCallback callback self in
    let rt1 := emit (PostHog_onFeatureFlags callback) rt in
    match sdk_onFeatureFlags env callback with
    | None => (Returns tt, self1, rt1)
    | Some e => (Throws e, self1, rt1)
    end.

(** [register(properties, days)]: the store is replaced before the SDK
    is called. *)
Definition register (self : t) (properties : Props) (rt : Runtime) : t * Runtime :=
  if negb (ensureInitialized self) then (self, rt)
  else
    let (l, rt') := alloc (spread (deref rt (registeredProperties self)) properties) rt in
    (set_registeredProperties l self, emit (PostHog_register properties) rt').

(** [getRegisteredProperties()]: the address of a new object. *)
Definition getRegisteredProperties (self : t) (rt : Runtime) : loc * Runtime :=
  alloc (spread (deref rt (registeredProperties self)) ∅) rt.

(** [unregister(propertyName)]: [delete] works on the stored object
    itself. *)
Definition unregister (self : t) (propertyName : string) (rt : Runtime) : Runtime :=
  if negb (ensureInitialized self) then rt
  else
    let l := registeredProperties self in
    emit (PostHog_unregister propertyName) (store l (delete propertyName (deref rt l)) rt).

(** [identify(userId, properties, propertiesSetOnce)], the last argument
    not given. *)
Definition identify (self : t) (userId : JsValue) (properties : option Props)
  : list SdkRequest :=
  if negb (ensureInitialized self) then []
  else [PostHog_identify userId (default ∅ properties)].

(** [reset(resetDeviceId)]: the stored super properties are not
    touched. *)
Definition reset (self : t) : list SdkRequest :=
  if negb (ensureInitialized self) then []
  else [PostHog_reset].

(** [capture(eventName, properties)]. *)
Definition capture (self : t) (eventName : string) (properties : option Props) (rt : Runtime)
  : Runtime :=
  trackEvent self eventName properties rt.

(** [screen(screenName, properties)]. *)
Definition screen (self : t) (screenName : string) (properties : option Props) (rt : Runtime)
  : Runtime :=
  trackView self screenName properties rt.

(** [clearRegisteredProperties()]: the store is replaced by a new empty
    object once every key has been unregistered. *)
Definition clearRegisteredProperties (faults : Faults) (self : t) (rt : Runtime)
  : t * Runtime :=
  if negb (ensureInitialized self) then (self, rt)
  else
    let keys := (map_to_list (deref rt (registeredProperties self))).*1 in
    let (completed, rt1) := unregister_each faults keys rt in
    if completed then
      let (l, rt2) := alloc ∅ rt1 in
      (set_registeredProperties l self, rt2)
    else (self, rt1).

End PostHogProviderWeb.

(** ** [providers/PostHogProvider.native.js] *)

Module PostHogProviderNative.

Record t := {
  initialized : bool;
  debug : bool;
  config : option PostHogConfig;
  posthogClient : bool;
  featureFlagsCallback : option Callback;
  registeredProperties : loc;
}.

Definition set_registeredProperties (l : loc) (self : t) : t :=
  {| initialized := initialized self; debug := debug self; config := config self;
     posthogClient := posthogClient self;
     featureFlagsCallback := featureFlagsCallback self;
     registeredProperties := l |}.

Definition set_featureFlagsCallback (cb : Callback) (self : t) : t :=
  {| initialized := initialized self; debug := debug self; config := config self;
     posthogClient := posthogClient self;
     featureFlagsCallback := Some cb;
     registeredProperties := registeredProperties self |}.

Definition new (rt : Runtime) : t * Runtime :=
  let (l, rt') := alloc ∅ rt in
  ({| initialized := false; debug := false; config := None; posthogClient := false;
      featureFlagsCallback := None; registeredProperties := l |}, rt').

Definition isInitialized (self : t) : bool := initialized self.

Definition ensureInitialized (self : t) : bool := initialized self.

Definition setDebug (enabled : bool) (self : t) : t :=
  {| initialized := initialized self; debug := enabled; config := config self;
     posthogClient := posthogClient self;
     featureFlagsCallback := featureFlagsCallback self;
     registeredProperties := registeredProperties self |}.

Definition init (env : Env) (self : t) (cfg : PostHogConfig) (rt : Runtime)
  : Result unit * t * Runtime :=
  if initialized self then (Returns tt, self, rt)
  else
    let self1 :=
      {| initialized := initialized self;
         debug := default false (posthog_debug cfg);
         config := Some cfg;
         posthogClient := posthogClient self;
         featureFlagsCallback := featureFlagsCallback self;
         registeredProperties := registeredProperties self |} in
    match sdk_init env PostHog native with
    | None =>
        (Returns tt,
         {| initialized := true; debug := debug self1; config := config self1;
            posthogClient := true;
            featureFlagsCallback := featureFlagsCallback self1;
            registeredProperties := registeredProperties self1 |},
         emit (SdkInit PostHog native None) rt)
    | Some e => (Throws e, self1, emit (SdkInit PostHog native (Some e)) rt)
    end.

Definition trackEvent (self : t) (name : string) (properties : option Props) (rt : Runtime)
  : Runtime :=
  if negb (ensureInitialized self) then rt
  else emit (PostHog_capture name (default ∅ properties)) rt.

(** [trackView]: [screen(viewName, properties || {})]. *)
Definition trackView (self : t) (viewName : string) (properties : option Props) (rt : Runtime)
  : Runtime :=
  if negb (ensureInitialized self) then rt
  else emit (PostHog_screen viewName (default ∅ properties)) rt.

Definition getFeatureFlag (env : Env) (self : t) (key : string) : JsValue :=
  if negb (ensureInitialized self) then JsUndefined
  else
    match sdk_getFeatureFlag env key with
    | Returns v => v
    | Throws _ => JsUndefined
    end.

(** [isFeatureEnabled(key)]: [flag === true || flag === 'true']. *)
Definition isFeatureEnabled (env : Env) (self : t) (key : string) : JsValue :=
  if negb (ensureInitialized self) then JsBool false
  else
    match sdk_getFeatureFlag env key with
    | Returns (JsBool true) => JsBool true
    | Returns (JsString s) => JsBool (String.eqb s "true")
    | Returns _ => JsBool false
    | Throws _ => JsBool false
    end.

(** [getAllFeatureFlags()]: [getFeatureFlags?.() || {}]. *)
Definition getAllFeatureFlags (env : Env) (self : t) : JsValue :=
  if negb (posthogClient self) then JsObject []
  else
    match sdk_getFeatureFlags env with
    | Returns v => if truthy v then v else JsObject []
    | Throws _ => JsObject []
    end.

(** [onFeatureFlags(callback)]: the callback is stored, and called at
    once with the current flags when the adapter is initialized. *)
Definition onFeatureFlags (env : Env) (self : t) (callback : Callback) (rt : Runtime)
  : Result unit * t * Runtime :=
  let self1 := set_featureFlagsCallback callback self in
  if initialized self1 then
    let flags := getAllFeatureFlags env self1 in
    let rt1 := emit (Callback_call callback flags) rt in
    match callback_call env callback flags with
    | None => (Returns tt, self1, rt1)
    | Some e => (Throws e, self1, rt1)
    end
  else (Returns tt, self1, rt).

Definition register (self : t) (properties : Props) (rt : Runtime) : t * Runtime :=
  if negb (ensureInitialized self) then (self, rt)
  else
    let (l, rt') := alloc (spread (deref rt (registeredProperties self)) properties) rt in
    (set_registeredProperties l self, emit (PostHog_register properties) rt').

Definition getRegisteredProperties (self : t) (rt : Runtime) : loc * Runtime :=
  alloc (spread (deref rt (registeredProperties self)) ∅) rt.

Definition unregister (self : t) (propertyName : string) (rt : Runtime) : Runtime :=
  if negb (ensureInitialized self) then rt
  else
    let l := registeredProperties self in
    emit (PostHog_unregister propertyName) (store l (delete propertyName (deref rt l)) rt).

(** [identify(userId, properties)]. *)
Definition identify (self : t) (userId : JsValue) (properties : option Props)
  : list SdkRequest :=
  if negb (ensureInitialized self) then []
  else [PostHog_identify userId (default ∅ properties)].

(** [reset()]. *)
Definition reset (self : t) : list SdkRequest :=
  if negb (ensureInitialized self) then []
  else [PostHog_reset].

(** [capture(eventName, properties)]. *)
Definition capture (self : t) (eventName : string) (properties : option Props) (rt : Runtime)
  : Runtime :=
  trackEvent self eventName properties rt.

(** [screen(screenName, properties)]. *)
Definition screen (self : t) (screenName : string) (properties : option Props) (rt : Runtime)
  : Runtime :=
  trackView self screenName properties rt.

(** [clearRegisteredProperties()]; the client has an [unregister]. *)
Definition clearRegisteredProperties (faults : Faults) (self : t) (rt : Runtime)
  : t * Runtime :=
  if negb (ensureInitialized self) then (self, rt)
  else
    let keys := (map_to_list (deref rt (registeredProperties self))).*1 in
    let (completed, rt1) := unregister_each faults keys rt in
    if completed then
      let (l, rt2) := alloc ∅ rt1 in
      (set_registeredProperties l self, rt2)
    else (self, rt1).

End PostHogProviderNative.

(** ** [providers/CountlyProvider.js]: the platform proxy *)

Module CountlyProvider.

Inductive Impl :=
| ImplWeb (a : CountlyProviderWeb.t)
| ImplNative (a : CountlyProviderNative.t).

Record t := { _impl : option Impl; _debug : bool }.

(** [new CountlyProvider()]. *)
Definition new : t := {| _impl := None; _debug := false |}.

Definition set_impl (i : Impl) (self : t) : t :=
  {| _impl := Some i; _debug := _debug self |}.

(** [init(config)]: resolve the platform, load and construct the
    matching adapter, forward the debug flag, run the adapter's [init]. *)
Definition init (env : Env) (self : t) (cfg : CountlyConfig) (rt : Runtime)
  : Result unit * t * Runtime :=
  let (platform, rt0) := Platform.getPlatform env rt in
  match import_adapter env Countly platform with
  | Some e => (Throws e, self, rt0)
  | None =>
      match platform with
      | web =>
          let (a, rt1) := CountlyProviderWeb.new rt0 in
          let a1 := CountlyProviderWeb.setDebug (_debug self) a in
          let '(r, a2, rt2) := CountlyProviderWeb.init env a1 cfg rt1 in
          (r, set_impl (ImplWeb a2) self, rt2)
      | native =>
          let (a, rt1) := CountlyProviderNative.new rt0 in
          let a1 := CountlyProviderNative.setDebug (_debug self) a in
          let '(r, a2, rt2) := CountlyProviderNative.init env a1 cfg rt1 in
          (r, set_impl (ImplNative a2) self, rt2)
      end
  end.

Definition setDebug (enabled : bool) (self : t) : t :=
  {| _impl :=
       match _impl self with
       | Some (ImplWeb a) => Some (ImplWeb (CountlyProviderWeb.setDebug enabled a))
       | Some (ImplNative a) => Some (ImplNative (CountlyProviderNative.setDebug enabled a))
       | None => None
       end;
     _debug := enabled |}.

(** [this._impl?.isInitialized() ?? false]. *)
Definition isInitialized (self : t) : bool :=
  match _impl self with
  | Some (ImplWeb a) => CountlyProviderWeb.isInitialized a
  | Some (ImplNative a) => CountlyProviderNative.isInitialized a
  | None => false
  end.

Definition trackEvent (self : t) (name : string) (properties : option Props) (rt : Runtime)
  : Runtime :=
  match _impl self with
  | Some (ImplWeb a) => CountlyProviderWeb.trackEvent a name properties rt
  | Some (ImplNative a) => CountlyProviderNative.trackEvent a name properties rt
  | None => rt
  end.

Definition trackView (self : t) (viewName : string) (properties : option Props) (rt : Runtime)
  : Runtime :=
  match _impl self with
  | Some (ImplWeb a) => CountlyProviderWeb.trackView a viewName properties rt
  | Some (ImplNative a) => CountlyProviderNative.trackView a viewName properties rt
  | None => rt
  end.

Definition setUserContext (self : t) (properties : Props) (rt : Runtime) : t * Runtime :=
  match _impl self with
  | Some (ImplWeb a) =>
      let (a', rt') := CountlyProviderWeb.setUserContext a properties rt in
      (set_impl (ImplWeb a') self, rt')
  | Some (ImplNative a) =>
      let (a', rt') := CountlyProviderNative.setUserContext a properties rt in
      (set_impl (ImplNative a') self, rt')
  | None => (self, rt)
  end.

(** [this._impl?.getUserContext() ?? {}]. *)
Definition getUserContext (self : t) (rt : Runtime) : loc * Runtime :=
  match _impl self with
  | Some (ImplWeb a) => CountlyProviderWeb.getUserContext a rt
  | Some (ImplNative a) => CountlyProviderNative.getUserContext a rt
  | None => alloc ∅ rt
  end.

Definition clearUserContext (self : t) (rt : Runtime) : t * Runtime :=
  match _impl self with
  | Some (ImplWeb a) =>
      let (a', rt') := CountlyProviderWeb.clearUserContext a rt in
      (set_impl (ImplWeb a') self, rt')
  | Some (ImplNative a) =>
      let (a', rt') := CountlyProviderNative.clearUserContext a rt in
      (set_impl (ImplNative a') self, rt')
  | None => (self, rt)
  end.

(** The address of the adapter's stored context, when there is one. *)
Definition context_loc (self : t) : option loc :=
  match _impl self with
  | Some (ImplWeb a) => Some (CountlyProviderWeb.userContext a)
  | Some (ImplNative a) => Some (CountlyProviderNative.userContext a)
  | None => None
  end.

(** [this._impl?.identify(userId, properties)]. *)
Definition identify (faults : Faults) (self : t) (userId : JsValue)
    (properties : option Props) : list SdkRequest :=
  match _impl self with
  | Some (ImplWeb a) => CountlyProviderWeb.identify a userId properties
  | Some (ImplNative a) => CountlyProviderNative.identify faults a userId properties
  | None => []
  end.

Definition setUserProperties (faults : Faults) (self : t) (properties : option Props)
  : list SdkRequest :=
  match _impl self with
  | Some (ImplWeb a) => CountlyProviderWeb.setUserProperties a properties
  | Some (ImplNative a) => CountlyProviderNative.setUserProperties faults a properties
  | None => []
  end.

Definition reset (self : t) (rt : Runtime) : t * Runtime * list SdkRequest :=
  match _impl self with
  | Some (ImplWeb a) =>
      let (a', rt') := CountlyProviderWeb.reset a rt in
      (set_impl (ImplWeb a') self, rt', [])
  | Some (ImplNative a) =>
      let '(a', rt', requests) := CountlyProviderNative.reset a rt in
      (set_impl (ImplNative a') self, rt', requests)
  | None => (self, rt, [])
  end.

Definition startTimedEvent (self : t) (name : string) : list SdkRequest :=
  match _impl self with
  | Some (ImplWeb a) => CountlyProviderWeb.startTimedEvent a name
  | Some (ImplNative a) => CountlyProviderNative.startTimedEvent a name
  | None => []
  end.

Definition endTimedEvent (self : t) (name : string) (segments : option Props)
  : list SdkRequest :=
  match _impl self with
  | Some (ImplWeb a) => CountlyProviderWeb.endTimedEvent a name segments
  | Some (ImplNative a) => CountlyProviderNative.endTimedEvent a name segments
  | None => []
  end.

Definition trackError (faults : Faults) (self : t) (options : ErrorOptions)
  : list SdkRequest :=
  match _impl self with
  | Some (ImplWeb a) => CountlyProviderWeb.trackError faults a options
  | Some (ImplNative a) => CountlyProviderNative.trackError faults a options
  | None => []
  end.

End CountlyProvider.

(** ** [providers/PostHogProvider.js]: the platform proxy *)

Module PostHogProvider.

Inductive Impl :=
| ImplWeb (a : PostHogProviderWeb.t)
| ImplNative (a : PostHogProviderNative.t).

Record t := { _impl : option Impl; _debug : bool }.

Definition new : t := {| _impl := None; _debug := false |}.

Definition set_impl (i : Impl) (self : t) : t :=
  {| _impl := Some i; _debug := _debug self |}.

Definition init (env : Env) (self : t) (cfg : PostHogConfig) (rt : Runtime)
  : Result unit * t * Runtime :=
  let (platform, rt0) := Platform.getPlatform env rt in
  match import_adapter env PostHog platform with
  | Some e => (Throws e, self, rt0)
  | None =>
      match platform with
      | web =>
          let (a, rt1) := PostHogProviderWeb.new rt0 in
          let a1 := PostHogProviderWeb.setDebug (_debug self) a in
          let '(r, a2, rt2) := PostHogProviderWeb.init env a1 cfg rt1 in
          (r, set_impl (ImplWeb a2) self, rt2)
      | native =>
          let (a, rt1) := PostHogProviderNative.new rt0 in
          let a1 := PostHogProviderNative.setDebug (_debug self) a in
          let '(r, a2, rt2) := PostHogProviderNative.init env a1 cfg rt1 in
          (r, set_impl (ImplNative a2) self, rt2)
      end
  end.

Definition setDebug (enabled : bool) (self : t) : t :=
  {| _impl :=
       match _impl self with
       | Some (ImplWeb a) => Some (ImplWeb (PostHogProviderWeb.setDebug enabled a))
       | Some (ImplNative a) => Some (ImplNative (PostHogProviderNative.setDebug enabled a))
       | None => None
       end;
     _debug := enabled |}.

Definition isInitialized (self : t) : bool :=
  match _impl self with
  | Some (ImplWeb a) => PostHogProviderWeb.isInitialized a
  | Some (ImplNative a) => PostHogProviderNative.isInitialized a
  | None => false
  end.

Definition trackEvent (self : t) (name : string) (properties : option Props) (rt : Runtime)
  : Runtime :=
  match _impl self with
  | Some (ImplWeb a) => PostHogProviderWeb.trackEvent a name properties rt
  | Some (ImplNative a) => PostHogProviderNative.trackEvent a name properties rt
  | None => rt
  end.

Definition trackView (self : t) (viewName : string) (properties : option Props) (rt : Runtime)
  : Runtime :=
  match _impl self with
  | Some (ImplWeb a) => PostHogProviderWeb.trackView a viewName properties rt
  | Some (ImplNative a) => PostHogProviderNative.trackView a viewName properties rt
  | None => rt
  end.

(** [this._impl?.getFeatureFlag(key) ?? undefined]. *)
Definition getFeatureFlag (env : Env) (self : t) (key : string) : JsValue :=
  match _impl self with
  | Some (ImplWeb a) => nullish_or (PostHogProviderWeb.getFeatureFlag env a key) JsUndefined
  | Some (ImplNative a) => nullish_or (PostHogProviderNative.getFeatureFlag env a key) JsUndefined
  | None => JsUndefined
  end.

(** [this._impl?.isFeatureEnabled(key) ?? false]. *)
Definition isFeatureEnabled (env : Env) (self : t) (key : string) : JsValue :=
  match _impl self with
  | Some (ImplWeb a) => nullish_or (PostHogProviderWeb.isFeatureEnabled env a key) (JsBool false)
  | Some (ImplNative a) =>
      nullish_or (PostHogProviderNative.isFeatureEnabled env a key) (JsBool false)
  | None => JsBool false
  end.

(** [this._impl?.getAllFeatureFlags() ?? {}]. *)
Definition getAllFeatureFlags (env : Env) (self : t) : JsValue :=
  match _impl self with
  | Some (ImplWeb a) => nullish_or (PostHogProviderWeb.getAllFeatureFlags env a) (JsObject [])
  | Some (ImplNative a) =>
      nullish_or (PostHogProviderNative.getAllFeatureFlags env a) (JsObject [])
  | None => JsObject []
  end.

(** [onFeatureFlags(callback)]: the proxy method has no [return]. *)
Definition onFeatureFlags (env : Env) (self : t) (callback : Callback) (rt : Runtime)
  : Result unit * t * Runtime :=
  match _impl self with
  | Some (ImplWeb a) =>
      let '(r, a', rt') := PostHogProviderWeb.onFeatureFlags env a callback rt in
      (r, set_impl (ImplWeb a') self, rt')
  | Some (ImplNative a) =>
      let '(r, a', rt') := PostHogProviderNative.onFeatureFlags env a callback rt in
      (r, set_impl (ImplNative a') self, rt')
  | None => (Returns tt, self, rt)
  end.

Definition register (self : t) (properties : Props) (rt : Runtime) : t * Runtime :=
  match _impl self with
  | Some (ImplWeb a) =>
      let (a', rt') := PostHogProviderWeb.register a properties rt in
      (set_impl (ImplWeb a') self, rt')
  | Some (ImplNative a) =>
      let (a', rt') := PostHogProviderNative.register a properties rt in
      (set_impl (ImplNative a') self, rt')
  | None => (self, rt)
  end.

(** [this._impl?.getRegisteredProperties() ?? {}]. *)
Definition getRegisteredProperties (self : t) (rt : Runtime) : loc * Runtime :=
  match _impl self with
  | Some (ImplWeb a) => PostHogProviderWeb.getRegisteredProperties a rt
  | Some (ImplNative a) => PostHogProviderNative.getRegisteredProperties a rt
  | None => alloc ∅ rt
  end.

Definition unregister (self : t) (propertyName : string) (rt : Runtime) : Runtime :=
  match _impl self with
  | Some (ImplWeb a) => PostHogProviderWeb.unregister a propertyName rt
  | Some (ImplNative a) => PostHogProviderNative.unregister a propertyName rt
  | None => rt
  end.

(** The address of the adapter's stored super properties. *)
Definition registered_loc (self : t) : option loc :=
  match _impl self with
  | Some (ImplWeb a) => Some (PostHogProviderWeb.registeredProperties a)
  | Some (ImplNative a) => Some (PostHogProviderNative.registeredProperties a)
  | None => None
  end.

Definition identify (self : t) (userId : JsValue) (properties : option Props)
  : list SdkRequest :=
  match _impl self with
  | Some (ImplWeb a) => PostHogProviderWeb.identify a userId properties
  | Some (ImplNative a) => PostHogProviderNative.identify a userId properties
  | None => []
  end.

Definition reset (self : t) : list SdkRequest :=
  match _impl self with
  | Some (ImplWeb a) => PostHogProviderWeb.reset a
  | Some (ImplNative a) => PostHogProviderNative.reset a
  | None => []
  end.

(** [capture(eventName, properties)]:
    [this._impl?.capture?.(...) ?? this._impl?.trackEvent(...)].  The
    adapters' [capture] returns nothing, so the right-hand side of [??]
    is evaluated after it. *)
Definition capture (self : t) (eventName : string) (properties : option Props) (rt : Runtime)
  : Runtime :=
  match _impl self with
  | Some (ImplWeb a) =>
      let rt1 := PostHogProviderWeb.capture a eventName properties rt in
      PostHogProviderWeb.trackEvent a eventName properties rt1
  | Some (ImplNative a) =>
      let rt1 := PostHogProviderNative.capture a eventName properties rt in
      PostHogProviderNative.trackEvent a eventName properties rt1
  | None => rt
  end.

(** [screen(screenName, properties)]:
    [this._impl?.screen?.(...) ?? this._impl?.trackView(...)]. *)
Definition screen (self : t) (screenName : string) (properties : option Props) (rt : Runtime)
  : Runtime :=
  match _impl self with
  | Some (ImplWeb a) =>
      let rt1 := PostHogProviderWeb.screen a screenName properties rt in
      PostHogProviderWeb.trackView a screenName properties rt1
  | Some (ImplNative a) =>
      let rt1 := PostHogProviderNative.screen a screenName properties rt in
      PostHogProviderNative.trackView a screenName properties rt1
  | None => rt
  end.

Definition clearRegisteredProperties (faults : Faults) (self : t) (rt : Runtime)
  : t * Runtime :=
  match _impl self with
  | Some (ImplWeb a) =>
      let (a', rt') := PostHogProviderWeb.clearRegisteredProperties faults a rt in
      (set_impl (ImplWeb a') self, rt')
  | Some (ImplNative a) =>
      let (a', rt') := PostHogProviderNative.clearRegisteredProperties faults a rt in
      (set_impl (ImplNative a') self, rt')
  | None => (self, rt)
  end.

End PostHogProvider.

(** ** [UnifiedAnalytics.js]: the orchestrator *)

Module UnifiedAnalytics.

(** The fields of the singleton; the logger and the stored navigation
    ref are not part of the model. *)
Record t := {
  initialized : bool;
  config : option AnalyticsConfig;
  countlyProvider : option CountlyProvider.t;
  posthogProvider : option PostHogProvider.t;
  routeNameRef : option string;
  screenViewOverrides : gmap string string;
  _trackScreenViews : bool;
}.

(** The constructor. *)
Definition new : t :=
  {| initialized := false; config := None; countlyProvider := None;
     posthogProvider := None; routeNameRef := None; screenViewOverrides := ∅;
     _trackScreenViews := true |}.

(** The orchestrator together with everything it can reach. *)
Record World := { this : t; rt : Runtime }.

Definition initial_runtime : Runtime :=
  {| currentPlatform := None; heap := []; sdk := [] |}.

(** The state of a freshly loaded module: [UnifiedAnalytics.getInstance()]. *)
Definition initial : World := {| this := new; rt := initial_runtime |}.

Definition set_rt (r : Runtime) (w : World) : World := {| this := this w; rt := r |}.

Definition set_initialized (b : bool) (w : World) : World :=
  {| this :=
       {| initialized := b; config := config (this w);
          countlyProvider := countlyProvider (this w);
          posthogProvider := posthogProvider (this w);
          routeNameRef := routeNameRef (this w);
          screenViewOverrides := screenViewOverrides (this w);
          _trackScreenViews := _trackScreenViews (this w) |};
     rt := rt w |}.

Definition set_config (c : option AnalyticsConfig) (w : World) : World :=
  {| this :=
       {| initialized := initialized (this w); config := c;
          countlyProvider := countlyProvider (this w);
          posthogProvider := posthogProvider (this w);
          routeNameRef := routeNameRef (this w);
          screenViewOverrides := screenViewOverrides (this w);
          _trackScreenViews := _trackScreenViews (this w) |};
     rt := rt w |}.

Definition set_countlyProvider (p : option CountlyProvider.t) (w : World) : World :=
  {| this :=
       {| initialized := initialized (this w); config := config (this w);
          countlyProvider := p;
          posthogProvider := posthogProvider (this w);
          routeNameRef := routeNameRef (this w);
          screenViewOverrides := screenViewOverrides (this w);
          _trackScreenViews := _trackScreenViews (this w) |};
     rt := rt w |}.

Definition set_posthogProvider (p : option PostHogProvider.t) (w : World) : World :=
  {| this :=
       {| initialized := initialized (this w); config := config (this w);
          countlyProvider := countlyProvider (this w);
          posthogProvider := p;
          routeNameRef := routeNameRef (this w);
          screenViewOverrides := screenViewOverrides (this w);
          _trackScreenViews := _trackScreenViews (this w) |};
     rt := rt w |}.

Definition set_routeNameRef (r : option string) (w : World) : World :=
  {| this :=
       {| initialized := initialized (this w); config := config (this w);
          countlyProvider := countlyProvider (this w);
          posthogProvider := posthogProvider (this w);
          routeNameRef := r;
          screenViewOverrides := screenViewOverrides (this w);
          _trackScreenViews := _trackScreenViews (this w) |};
     rt := rt w |}.

Definition set_screenViewOverrides (m : gmap string string) (w : World) : World :=
  {| this :=
       {| initialized := initialized (this w); config := config (this w);
          countlyProvider := countlyProvider (this w);
          posthogProvider := posthogProvider (this w);
          routeNameRef := routeNameRef (this w);
          screenViewOverrides := m;
          _trackScreenViews := _trackScreenViews (this w) |};
     rt := rt w |}.

Definition set_trackScreenViews (b : bool) (w : World) : World :=
  {| this :=
       {| initialized := initialized (this w); config := config (this w);
          countlyProvider := countlyProvider (this w);
          posthogProvider := posthogProvider (this w);
          routeNameRef := routeNameRef (this w);
          screenViewOverrides := screenViewOverrides (this w);
          _trackScreenViews := b |};
     rt := rt w |}.

(** The Countly provider when [this.countlyProvider?.isInitialized()]
    holds. *)
Definition active_countly (w : World) : option CountlyProvider.t :=
  match countlyProvider (this w) with
  | Some p => if CountlyProvider.isInitialized p then Some p else None
  | None => None
  end.

(** The PostHog provider when [this.posthogProvider?.isInitialized()]
    holds. *)
Definition active_posthog (w : World) : option PostHogProvider.t :=
  match posthogProvider (this w) with
  | Some p => if PostHogProvider.isInitialized p then Some p else None
  | None => None
  end.

Definition countly_active (w : World) : bool := bool_decide (is_Some (active_countly w)).

Definition posthog_active (w : World) : bool := bool_decide (is_Some (active_posthog w)).

(** The error [init] throws on an invalid configuration. *)
Definition ConfigurationError (errors : list string) : Exception :=
  Error ("Invalid config: " ++ join ", " errors).

(** The [try]/[catch] around the Countly provider in [init]. *)
Definition init_countly (env : Env) (cfg : AnalyticsConfig) (c : CountlyConfig) (w : World)
  : World :=
  let p0 := CountlyProvider.setDebug (default false (debug cfg)) CountlyProvider.new in
  let '(r, p1, rt') := CountlyProvider.init env p0 c (rt w) in
  match r with
  | Returns _ => set_countlyProvider (Some p1) (set_rt rt' w)
  | Throws _ => set_countlyProvider None (set_rt rt' w)
  end.

(** The [try]/[catch] around the PostHog provider in [init]. *)
Definition init_posthog (env : Env) (cfg : AnalyticsConfig) (p : PostHogConfig) (w : World)
  : World :=
  let p0 := PostHogProvider.setDebug (default false (debug cfg)) PostHogProvider.new in
  let '(r, p1, rt') := PostHogProvider.init env p0 p (rt w) in
  match r with
  | Returns _ => set_posthogProvider (Some p1) (set_rt rt' w)
  | Throws _ => set_posthogProvider None (set_rt rt' w)
  end.

(** [init(config)]: the promise resolves ([Returns]) or rejects
    ([Throws]). *)
Definition init (env : Env) (cfg : AnalyticsConfig) (w : World) : Result unit * World :=
  if initialized (this w) then (Returns tt, w)
  else
    let validation := Helpers.validateConfig cfg in
    if negb (Helpers.valid validation)
    then (Throws (ConfigurationError (Helpers.errors validation)), w)
    else
      let w1 := set_config (Some cfg) w in
      let '(r, rt1) :=
        if truthy_string (platform cfg)
        then Platform.setPlatform (default "" (platform cfg)) (rt w1)
        else (Returns tt, rt w1) in
      match r with
      | Throws e => (Throws e, set_rt rt1 w1)
      | Returns _ =>
          let w2 :=
            set_trackScreenViews
              (negb (bool_decide (trackScreenViews cfg = Some false)))
              (set_rt rt1 w1) in
          let w3 :=
            match countly cfg with
            | Some c => init_countly env cfg c w2
            | None => w2
            end in
          let w4 :=
            match posthog cfg with
            | Some p => init_posthog env cfg p w3
            | None => w3
            end in
          (Returns tt, set_initialized true w4)
      end.

Definition isInitialized (w : World) : bool := initialized (this w).

(** [getEnabledProviders()]. *)
Definition getEnabledProviders (w : World) : list string :=
  let providers0 : list string := [] in
  let providers1 :=
    if countly_active w then (providers0 ++ ["countly"])%list else providers0 in
  if posthog_active w then (providers1 ++ ["posthog"])%list else providers1.

(** [hasProvider(name)]. *)
Definition hasProvider (name : string) (w : World) : bool :=
  if String.eqb name "countly" then countly_active w
  else if String.eqb name "posthog" then posthog_active w
  else false.

(** [trackEventToProviders(name, properties)]. *)
Definition trackEventToProviders (name : string) (properties : option Props) (w : World)
  : World :=
  let w1 :=
    match active_countly w with
    | Some p => set_rt (CountlyProvider.trackEvent p name properties (rt w)) w
    | None => w
    end in
  match active_posthog w1 with
  | Some p => set_rt (PostHogProvider.trackEvent p name properties (rt w1)) w1
  | None => w1
  end.

Definition trackEvent (name : string) (properties : option Props) (w : World) : World :=
  trackEventToProviders name properties w.

(** [trackView(viewName, properties)]. *)
Definition trackView (viewName : string) (properties : option Props) (w : World) : World :=
  if negb (_trackScreenViews (this w)) then w
  else
    let w1 :=
      match active_countly w with
      | Some p => set_rt (CountlyProvider.trackView p viewName properties (rt w)) w
      | None => w
      end in
    match active_posthog w1 with
    | Some p => set_rt (PostHogProvider.trackView p viewName properties (rt w1)) w1
    | None => w1
    end.

(** [setScreenViewOverride(screenName, customName)]. *)
Definition setScreenViewOverride (screenName customName : string) (w : World) : World :=
  set_screenViewOverrides (<[screenName := customName]> (screenViewOverrides (this w))) w.

(** [clearScreenViewOverride(screenName)]. *)
Definition clearScreenViewOverride (screenName : string) (w : World) : World :=
  set_screenViewOverrides (delete screenName (screenViewOverrides (this w))) w.

(** [setTrackScreenViews(enabled)]. *)
Definition setTrackScreenViews (enabled : bool) (w : World) : World :=
  set_trackScreenViews enabled w.

(** [setGlobalProperties(properties)]. *)
Definition setGlobalProperties (properties : Props) (w : World) : World :=
  let w1 :=
    match active_countly w with
    | Some p =>
        let (p', rt') := CountlyProvider.setUserContext p properties (rt w) in
        set_countlyProvider (Some p') (set_rt rt' w)
    | None => w
    end in
  match active_posthog w1 with
  | Some p =>
      let (p', rt') := PostHogProvider.register p properties (rt w1) in
      set_posthogProvider (Some p') (set_rt rt' w1)
  | None => w1
  end.

(** [getGlobalProperties()]: the address of the object handed to the
    caller. *)
Definition getGlobalProperties (w : World) : loc * World :=
  match active_countly w with
  | Some p =>
      let (l, rt') := CountlyProvider.getUserContext p (rt w) in (l, set_rt rt' w)
  | None =>
      match active_posthog w with
      | Some p =>
          let (l, rt') := PostHogProvider.getRegisteredProperties p (rt w) in
          (l, set_rt rt' w)
      | None =>
          let (l, rt') := alloc ∅ (rt w) in (l, set_rt rt' w)
      end
  end.

(** [removeGlobalProperty(key)]. *)
Definition removeGlobalProperty (key : string) (w : World) : World :=
  let w1 :=
    match active_countly w with
    | Some p =>
        let (current, rt1) := CountlyProvider.getUserContext p (rt w) in
        let rt2 := store current (delete key (deref rt1 current)) rt1 in
        let (p', rt3) := CountlyProvider.setUserContext p (deref rt2 current) rt2 in
        set_countlyProvider (Some p') (set_rt rt3 w)
    | None => w
    end in
  match active_posthog w1 with
  | Some p => set_rt (PostHogProvider.unregister p key (rt w1)) w1
  | None => w1
  end.

(** [getFeatureFlag(key)]: without an initialized PostHog provider the
    method reads [this.config.debug]; [config] is [null] until [init]
    has accepted a configuration. *)
Definition getFeatureFlag (env : Env) (key : string) (w : World) : Result JsValue :=
  match active_posthog w with
  | Some p => Returns (PostHogProvider.getFeatureFlag env p key)
  | None =>
      match config (this w) with
      | None => Throws (TypeError "Cannot read properties of null (reading 'debug')")
      | Some _ => Returns JsNull
      end
  end.

(** [isFeatureEnabled(key)]. *)
Definition isFeatureEnabled (env : Env) (key : string) (w : World) : Result JsValue :=
  match active_posthog w with
  | Some p => Returns (PostHogProvider.isFeatureEnabled env p key)
  | None => Returns (JsBool false)
  end.

(** [getAllFeatureFlags()]. *)
Definition getAllFeatureFlags (env : Env) (w : World) : Result JsValue :=
  match active_posthog w with
  | Some p => Returns (PostHogProvider.getAllFeatureFlags env p)
  | None => Returns (JsObject [])
  end.

(** [onFeatureFlagsChange(callback)]. *)
Definition onFeatureFlagsChange (env : Env) (callback : Callback) (w : World)
  : Result Unsubscribe * World :=
  match active_posthog w with
  | Some p =>
      let '(r, p', rt') := PostHogProvider.onFeatureFlags env p callback (rt w) in
      let w' := set_posthogProvider (Some p') (set_rt rt' w) in
      match r with
      | Returns _ => (Returns NoFunction, w')
      | Throws e => (Throws e, w')
      end
  | None => (Returns NoopFunction, w)
  end.

(** Calling the function [onFeatureFlagsChange] returned. *)
Definition call_unsubscribe (u : Unsubscribe) (w : World) : Result unit * World :=
  match u with
  | NoopFunction => (Returns tt, w)
  | NoFunction => (Throws (TypeError "unsubscribe is not a function"), w)
  end.

(** *** Navigation integration *)

(** The handlers of [createNavigationHandlers(navigationRef)]; the name
    of the current route, [navigationRef.current?.getCurrentRoute()?.name],
    is their argument ([None] when it is [undefined]). *)
Definition onReady (currentRoute : option string) (w : World) : World :=
  set_routeNameRef (if truthy_string currentRoute then currentRoute else None) w.

Definition onStateChange (currentRouteName : option string) (w : World) : World :=
  let previousRouteName := routeNameRef (this w) in
  let w1 :=
    if negb (bool_decide (previousRouteName = currentRouteName))
       && truthy_string currentRouteName
    then
      let name := default "" currentRouteName in
      let customName := screenViewOverrides (this w) !! name in
      if truthy_string customName then
        let w' := trackView (default "" customName) None w in
        set_screenViewOverrides (delete name (screenViewOverrides (this w'))) w'
      else trackView name None w
    else w in
  set_routeNameRef currentRouteName w1.

(** The closure of [createWebNavigationHandlers()]. *)
Record WebNavigationHandlers := { previousPath : option string }.

Definition createWebNavigationHandlers : WebNavigationHandlers :=
  {| previousPath := None |}.

Definition onRouteChange (url : string) (h : WebNavigationHandlers) (w : World)
  : WebNavigationHandlers * World :=
  if truthy_string (Some url) && negb (bool_decide (Some url = previousPath h)) then
    let customName := screenViewOverrides (this w) !! url in
    let w1 :=
      if truthy_string customName then
        let w' := trackView (default "" customName) None w in
        set_screenViewOverrides (delete url (screenViewOverrides (this w'))) w'
      else trackView url None w in
    ({| previousPath := Some url |}, w1)
  else (h, w).

(** *** Identity, global properties, timers and errors *)

(** [identify(userId, properties)]. *)
Definition identify (faults : Faults) (userId : JsValue) (properties : option Props)
    (w : World) : list SdkRequest :=
  let requests1 :=
    match active_countly w with
    | Some p => CountlyProvider.identify faults p userId properties
    | None => []
    end in
  let requests2 :=
    match active_posthog w with
    | Some p => PostHogProvider.identify p userId properties
    | None => []
    end in
  (requests1 ++ requests2)%list.

(** [reset()]. *)
Definition reset (w : World) : World * list SdkRequest :=
  let '(w1, requests1) :=
    match active_countly w with
    | Some p =>
        let '(p', rt', requests) := CountlyProvider.reset p (rt w) in
        (set_countlyProvider (Some p') (set_rt rt' w), requests)
    | None => (w, [])
    end in
  let requests2 :=
    match active_posthog w1 with
    | Some p => PostHogProvider.reset p
    | None => []
    end in
  (w1, (requests1 ++ requests2)%list).

(** [clearGlobalProperties()]. *)
Definition clearGlobalProperties (faults : Faults) (w : World) : World :=
  let w1 :=
    match active_countly w with
    | Some p =>
        let (p', rt') := CountlyProvider.clearUserContext p (rt w) in
        set_countlyProvider (Some p') (set_rt rt' w)
    | None => w
    end in
  match active_posthog w1 with
  | Some p =>
      let (p', rt') := PostHogProvider.clearRegisteredProperties faults p (rt w1) in
      set_posthogProvider (Some p') (set_rt rt' w1)
  | None => w1
  end.

(** The test [this.posthogProvider?.isInitialized() && this.config.debug]
    of the two timer methods: [this.config] is read only when the PostHog
    provider is initialized. *)
Definition posthog_debug_test (w : World) : Result unit :=
  match active_posthog w with
  | Some _ =>
      match config (this w) with
      | None => Throws (TypeError "Cannot read properties of null (reading 'debug')")
      | Some _ => Returns tt
      end
  | None => Returns tt
  end.

(** [startTimer(eventName)]. *)
Definition startTimer (eventName : string) (w : World) : Result unit * list SdkRequest :=
  let requests :=
    match active_countly w with
    | Some p => CountlyProvider.startTimedEvent p eventName
    | None => []
    end in
  (posthog_debug_test w, requests).

(** [endTimer(eventName, properties = {})]. *)
Definition endTimer (eventName : string) (properties : option Props) (w : World)
  : Result unit * list SdkRequest :=
  let requests :=
    match active_countly w with
    | Some p => CountlyProvider.endTimedEvent p eventName (Some (default ∅ properties))
    | None => []
    end in
  (posthog_debug_test w, requests).

(** The first argument of [trackError]: [null], [undefined], or a value
    seen through the four reads the method makes of it, [error.message],
    [error.name], [error.stack] and [String(error)]. *)
Record ErrorView := {
  error_message : JsValue;
  error_name : JsValue;
  error_stack : JsValue;
  error_String : string;
}.

Inductive ErrorArgument :=
| NullError
| UndefinedError
| GivenError (e : ErrorView).

(** The properties of the [$exception] event sent to PostHog. *)
Definition exception_properties (errorData metadata : Props) : Props :=
  spread
    {[ "$exception_message" := default JsUndefined (errorData !! "message");
       "$exception_type" := default JsUndefined (errorData !! "name");
       "$exception_stack_trace_raw" := default JsUndefined (errorData !! "stack") ]}
    metadata.

(** [trackError(error, metadata = {})]. *)
Definition trackError (faults : Faults) (error : ErrorArgument) (metadata : option Props)
    (w : World) : Result unit * World * list SdkRequest :=
  match error with
  | NullError =>
      (Throws (TypeError "Cannot read properties of null (reading 'message')"), w, [])
  | UndefinedError =>
      (Throws (TypeError "Cannot read properties of undefined (reading 'message')"), w, [])
  | GivenError e =>
      let metadata := default ∅ metadata in
      let errorData :=
        spread
          {[ "message" := or_else (error_message e) (JsString (error_String e));
             "name" := or_else (error_name e) (JsString "Error");
             "stack" := or_else (error_stack e) (JsString "") ]}
          metadata in
      let requests :=
        match active_countly w with
        | Some p =>
            CountlyProvider.trackError faults p
              {| opt_message := default JsUndefined (errorData !! "message");
                 opt_stack := default JsUndefined (errorData !! "stack");
                 opt_fatal :=
                   or_else (default JsUndefined (metadata !! "fatal")) (JsBool false);
                 opt_segments := Some metadata |}
        | None => []
        end in
      let w1 :=
        match active_posthog w with
        | Some p =>
            set_rt (PostHogProvider.capture p "$exception"
                      (Some (exception_properties errorData metadata)) (rt w)) w
        | None => w
        end in
      (Returns tt, w1, requests)
  end.

End UnifiedAnalytics.

(** * Vocabulary of the statements *)

(** What the loop of [stringifyProperties] does with one value. *)
Definition segment_of (value : JsValue) : option string :=
  if is_undefined value then None else Some (BaseProvider.safeString value).

(** The segmentation a Countly adapter with stored context [ctx] sends for
    event-local properties [p]. *)
Definition sent_segments (ctx : Props) (p : option Props) : Segments :=
  BaseProvider.stringifyProperties (Some (spread ctx (default ∅ p))).

(** The provider an SDK call goes to, by the name [getEnabledProviders]
    uses. *)
Definition receiver (c : SdkCall) : option string :=
  match c with
  | SdkInit Countly _ _ => Some "countly"
  | SdkInit PostHog _ _ => Some "posthog"
  | Countly_add_event _ _ | Countly_track_pageview _ _
  | Countly_recordEvent _ _ | Countly_recordView _ _ => Some "countly"
  | PostHog_capture _ _ | PostHog_screen _ _ | PostHog_register _
  | PostHog_unregister _ | PostHog_onFeatureFlags _ => Some "posthog"
  | Callback_call _ _ => None
  end.

(** The name under which an SDK call records a view; [None] for a call
    that is not a view. *)
Definition view_name (c : SdkCall) : option string :=
  match c with
  | Countly_track_pageview n _ | Countly_recordView n _ | PostHog_screen n _ => Some n
  | PostHog_capture ev props =>
      if String.eqb ev "$pageview" then
        match props !! "$current_url" with
        | Some (JsString n) => Some n
        | _ => None
        end
      else None
  | _ => None
  end.

(** A view call, whatever name it carries. *)
Definition is_view_call (c : SdkCall) : bool :=
  match c with
  | Countly_track_pageview _ _ | Countly_recordView _ _ | PostHog_screen _ _ => true
  | PostHog_capture ev _ => String.eqb ev "$pageview"
  | _ => false
  end.

(** The addresses of the two stores of global properties. *)
Definition countly_store (w : UnifiedAnalytics.World) : option loc :=
  UnifiedAnalytics.countlyProvider (UnifiedAnalytics.this w) ≫= CountlyProvider.context_loc.

Definition posthog_store (w : UnifiedAnalytics.World) : option loc :=
  UnifiedAnalytics.posthogProvider (UnifiedAnalytics.this w) ≫= PostHogProvider.registered_loc.

(** A configuration [validateConfig] must refuse: no provider block at
    all, or a block that lacks a required field. *)
Definition missing_required (cfg : AnalyticsConfig) : Prop :=
  (countly cfg = None /\ posthog cfg = None)
  \/ (exists c, countly cfg = Some c /\ (serverUrl c = None \/ appKey c = None))
  \/ (exists p, posthog cfg = Some p /\ apiKey p = None).

(** [w'] differs from [w] by the SDK calls [cs] and nothing else. *)
Definition only_emits (cs : list SdkCall) (w w' : UnifiedAnalytics.World) : Prop :=
  UnifiedAnalytics.this w' = UnifiedAnalytics.this w
  /\ currentPlatform (UnifiedAnalytics.rt w') = currentPlatform (UnifiedAnalytics.rt w)
  /\ heap (UnifiedAnalytics.rt w') = heap (UnifiedAnalytics.rt w)
  /\ sdk (UnifiedAnalytics.rt w') = (sdk (UnifiedAnalytics.rt w) ++ cs)%list.

(** [cs] is one view call to each enabled provider, in the order of
    [getEnabledProviders]. *)
Definition one_view_each (cs : list SdkCall) (w : UnifiedAnalytics.World) : Prop :=
  map receiver cs = map Some (UnifiedAnalytics.getEnabledProviders w)
  /\ Forall (fun c => is_view_call c = true) cs.

(** Every call in [cs] records a view under the name [n]. *)
Definition all_named (n : string) (cs : list SdkCall) : Prop :=
  Forall (fun c => view_name c = Some n) cs.

(** The application overwrites the object at [l]. *)
Definition app_write (l : loc) (contents : Props) (w : UnifiedAnalytics.World)
  : UnifiedAnalytics.World :=
  UnifiedAnalytics.set_rt (store l contents (UnifiedAnalytics.rt w)) w.

(** The name [getEnabledProviders] reports for a provider. *)
Definition provider_label (n : ProviderName) : string :=
  match n with Countly => "countly" | PostHog => "posthog" end.

(** The orchestrator holds no proxy for the provider. *)
Definition provider_absent (n : ProviderName) (w : UnifiedAnalytics.World) : Prop :=
  match n with
  | Countly => UnifiedAnalytics.countlyProvider (UnifiedAnalytics.this w) = None
  | PostHog => UnifiedAnalytics.posthogProvider (UnifiedAnalytics.this w) = None
  end.

(** The provider is among the enabled ones. *)
Definition provider_active (n : ProviderName) (w : UnifiedAnalytics.World) : bool :=
  match n with
  | Countly => UnifiedAnalytics.countly_active w
  | PostHog => UnifiedAnalytics.posthog_active w
  end.

(** How one provider fared in an [init] that emitted [evs] for it and
    ended in [w]: it made no SDK call; or its adapter's [init] threw and
    its proxy is gone; or its adapter's [init] returned and it is active. *)
Definition phase_outcome (n : ProviderName) (evs : list SdkCall)
    (w : UnifiedAnalytics.World) : Prop :=
  evs = []
  \/ (exists plat e, evs = [SdkInit n plat (Some e)] /\ provider_absent n w)
  \/ (exists plat, evs = [SdkInit n plat None] /\ provider_active n w = true).

(** What an [init] that emitted [evc] for Countly and [evp] for PostHog
    has done. *)
Definition init_report (cfg : AnalyticsConfig) (w : UnifiedAnalytics.World)
    (res : Result unit * UnifiedAnalytics.World)
    (evc evp : list SdkCall) : Prop :=
  sdk (UnifiedAnalytics.rt res.2) = (sdk (UnifiedAnalytics.rt w) ++ evc ++ evp)%list
  /\ phase_outcome Countly evc res.2
  /\ phase_outcome PostHog evp res.2
  /\ (evc <> [] -> is_Some (countly cfg))
  /\ (evp <> [] -> is_Some (posthog cfg))
  /\ ((evc ++ evp)%list <> [] ->
        res.1 = Returns tt /\ Helpers.valid (Helpers.validateConfig cfg) = true).

(** Going from [w] to [w1] tracked exactly one view under the name [n]
    with each enabled provider, and touched no stored object. *)
Definition tracked_view (n : string) (w w1 : UnifiedAnalytics.World) : Prop :=
  exists cs,
    sdk (UnifiedAnalytics.rt w1) = (sdk (UnifiedAnalytics.rt w) ++ cs)%list
    /\ heap (UnifiedAnalytics.rt w1) = heap (UnifiedAnalytics.rt w)
    /\ one_view_each cs w
    /\ all_named n cs.

(** The override entries of a world. *)
Definition overrides (w : UnifiedAnalytics.World) : gmap string string :=
  UnifiedAnalytics.screenViewOverrides (UnifiedAnalytics.this w).

(** ** Sessions: the application driving the facade *)

(** The calls an application makes.  [OpWrite] is the application writing
    to an object it was handed by [getGlobalProperties]. *)
Inductive Op :=
| OpInit (cfg : AnalyticsConfig)
| OpTrackEvent (name : string) (properties : option Props)
| OpTrackView (viewName : string) (properties : option Props)
| OpSetScreenViewOverride (screenName customName : string)
| OpClearScreenViewOverride (screenName : string)
| OpSetTrackScreenViews (enabled : bool)
| OpSetGlobalProperties (properties : Props)
| OpGetGlobalProperties
| OpRemoveGlobalProperty (key : string)
| OpOnFeatureFlagsChange (callback : Callback)
| OpOnReady (currentRoute : option string)
| OpOnStateChange (currentRoute : option string)
| OpOnRouteChange (h : UnifiedAnalytics.WebNavigationHandlers) (url : string)
| OpWrite (l : loc) (contents : Props).

Record Session := {
  world : UnifiedAnalytics.World;
  handed : list loc;
}.

Definition session_start : Session :=
  {| world := UnifiedAnalytics.initial; handed := [] |}.

Definition step (env : Env) (op : Op) (s : Session) : Session :=
  let w := world s in
  match op with
  | OpInit cfg => {| world := (UnifiedAnalytics.init env cfg w).2; handed := handed s |}
  | OpTrackEvent n p => {| world := UnifiedAnalytics.trackEvent n p w; handed := handed s |}
  | OpTrackView n p => {| world := UnifiedAnalytics.trackView n p w; handed := handed s |}
  | OpSetScreenViewOverride a b =>
      {| world := UnifiedAnalytics.setScreenViewOverride a b w; handed := handed s |}
  | OpClearScreenViewOverride a =>
      {| world := UnifiedAnalytics.clearScreenViewOverride a w; handed := handed s |}
  | OpSetTrackScreenViews b =>
      {| world := UnifiedAnalytics.setTrackScreenViews b w; handed := handed s |}
  | OpSetGlobalProperties p =>
      {| world := UnifiedAnalytics.setGlobalProperties p w; handed := handed s |}
  | OpGetGlobalProperties =>
      let (l, w') := UnifiedAnalytics.getGlobalProperties w in
      {| world := w'; handed := l :: handed s |}
  | OpRemoveGlobalProperty k =>
      {| world := UnifiedAnalytics.removeGlobalProperty k w; handed := handed s |}
  | OpOnFeatureFlagsChange cb =>
      {| world := (UnifiedAnalytics.onFeatureFlagsChange env cb w).2; handed := handed s |}
  | OpOnReady r => {| world := UnifiedAnalytics.onReady r w; handed := handed s |}
  | OpOnStateChange r => {| world := UnifiedAnalytics.onStateChange r w; handed := handed s |}
  | OpOnRouteChange h url =>
      {| world := (UnifiedAnalytics.onRouteChange url h w).2; handed := handed s |}
  | OpWrite l o =>
      if bool_decide (l ∈ handed s)
      then {| world := app_write l o w; handed := handed s |}
      else s
  end.

(** The sessions an application can bring about, whatever the SDKs do. *)
Inductive reachable : Session -> Prop :=
| reachable_start : reachable session_start
| reachable_step env op s : reachable s -> reachable (step env op s).




(** The stores are allocated objects, and no object handed to the
    application is one of them. *)
Definition heap_ok (s : Session) : Prop :=
  let n := length (heap (UnifiedAnalytics.rt (world s))) in
  (forall l, countly_store (world s) = Some l -> l < n)
  /\ (forall l, posthog_store (world s) = Some l -> l < n)
  /\ (forall l, l ∈ handed s ->
        l < n /\ countly_store (world s) <> Some l /\ posthog_store (world s) <> Some l).

(** Between heap sizes [n] and [n'] a store is where it was, or at an
    address allocated in between. *)
Definition moved (n n' : nat) (old new : option loc) : Prop :=
  forall l, new = Some l -> old = Some l \/ (n <= l /\ l < n').

(** One world extends another: the heap has not shrunk, and each store is
    where it was or at an address allocated since. *)
Definition extends (w w' : UnifiedAnalytics.World) : Prop :=
  let n := length (heap (UnifiedAnalytics.rt w)) in
  let n' := length (heap (UnifiedAnalytics.rt w')) in
  n <= n'
  /\ moved n n' (countly_store w) (countly_store w')
  /\ moved n n' (posthog_store w) (posthog_store w').

(** The contents of the store [getGlobalProperties] reads: Countly's when
    Countly is active, else PostHog's when PostHog is, else nothing. *)
Definition global_properties (w : UnifiedAnalytics.World) : Props :=
  match UnifiedAnalytics.active_countly w with
  | Some p =>
      default ∅ (deref (UnifiedAnalytics.rt w) <$> CountlyProvider.context_loc p)
  | None =>
      match UnifiedAnalytics.active_posthog w with
      | Some p =>
          default ∅ (deref (UnifiedAnalytics.rt w) <$> PostHogProvider.registered_loc p)
      | None => ∅
      end
  end.

(** ** Sessions over the whole facade *)

(** The calls that can change what the facade holds: those of [Op], and
    [reset], [clearGlobalProperties] and [trackError]. *)
Inductive Call :=
| CallOp (op : Op)
| CallReset
| CallClearGlobalProperties
| CallTrackError (error : UnifiedAnalytics.ErrorArgument) (metadata : option Props).

Definition perform (env : Env) (faults : Faults) (c : Call) (s : Session) : Session :=
  match c with
  | CallOp op => step env op s
  | CallReset =>
      {| world := (UnifiedAnalytics.reset (world s)).1; handed := handed s |}
  | CallClearGlobalProperties =>
      {| world := UnifiedAnalytics.clearGlobalProperties faults (world s);
         handed := handed s |}
  | CallTrackError error metadata =>
      {| world := (UnifiedAnalytics.trackError faults error metadata (world s)).1.2;
         handed := handed s |}
  end.

(** The sessions an application can bring about with these calls,
    whatever the SDKs do. *)
Inductive attainable : Session -> Prop :=
| attainable_start : attainable session_start
| attainable_perform env faults c s : attainable s -> attainable (perform env faults c s).

(** No provider of the world is active. *)
Definition no_provider (w : UnifiedAnalytics.World) : Prop :=
  UnifiedAnalytics.active_countly w = None /\ UnifiedAnalytics.active_posthog w = None.

(** The calls of [cs] that go to PostHog. *)
Definition to_posthog (cs : list SdkCall) : list SdkCall :=
  filter (fun c => receiver c = Some "posthog") cs.

(** What [deepMerge] leaves under a key that holds [targetValue] in the
    target and [sourceValue] in the source ([undefined] standing for a key
    the object does not have): two plain objects are merged, and what
    that merge throws is thrown; an [undefined] of the source changes
    nothing; any other source value replaces what the target had. *)
Definition merged_value (sourceValue targetValue : JsValue) : Result JsValue :=
  match sourceValue, targetValue with
  | JsObject sourceFields, JsObject targetFields =>
      match Helpers.deepMerge targetFields sourceFields with
      | Returns merged => Returns (JsObject merged)
      | Throws e => Throws e
      end
  | JsUndefined, _ => Returns targetValue
  | _, _ => Returns sourceValue
  end.

(** The platform [getPlatform] answers in a runtime: the one set or
    detected earlier, else the one detected now. *)
Definition resolved_platform (env : Env) (rt : Runtime) : PlatformName :=
  match currentPlatform rt with
  | Some p => p
  | None => autoDetectPlatform env
  end.

(** The platform the adapters of an [init(config)] run on: the one the
    configuration names, else the resolved one. *)
Definition init_platform (env : Env) (cfg : AnalyticsConfig) (rt : Runtime) : PlatformName :=
  match platform cfg ≫= Platform.parse with
  | Some p => p
  | None => resolved_platform env rt
  end.

(** The calls made between two worlds. *)
Definition calls_between (w w' : UnifiedAnalytics.World) : list SdkCall :=
  drop (length (sdk (UnifiedAnalytics.rt w))) (sdk (UnifiedAnalytics.rt w')).

(** The name and segmentation of an event recorded with Countly; [None]
    for any other call. *)
Definition countly_event (c : SdkCall) : option (string * Segments) :=
  match c with
  | Countly_add_event key segmentation => Some (key, segmentation)
  | Countly_recordEvent name segments => Some (name, segments)
  | _ => None
  end.

(** The contents of the Countly user context and of the PostHog mirror
    of the registered properties (empty when the provider has no
    adapter). *)
Definition countly_context (w : UnifiedAnalytics.World) : Props :=
  default ∅ (deref (UnifiedAnalytics.rt w) <$> countly_store w).

Definition posthog_registered (w : UnifiedAnalytics.World) : Props :=
  default ∅ (deref (UnifiedAnalytics.rt w) <$> posthog_store w).

(** The configuration is known wherever the facade may read it: whenever
    it holds a proxy, and whenever [init] has resolved. *)
Definition config_known (w : UnifiedAnalytics.World) : Prop :=
  is_Some (UnifiedAnalytics.countlyProvider (UnifiedAnalytics.this w))
  \/ is_Some (UnifiedAnalytics.posthogProvider (UnifiedAnalytics.this w))
  \/ UnifiedAnalytics.initialized (UnifiedAnalytics.this w) = true ->
  is_Some (UnifiedAnalytics.config (UnifiedAnalytics.this w)).

(** Two worlds with the same configuration, the same initialized flag,
    and proxies for the same providers. *)
Definition same_setup (w w' : UnifiedAnalytics.World) : Prop :=
  UnifiedAnalytics.config (UnifiedAnalytics.this w')
    = UnifiedAnalytics.config (UnifiedAnalytics.this w)
  /\ UnifiedAnalytics.initialized (UnifiedAnalytics.this w')
     = UnifiedAnalytics.initialized (UnifiedAnalytics.this w)
  /\ (is_Some (UnifiedAnalytics.countlyProvider (UnifiedAnalytics.this w'))
      <-> is_Some (UnifiedAnalytics.countlyProvider (UnifiedAnalytics.this w)))
  /\ (is_Some (UnifiedAnalytics.posthogProvider (UnifiedAnalytics.this w'))
      <-> is_Some (UnifiedAnalytics.posthogProvider (UnifiedAnalytics.this w))).

(** The name of a timed event a request starts, and the name and
    segmentation of one it ends; [None] for any other request. *)
Definition timer_started (r : SdkRequest) : option string :=
  match r with
  | Countly_start_event name | Countly_events_startEvent name => Some name
  | _ => None
  end.

Definition timer_ended (r : SdkRequest) : option (string * Segments) :=
  match r with
  | Countly_end_event key segmentation => Some (key, segmentation)
  | Countly_events_endEvent name segments => Some (name, segments)
  | _ => None
  end.

(** The platform of the adapter behind the enabled Countly provider. *)
Definition countly_platform (w : UnifiedAnalytics.World) : option PlatformName :=
  match UnifiedAnalytics.active_countly w ≫= CountlyProvider._impl with
  | Some (CountlyProvider.ImplWeb _) => Some web
  | Some (CountlyProvider.ImplNative _) => Some native
  | None => None
  end.

(** What [trackError] reports for an error seen as [e] with metadata
    [md]: the fields of its [errorData], in which the metadata come
    last and so win. *)
Definition reported_message (e : UnifiedAnalytics.ErrorView) (md : Props) : JsValue :=
  match md !! "message" with
  | Some v => v
  | None =>
      or_else (UnifiedAnalytics.error_message e) (JsString (UnifiedAnalytics.error_String e))
  end.

Definition reported_name (e : UnifiedAnalytics.ErrorView) (md : Props) : JsValue :=
  match md !! "name" with
  | Some v => v
  | None => or_else (UnifiedAnalytics.error_name e) (JsString "Error")
  end.

Definition reported_stack (e : UnifiedAnalytics.ErrorView) (md : Props) : JsValue :=
  match md !! "stack" with
  | Some v => v
  | None => or_else (UnifiedAnalytics.error_stack e) (JsString "")
  end.

(** The two requests of the Countly adapters' [trackError], by
    platform. *)
Definition crash_log (plat : PlatformName) (message : JsValue) : SdkRequest :=
  match plat with
  | web => Countly_add_log message
  | native => Countly_addCrashLog message
  end.

Definition error_report (plat : PlatformName) (error : JsValue) (nonfatal : bool)
    (segments : Segments) : SdkRequest :=
  match plat with
  | web => Countly_log_error error nonfatal segments
  | native => Countly_logException error nonfatal segments
  end.

(** ** Concrete scenarios *)

Module Scenario.

(** An environment in which nothing fails. *)
Definition calm : Env :=
  {| autoDetectPlatform := web;
     import_adapter := fun _ _ => None;
     sdk_init := fun _ _ => None;
     sdk_getFeatureFlag := fun _ => Returns JsUndefined;
     sdk_isFeatureEnabled := fun _ => Returns JsUndefined;
     sdk_getFeatureFlags := Returns (JsObject []);
     sdk_onFeatureFlags := fun _ => None;
     callback_call := fun _ _ => None |}.

(** Fault injection: the Countly SDK fails to start. *)
Definition countly_down : Env :=
  {| autoDetectPlatform := web;
     import_adapter := fun _ _ => None;
     sdk_init := fun p _ =>
       match p with Countly => Some (Error "countly unreachable") | PostHog => None end;
     sdk_getFeatureFlag := fun _ => Returns JsUndefined;
     sdk_isFeatureEnabled := fun _ => Returns JsUndefined;
     sdk_getFeatureFlags := Returns (JsObject []);
     sdk_onFeatureFlags := fun _ => None;
     callback_call := fun _ _ => None |}.

Definition countly_block : CountlyConfig :=
  {| serverUrl := Some "https://countly.example"; appKey := Some "app-key";
     countly_debug := None |}.

Definition posthog_block : PostHogConfig :=
  {| apiKey := Some "phc_key"; host := None; posthog_debug := None |}.

Definition countly_only : AnalyticsConfig :=
  {| platform := None; debug := None; trackScreenViews := None;
     countly := Some countly_block; posthog := None |}.

Definition posthog_only : AnalyticsConfig :=
  {| platform := None; debug := None; trackScreenViews := None;
     countly := None; posthog := Some posthog_block |}.

Definition both : AnalyticsConfig :=
  {| platform := Some "web"; debug := None; trackScreenViews := None;
     countly := Some countly_block; posthog := Some posthog_block |}.

Definition empty_config : AnalyticsConfig :=
  {| platform := None; debug := None; trackScreenViews := None;
     countly := None; posthog := None |}.

(** The world after a successful [init] with only Countly configured. *)
Definition with_countly : UnifiedAnalytics.World :=
  (UnifiedAnalytics.init calm countly_only UnifiedAnalytics.initial).2.

(** The world after a successful [init] with only PostHog configured. *)
Definition with_posthog : UnifiedAnalytics.World :=
  (UnifiedAnalytics.init calm posthog_only UnifiedAnalytics.initial).2.

(** The world after a successful [init] with both configured. *)
Definition with_both : UnifiedAnalytics.World :=
  (UnifiedAnalytics.init calm both UnifiedAnalytics.initial).2.

(** A Countly web adapter that is initialized, with its context at
    address 0, a native one with its context at address 1, and a runtime
    in which both contexts hold a [plan]. *)
Definition web_adapter : CountlyProviderWeb.t :=
  {| CountlyProviderWeb.initialized := true; CountlyProviderWeb.debug := false;
     CountlyProviderWeb.config := Some countly_block;
     CountlyProviderWeb.userContext := 0 |}.

Definition native_adapter : CountlyProviderNative.t :=
  {| CountlyProviderNative.initialized := true; CountlyProviderNative.debug := false;
     CountlyProviderNative.config := Some countly_block;
     CountlyProviderNative.userContext := 1 |}.

Definition two_contexts : Runtime :=
  {| currentPlatform := Some web;
     heap := [ {[ "plan" := JsString "pro"; "seats" := JsNumber 5 ]};
               {[ "plan" := JsString "free" ]} ];
     sdk := [] |}.

(** A session: Countly initialized, then one global property set. *)
Definition with_plan : Session :=
  step calm (OpSetGlobalProperties {[ "plan" := JsString "pro" ]})
    (step calm (OpInit countly_only) session_start).

(** Both providers active and an override registered for [Login]. *)
Definition login_overridden : UnifiedAnalytics.World :=
  UnifiedAnalytics.setScreenViewOverride "Login" "Login-Custom" with_both.

(** SDKs that answer every request. *)
Definition sound : Faults :=
  {| request_throws := fun _ => false; unregister_throws := fun _ => false |}.

(** Fault injection: no SDK starts, on either platform. *)
Definition all_down : Env :=
  {| autoDetectPlatform := native;
     import_adapter := fun _ _ => None;
     sdk_init := fun _ _ => Some (Error "offline");
     sdk_getFeatureFlag := fun _ => Returns JsUndefined;
     sdk_isFeatureEnabled := fun _ => Returns JsUndefined;
     sdk_getFeatureFlags := Returns (JsObject []);
     sdk_onFeatureFlags := fun _ => None;
     callback_call := fun _ _ => None |}.

(** Both providers, on the platform named by the configuration. *)
Definition both_native : AnalyticsConfig :=
  {| platform := Some "native"; debug := None; trackScreenViews := None;
     countly := Some countly_block; posthog := Some posthog_block |}.

(** A platform name that [setPlatform] refuses. *)
Definition both_on_ios : AnalyticsConfig :=
  {| platform := Some "ios"; debug := None; trackScreenViews := None;
     countly := Some countly_block; posthog := Some posthog_block |}.

(** Fault injection: the PostHog client throws when asked to unregister
    [plan]. *)
Definition unregister_fails : Faults :=
  {| request_throws := fun _ => false;
     unregister_throws := fun key => String.eqb key "plan" |}.

(** Sessions with one global property set: PostHog alone, and both
    providers. *)
Definition posthog_plan : Session :=
  step calm (OpSetGlobalProperties {[ "plan" := JsString "pro" ]})
    (step calm (OpInit posthog_only) session_start).

Definition both_plan : Session :=
  step calm (OpSetGlobalProperties {[ "plan" := JsString "pro" ]})
    (step calm (OpInit both) session_start).

(** The world after a successful [init] with both providers on the
    native platform. *)
Definition with_both_native : UnifiedAnalytics.World :=
  (UnifiedAnalytics.init calm both_native UnifiedAnalytics.initial).2.

End Scenario.

(** * Properties *)

(** Case analysis on every [match] in sight, and arithmetic on heap sizes. *)
Ltac break := repeat (cbn in *; simplify_eq; try case_match).

Ltac heap_arith :=
  cbn; repeat (rewrite length_insert || rewrite length_app); cbn; try lia.

(** Case analysis on the providers of a world, down to their flags. *)
Ltac destruct_world w :=
  let cp := fresh "cp" in
  let pp := fresh "pp" in
  destruct w as [[? ? cp pp ? ? ?] [? ? ?]];
  destruct cp as [[[[[[] ? ? ?]|[[] ? ? ?]]|] ?]|];
  destruct pp as [[[[[[] ? ? ? ? ?]|[[] ? ? ? ? ?]]|] ?]|].


(** ** The heap and the trace *)

Section RuntimeFacts.

Implicit Types (rt : Runtime) (o : Props) (l : loc) (c : SdkCall).

Lemma alloc_loc o rt : (alloc o rt).1 = length (heap rt).
Proof. reflexivity. Qed.

Lemma alloc_sdk o rt : sdk (alloc o rt).2 = sdk rt.
Proof. reflexivity. Qed.

Lemma alloc_length o rt : length (heap (alloc o rt).2) = S (length (heap rt)).
Proof. cbn. rewrite length_app. cbn. lia. Qed.

Lemma deref_alloc_new o rt : deref (alloc o rt).2 (length (heap rt)) = o.
Proof.
  unfold deref. cbn. rewrite lookup_app_r by lia.
  by rewrite Nat.sub_diag.
Qed.

Lemma deref_alloc_old o rt l :
  l < length (heap rt) -> deref (alloc o rt).2 l = deref rt l.
Proof. intros Hl. unfold deref. cbn. by rewrite lookup_app_l. Qed.

Lemma deref_emit c rt l : deref (emit c rt) l = deref rt l.
Proof. reflexivity. Qed.

Lemma deref_store_eq o rt l :
  l < length (heap rt) -> deref (store l o rt) l = o.
Proof. intros Hl. unfold deref. cbn. by rewrite list_lookup_insert_eq. Qed.

Lemma deref_store_ne o rt l l' : l <> l' -> deref (store l o rt) l' = deref rt l'.
Proof. intros Hne. unfold deref. cbn. by rewrite list_lookup_insert_ne. Qed.

Lemma store_length o rt l : length (heap (store l o rt)) = length (heap rt).
Proof. cbn. apply length_insert. Qed.

Lemma spread_empty_r (a : Props) : spread a ∅ = a.
Proof. unfold spread. apply (left_id_L ∅ (∪)). Qed.

Lemma lookup_spread (a b : Props) (k : string) :
  spread a b !! k = match b !! k with Some v => Some v | None => a !! k end.
Proof. unfold spread. rewrite lookup_union. by destruct (b !! k), (a !! k). Qed.

End RuntimeFacts.

(** ** Segmentation stringification *)

Section Stringify.

Import BaseProvider.

Lemma stringifyProperties_lookup (props : Props) (k : string) :
  stringifyProperties (Some props) !! k = props !! k ≫= segment_of.
Proof.
  unfold stringifyProperties.
  apply (map_fold_weak_ind
           (fun (result : Segments) (m : Props) => result !! k = m !! k ≫= segment_of)).
  - by rewrite !lookup_empty.
  - intros i x m r Hi IH.
    destruct (decide (i = k)) as [->|Hne].
    + rewrite lookup_insert_eq. cbn. unfold segment_of.
      destruct (is_undefined x); cbn.
      * rewrite IH, Hi. reflexivity.
      * by rewrite lookup_insert_eq.
    + rewrite (lookup_insert_ne m) by done.
      destruct (negb (is_undefined x)); [by rewrite lookup_insert_ne|done].
Qed.

Lemma stringifyProperties_falsy : stringifyProperties None = ∅.
Proof. reflexivity. Qed.

End Stringify.

(** C7, as amended.  Passing a properties mapping through
    [stringifyProperties] treats each key on its own: a key whose value is
    [undefined] is left out of the result; [null] becomes the empty string;
    an object or array becomes its JSON serialization; any other value
    becomes its string conversion.  No other key appears. *)
Theorem stringifyProperties_values (props : Props) (k : string) :
  BaseProvider.stringifyProperties (Some props) !! k =
    match props !! k with
    | None => None
    | Some JsUndefined => None
    | Some JsNull => Some EmptyString
    | Some (JsArray items) => Some (Builtins.JSON_stringify (JsArray items))
    | Some (JsObject fields) => Some (Builtins.JSON_stringify (JsObject fields))
    | Some v => Some (Builtins.String_ v)
    end.
Proof.
  rewrite stringifyProperties_lookup.
  destruct (props !! k) as [[]|]; reflexivity.
Qed.

(** C7 as stated fails on [undefined]: the key is not kept with an empty
    string, it is dropped. *)
Lemma stringifyProperties_undefined_dropped :
  BaseProvider.stringifyProperties (Some {[ "k" := JsUndefined ]}) !! "k" = None
  /\ BaseProvider.stringifyProperties (Some {[ "k" := JsUndefined ]}) !! "k" <> Some EmptyString.
Proof. split; [vm_compute; reflexivity | vm_compute; discriminate]. Qed.

(** ** Merging the stored user context into outgoing properties *)

Lemma sent_segments_lookup (ctx : Props) (p : option Props) (k : string) :
  sent_segments ctx p !! k =
    match default ∅ p !! k with
    | Some v => segment_of v
    | None => ctx !! k ≫= segment_of
    end.
Proof.
  unfold sent_segments. rewrite stringifyProperties_lookup, lookup_spread.
  by destruct (default ∅ p !! k).
Qed.

(** C5, as amended.  An initialized Countly adapter (web or native) whose
    stored user context is [ctx] sends, with [trackEvent] and with
    [trackView], the stringification of the merge of [ctx] and the
    event-local properties [p]: on every key of [p] the event-local value
    decides what is sent, whatever [ctx] holds for it; a key present only
    in [ctx] is sent with its stored value stringified, unless that value
    is [undefined], in which case the key is left out. *)
Theorem countly_sent_properties
    (aw : CountlyProviderWeb.t) (an : CountlyProviderNative.t)
    (name : string) (p : option Props) (rt : Runtime) :
  CountlyProviderWeb.initialized aw = true ->
  CountlyProviderNative.initialized an = true ->
  let ctxw := deref rt (CountlyProviderWeb.userContext aw) in
  let ctxn := deref rt (CountlyProviderNative.userContext an) in
  (CountlyProviderWeb.trackEvent aw name p rt
     = emit (Countly_add_event name (sent_segments ctxw p)) rt
   /\ CountlyProviderWeb.trackView aw name p rt
     = emit (Countly_track_pageview name (sent_segments ctxw p)) rt
   /\ CountlyProviderNative.trackEvent an name p rt
     = emit (Countly_recordEvent name (sent_segments ctxn p)) rt
   /\ CountlyProviderNative.trackView an name p rt
     = emit (Countly_recordView name (sent_segments ctxn p)) rt)
  /\ forall (ctx : Props) (k : string),
       sent_segments ctx p !! k =
         match default ∅ p !! k with
         | Some v => segment_of v
         | None => ctx !! k ≫= segment_of
         end.
Proof.
  intros Hw Hn ctxw ctxn. split.
  - unfold CountlyProviderWeb.trackEvent, CountlyProviderWeb.trackView,
      CountlyProviderNative.trackEvent, CountlyProviderNative.trackView,
      CountlyProviderWeb.ensureInitialized, CountlyProviderNative.ensureInitialized.
    rewrite Hw, Hn. cbn. repeat split; reflexivity.
  - intros ctx k. apply sent_segments_lookup.
Qed.

Lemma countly_sent_properties_witness :
  CountlyProviderWeb.initialized Scenario.web_adapter = true
  /\ CountlyProviderNative.initialized Scenario.native_adapter = true
  /\ CountlyProviderWeb.trackEvent Scenario.web_adapter "upgrade"
       (Some {[ "plan" := JsString "trial" ]}) Scenario.two_contexts
     = emit (Countly_add_event "upgrade" {[ "plan" := "trial"; "seats" := "5" ]})
         Scenario.two_contexts.
Proof.
  split; [reflexivity|]. split; [reflexivity|].
  destruct (countly_sent_properties Scenario.web_adapter Scenario.native_adapter
              "upgrade" (Some {[ "plan" := JsString "trial" ]}) Scenario.two_contexts
              eq_refl eq_refl) as [(Hweb & _) _].
  rewrite Hweb. vm_compute. reflexivity.
Defined.

(** ** Configuration validation *)

Section Validation.

Import Helpers.

Lemma push_not_nil (errors : list string) (message : string) : push errors message <> [].
Proof. unfold push. destruct errors; discriminate. Qed.

Lemma valid_false_of_errors (cfg : AnalyticsConfig) :
  errors (validateConfig cfg) <> [] -> valid (validateConfig cfg) = false.
Proof.
  unfold validateConfig. cbn.
  match goal with |- ?e <> [] -> Nat.eqb (length ?e) 0 = false =>
    destruct e; [congruence | reflexivity] end.
Qed.

Lemma validateConfig_missing (cfg : AnalyticsConfig) :
  missing_required cfg -> errors (validateConfig cfg) <> [].
Proof.
  intros [[Hc Hp] | [(c & Hc & Hf) | (p & Hp & Hf)]];
    unfold validateConfig; cbn.
  - rewrite Hc, Hp. discriminate.
  - rewrite Hc. cbn.
    destruct Hf as [-> | ->]; cbn.
    + destruct (truthy_string (appKey c)); cbn;
        destruct (posthog cfg) as [p|]; cbn;
        try destruct (truthy_string (apiKey p)); cbn; discriminate.
    + destruct (truthy_string (serverUrl c)); cbn;
        destruct (posthog cfg) as [p|]; cbn;
        try destruct (truthy_string (apiKey p)); cbn; discriminate.
  - rewrite Hp, Hf. cbn.
    destruct (countly cfg) as [c|]; cbn;
      try destruct (truthy_string (serverUrl c)); cbn;
      try destruct (truthy_string (appKey c)); cbn; discriminate.
Qed.

End Validation.

(** C2.  A first [init] with a configuration that has no provider block,
    or whose Countly block lacks [serverUrl] or [appKey], or whose PostHog
    block lacks [apiKey], rejects with the configuration error listing at
    least one complaint, and the world it leaves is the world it found: no
    proxy constructed, no platform set, no object allocated, no SDK
    called. *)
Theorem init_rejects_invalid_config (env : Env) (cfg : AnalyticsConfig)
    (w : UnifiedAnalytics.World) :
  UnifiedAnalytics.initialized (UnifiedAnalytics.this w) = false ->
  missing_required cfg ->
  UnifiedAnalytics.init env cfg w
    = (Throws (UnifiedAnalytics.ConfigurationError (Helpers.errors (Helpers.validateConfig cfg))),
       w)
  /\ Helpers.errors (Helpers.validateConfig cfg) <> [].
Proof.
  intros Hfirst Hbad.
  pose proof (validateConfig_missing cfg Hbad) as Herr.
  split; [|exact Herr].
  unfold UnifiedAnalytics.init. rewrite Hfirst.
  by rewrite (valid_false_of_errors cfg Herr).
Qed.

Lemma init_rejects_invalid_config_witness :
  UnifiedAnalytics.init Scenario.calm Scenario.empty_config UnifiedAnalytics.initial
    = (Throws (UnifiedAnalytics.ConfigurationError
                 (Helpers.errors (Helpers.validateConfig Scenario.empty_config))),
       UnifiedAnalytics.initial)
  /\ Helpers.errors (Helpers.validateConfig Scenario.empty_config) <> [].
Proof.
  apply (init_rejects_invalid_config Scenario.calm Scenario.empty_config
           UnifiedAnalytics.initial).
  - reflexivity.
  - left. split; reflexivity.
Defined.

(** ** Failure isolation in [init] *)

Section InitIsolation.

Import UnifiedAnalytics.

(** What one provider's [try]/[catch] in [init] can do: nothing reaches
    the SDK (the adapter module failed to load) and the proxy is dropped;
    the adapter's [init] threw and the proxy is dropped; or the adapter's
    [init] returned and the provider is active. *)
Lemma init_countly_spec env cfg c w :
  let w' := init_countly env cfg c w in
  posthogProvider (this w') = posthogProvider (this w)
  /\ exists evs,
       sdk (rt w') = (sdk (rt w) ++ evs)%list
       /\ phase_outcome Countly evs w'.
Proof.
  unfold init_countly, CountlyProvider.init, Platform.getPlatform,
    CountlyProviderWeb.init, CountlyProviderNative.init,
    CountlyProviderWeb.new, CountlyProviderNative.new.
  destruct (currentPlatform (rt w)) as [[]|], (autoDetectPlatform env); cbn;
    repeat (case_match; cbn; simplify_eq); cbn;
    (split; [reflexivity|]); unfold phase_outcome.
  all: first
    [ solve [exists []; split; [by rewrite app_nil_r | by left]]
    | solve [eexists [_]; split;
             [reflexivity | right; left; do 2 eexists; split; reflexivity]]
    | solve [eexists [_]; split;
             [reflexivity | right; right; eexists; split; reflexivity]] ].
Qed.

Lemma init_posthog_spec env cfg c w :
  let w' := init_posthog env cfg c w in
  countlyProvider (this w') = countlyProvider (this w)
  /\ exists evs,
       sdk (rt w') = (sdk (rt w) ++ evs)%list
       /\ phase_outcome PostHog evs w'.
Proof.
  unfold init_posthog, PostHogProvider.init, Platform.getPlatform,
    PostHogProviderWeb.init, PostHogProviderNative.init,
    PostHogProviderWeb.new, PostHogProviderNative.new.
  destruct (currentPlatform (rt w)) as [[]|], (autoDetectPlatform env); cbn;
    repeat (case_match; cbn; simplify_eq); cbn;
    (split; [reflexivity|]); unfold phase_outcome.
  all: first
    [ solve [exists []; split; [by rewrite app_nil_r | by left]]
    | solve [eexists [_]; split;
             [reflexivity | right; left; do 2 eexists; split; reflexivity]]
    | solve [eexists [_]; split;
             [reflexivity | right; right; eexists; split; reflexivity]] ].
Qed.

Lemma countly_active_eq (w w' : World) :
  countlyProvider (this w') = countlyProvider (this w) -> countly_active w' = countly_active w.
Proof. unfold countly_active, active_countly. by intros ->. Qed.

Lemma posthog_active_eq (w w' : World) :
  posthogProvider (this w') = posthogProvider (this w) -> posthog_active w' = posthog_active w.
Proof. unfold posthog_active, active_posthog. by intros ->. Qed.

(** The two provider phases of [init], one after the other. *)
Lemma init_providers_outcome env cfg w :
  let w3 := match countly cfg with Some c => init_countly env cfg c w | None => w end in
  let w4 := match posthog cfg with Some p => init_posthog env cfg p w3 | None => w3 end in
  exists evc evp,
    sdk (rt w4) = (sdk (rt w) ++ evc ++ evp)%list
    /\ phase_outcome Countly evc w4
    /\ phase_outcome PostHog evp w4
    /\ (evc <> [] -> is_Some (countly cfg))
    /\ (evp <> [] -> is_Some (posthog cfg)).
Proof.
  intros w3 w4.
  assert (H3 : exists evc, sdk (rt w3) = (sdk (rt w) ++ evc)%list
                 /\ phase_outcome Countly evc w3
                 /\ (evc <> [] -> is_Some (countly cfg))).
  { subst w3. destruct (countly cfg) as [c|].
    - destruct (init_countly_spec env cfg c w) as (_ & evs & Hs & Ho).
      exists evs. split; [exact Hs|]. split; [exact Ho | eauto].
    - exists []. split; [by rewrite app_nil_r|]. split; [by left | done]. }
  destruct H3 as (evc & Hs3 & Ho3 & Hcfg3).
  assert (H4 : exists evp, sdk (rt w4) = (sdk (rt w3) ++ evp)%list
                 /\ phase_outcome PostHog evp w4
                 /\ countlyProvider (this w4) = countlyProvider (this w3)
                 /\ (evp <> [] -> is_Some (posthog cfg))).
  { subst w4. destruct (posthog cfg) as [p|].
    - destruct (init_posthog_spec env cfg p w3) as (Hc & evs & Hs & Ho).
      exists evs. split; [exact Hs|]. split; [exact Ho|]. split; [exact Hc | eauto].
    - exists []. split; [by rewrite app_nil_r|]. split; [by left|]. split; done. }
  destruct H4 as (evp & Hs4 & Ho4 & Hc4 & Hcfg4).
  exists evc, evp. split; [by rewrite Hs4, Hs3, app_assoc|].
  split; [|split; [exact Ho4 | split; [exact Hcfg3 | exact Hcfg4]]].
  destruct Ho3 as [->|[(plat & e & -> & Habs)|(plat & -> & Hact)]].
  - by left.
  - right; left. exists plat, e. split; [done|]. cbn in *. by rewrite Hc4.
  - right; right. exists plat. split; [done|]. cbn in *.
    by rewrite (countly_active_eq w3 w4 Hc4).
Qed.

(** [init] either makes no SDK call at all, or resolves after running the
    two provider phases on a configuration that passed validation. *)
Lemma init_outcome env cfg w :
  exists evc evp, init_report cfg w (init env cfg w) evc evp.
Proof.
  assert (Hnone : forall r w', sdk (rt w') = sdk (rt w) ->
            exists evc evp, init_report cfg w (r, w') evc evp).
  { intros r w' Hs. exists [], []. unfold init_report. cbn. rewrite app_nil_r.
    repeat split; try done; by left. }
  unfold init.
  destruct (initialized (this w)); [by apply Hnone|].
  destruct (Helpers.valid (Helpers.validateConfig cfg)) eqn:Hvalid; cbn [negb];
    [|by apply Hnone].
  assert (Hsp : forall given rt0, sdk (Platform.setPlatform given rt0).2 = sdk rt0).
  { intros. unfold Platform.setPlatform. by destruct (Platform.parse given). }
  assert (Hmain : forall w2, sdk (rt w2) = sdk (rt w) ->
            let w3 := match countly cfg with
                      | Some c => init_countly env cfg c w2 | None => w2 end in
            let w4 := match posthog cfg with
                      | Some p => init_posthog env cfg p w3 | None => w3 end in
            exists evc evp,
              init_report cfg w (Returns tt, set_initialized true w4) evc evp).
  { intros w2 Hs w3 w4.
    destruct (init_providers_outcome env cfg w2) as (evc & evp & Hs4 & Hc & Hp & Hcc & Hcp).
    fold w3 in Hs4, Hc, Hp. fold w4 in Hs4, Hc, Hp.
    exists evc, evp. unfold init_report. cbn [fst snd].
    split; [by rewrite <- Hs|]. repeat split; done. }
  destruct (truthy_string (platform cfg)).
  - specialize (Hsp (default "" (platform cfg)) (rt (set_config (Some cfg) w))).
    destruct (Platform.setPlatform _ _) as [r rt1]. cbn in Hsp.
    destruct r as [[]|e]; [by apply Hmain | by apply Hnone].
  - by apply Hmain.
Qed.

Lemma absent_not_active (n : ProviderName) (w : World) :
  provider_absent n w -> provider_active n w = false.
Proof.
  destruct n; cbn; unfold countly_active, posthog_active, active_countly, active_posthog;
    by intros ->.
Qed.

Lemma enabled_providers_spec (n : ProviderName) (w : World) :
  provider_label n ∈ getEnabledProviders w <-> provider_active n w = true.
Proof.
  unfold getEnabledProviders.
  destruct n; cbn; destruct (countly_active w), (posthog_active w); cbn;
    rewrite ?elem_of_cons, ?elem_of_nil; split; intros H;
    try done; try (destruct H as [H|[H|H]]; done); try (destruct H as [H|H]; done);
    tauto.
Qed.

(** One provider phase of [init], read off the environment.  The phase
    runs on the platform resolved at its start and leaves that platform
    set; it does not touch the other provider; its provider ends enabled
    when the adapter module loads and the adapter's [init] returns, and
    without a proxy when either fails. *)
Lemma init_countly_phase env cfg c w :
  let plat := resolved_platform env (rt w) in
  let w' := init_countly env cfg c w in
  currentPlatform (rt w') = Some plat
  /\ posthogProvider (this w') = posthogProvider (this w)
  /\ (import_adapter env Countly plat = None -> sdk_init env Countly plat = None ->
      countly_active w' = true)
  /\ (is_Some (import_adapter env Countly plat) \/ is_Some (sdk_init env Countly plat) ->
      countlyProvider (this w') = None).
Proof.
  unfold init_countly, CountlyProvider.init, Platform.getPlatform,
    CountlyProviderWeb.init, CountlyProviderNative.init,
    CountlyProviderWeb.new, CountlyProviderNative.new, resolved_platform,
    countly_active, active_countly.
  destruct w as [th [[[]|] h s]]; cbn; [| |destruct (autoDetectPlatform env); cbn];
    (destruct (import_adapter env Countly _) as [e|] eqn:Hi; cbn;
     [|destruct (sdk_init env Countly _) as [e|] eqn:Hs; cbn]);
    repeat split; try done;
    try (intros [[? ?]|[? ?]]; discriminate).
Qed.

Lemma init_posthog_phase env cfg c w :
  let plat := resolved_platform env (rt w) in
  let w' := init_posthog env cfg c w in
  currentPlatform (rt w') = Some plat
  /\ countlyProvider (this w') = countlyProvider (this w)
  /\ (import_adapter env PostHog plat = None -> sdk_init env PostHog plat = None ->
      posthog_active w' = true)
  /\ (is_Some (import_adapter env PostHog plat) \/ is_Some (sdk_init env PostHog plat) ->
      posthogProvider (this w') = None).
Proof.
  unfold init_posthog, PostHogProvider.init, Platform.getPlatform,
    PostHogProviderWeb.init, PostHogProviderNative.init,
    PostHogProviderWeb.new, PostHogProviderNative.new, resolved_platform,
    posthog_active, active_posthog.
  destruct w as [th [[[]|] h s]]; cbn; [| |destruct (autoDetectPlatform env); cbn];
    (destruct (import_adapter env PostHog _) as [e|] eqn:Hi; cbn;
     [|destruct (sdk_init env PostHog _) as [e|] eqn:Hs; cbn]);
    repeat split; try done;
    try (intros [[? ?]|[? ?]]; discriminate).
Qed.

(** A first [init] with a configuration that passes validation and names
    no platform, or one of the two known ones, runs the two provider
    phases on the platform of the call and resolves. *)
Lemma init_runs_phases env cfg w :
  initialized (this w) = false ->
  Helpers.valid (Helpers.validateConfig cfg) = true ->
  (forall given, platform cfg = Some given -> given = "" \/ given = "web" \/ given = "native") ->
  exists w2,
    resolved_platform env (rt w2) = init_platform env cfg (rt w)
    /\ init env cfg w
       = (Returns tt,
          set_initialized true
            (let w3 := match countly cfg with
                       | Some c => init_countly env cfg c w2
                       | None => w2
                       end in
             match posthog cfg with
             | Some p => init_posthog env cfg p w3
             | None => w3
             end)).
Proof.
  intros Hi Hvalid Hpl. unfold init. rewrite Hi, Hvalid. cbn [negb].
  unfold init_platform.
  destruct (platform cfg) as [given|] eqn:Hgiven.
  - destruct (Hpl given eq_refl) as [-> | [-> | ->]]; cbn; (eexists; split; [|reflexivity]); reflexivity.
  - cbn. (eexists; split; [|reflexivity]); reflexivity.
Qed.

End InitIsolation.

(** C1.  Take a first [init(config)] with a configuration that passes
    validation, has both provider blocks and names no platform or a known
    one.  If, on the platform of the call, the adapter of one provider
    cannot be loaded or throws from its [init], while the adapter of the
    other loads and returns from its own, then [init] resolves, the
    orchestrator holds no proxy for the failed provider, and
    [getEnabledProviders] lists the survivor and not the failed one. *)
Theorem init_isolates_provider_failure
    (env : Env) (cfg : AnalyticsConfig) (w : UnifiedAnalytics.World)
    (failed survivor : ProviderName) :
  UnifiedAnalytics.isInitialized w = false ->
  Helpers.valid (Helpers.validateConfig cfg) = true ->
  is_Some (countly cfg) -> is_Some (posthog cfg) ->
  (forall given, platform cfg = Some given -> given = "" \/ given = "web" \/ given = "native") ->
  failed <> survivor ->
  let plat := init_platform env cfg (UnifiedAnalytics.rt w) in
  is_Some (import_adapter env failed plat) \/ is_Some (sdk_init env failed plat) ->
  import_adapter env survivor plat = None ->
  sdk_init env survivor plat = None ->
  let result := UnifiedAnalytics.init env cfg w in
  result.1 = Returns tt
  /\ UnifiedAnalytics.isInitialized result.2 = true
  /\ provider_absent failed result.2
  /\ provider_label survivor ∈ UnifiedAnalytics.getEnabledProviders result.2
  /\ provider_label failed ∉ UnifiedAnalytics.getEnabledProviders result.2.
Proof.
  intros Hi Hvalid [c Hc] [p Hp] Hpl Hne plat Hfail Himport Hstart result.
  destruct (init_runs_phases env cfg w Hi Hvalid Hpl) as (w2 & Hplat & Hinit).
  fold plat in Hplat. subst result. rewrite Hinit, Hc, Hp. cbn [fst snd].
  set (w3 := UnifiedAnalytics.init_countly env cfg c w2).
  set (w4 := UnifiedAnalytics.init_posthog env cfg p w3).
  destruct (init_countly_phase env cfg c w2) as (Hcur & _ & Hcs & Hcf).
  fold w3 in Hcur, Hcs, Hcf. rewrite Hplat in Hcur, Hcs, Hcf.
  destruct (init_posthog_phase env cfg p w3) as (_ & Hkeep & Hps & Hpf).
  fold w4 in Hkeep, Hps, Hpf.
  assert (Hres : resolved_platform env (UnifiedAnalytics.rt w3) = plat).
  { unfold resolved_platform. by rewrite Hcur. }
  rewrite Hres in Hps, Hpf.
  assert (Hkey : provider_absent failed w4 /\ provider_active survivor w4 = true).
  { destruct failed, survivor; try done; cbn [provider_absent provider_active].
    - split; [rewrite Hkeep; by apply Hcf | by apply Hps].
    - split; [by apply Hpf|].
      rewrite (countly_active_eq w3 w4 Hkeep). by apply Hcs. }
  destruct Hkey as [Habs Hact].
  assert (Habs' : provider_absent failed (UnifiedAnalytics.set_initialized true w4))
    by (by destruct failed).
  split; [reflexivity|]. split; [reflexivity|]. split; [exact Habs'|].
  split.
  - apply enabled_providers_spec. by destruct survivor.
  - rewrite enabled_providers_spec, (absent_not_active _ _ Habs'). done.
Qed.

Lemma init_isolates_provider_failure_witness :
  let result := UnifiedAnalytics.init Scenario.countly_down Scenario.both
                  UnifiedAnalytics.initial in
  result.1 = Returns tt
  /\ provider_absent Countly result.2
  /\ UnifiedAnalytics.getEnabledProviders result.2 = ["posthog"]
  /\ "posthog" ∈ UnifiedAnalytics.getEnabledProviders result.2.
Proof.
  pose proof (init_isolates_provider_failure Scenario.countly_down Scenario.both
                UnifiedAnalytics.initial Countly PostHog) as H.
  cbv zeta in H.
  destruct H as (Hr & _ & Habs & Hin & _).
  - reflexivity.
  - reflexivity.
  - by eexists.
  - by eexists.
  - intros given [= <-]. right; left; reflexivity.
  - discriminate.
  - right. by eexists.
  - reflexivity.
  - reflexivity.
  - cbv zeta. split; [exact Hr|]. split; [exact Habs|]. split; [reflexivity | exact Hin].
Defined.

(** ** Feature flags without a provider that has them *)

Section FeatureFlags.

Import UnifiedAnalytics.

Lemma feature_flags_neutral (env : Env) (key : string) (cb : Callback) (w : World) :
  active_posthog w = None ->
  isFeatureEnabled env key w = Returns (JsBool false)
  /\ getAllFeatureFlags env w = Returns (JsObject [])
  /\ onFeatureFlagsChange env cb w = (Returns NoopFunction, w)
  /\ call_unsubscribe NoopFunction w = (Returns tt, w).
Proof.
  intros H. unfold isFeatureEnabled, getAllFeatureFlags, onFeatureFlagsChange.
  rewrite H. repeat split.
Qed.

Lemma getFeatureFlag_neutral (env : Env) (key : string) (w : World) :
  active_posthog w = None ->
  is_Some (config (this w)) ->
  getFeatureFlag env key w = Returns JsNull.
Proof.
  intros H [c Hc]. unfold getFeatureFlag. by rewrite H, Hc.
Qed.

Lemma getFeatureFlag_unconfigured (env : Env) (key : string) (w : World) :
  active_posthog w = None ->
  config (this w) = None ->
  exists message, getFeatureFlag env key w = Throws (TypeError message).
Proof.
  intros H Hc. unfold getFeatureFlag. rewrite H, Hc. eauto.
Qed.

End FeatureFlags.

(** C6: the code departs from the claim.  Before [init] has ever been
    called [isFeatureEnabled], [getAllFeatureFlags] and
    [onFeatureFlagsChange] give their neutral answers, but
    [getFeatureFlag] throws a [TypeError] instead of returning [null]: it
    reads [this.config.debug] while [config] is still [null]. *)
Theorem getFeatureFlag_throws_before_init (env : Env) (key : string) (cb : Callback) :
  UnifiedAnalytics.getFeatureFlag env key UnifiedAnalytics.initial
    = Throws (TypeError "Cannot read properties of null (reading 'debug')")
  /\ UnifiedAnalytics.isFeatureEnabled env key UnifiedAnalytics.initial = Returns (JsBool false)
  /\ UnifiedAnalytics.getAllFeatureFlags env UnifiedAnalytics.initial = Returns (JsObject [])
  /\ UnifiedAnalytics.onFeatureFlagsChange env cb UnifiedAnalytics.initial
     = (Returns NoopFunction, UnifiedAnalytics.initial).
Proof. repeat split. Qed.

(** ** Screen views *)

Section ScreenViews.

Import UnifiedAnalytics.

Lemma only_emits_nil (w : World) : only_emits [] w w.
Proof. unfold only_emits. by rewrite app_nil_r. Qed.

Lemma only_emits_nil_inv (w w' : World) : only_emits [] w w' -> w' = w.
Proof.
  intros (Ht & Hp & Hh & Hs). rewrite app_nil_r in Hs.
  destruct w as [t r], w' as [t' r']; cbn in *. subst t'.
  destruct r, r'; cbn in *. by subst.
Qed.

Lemma trackView_disabled (viewName : string) (properties : option Props) (w : World) :
  _trackScreenViews (this w) = false -> trackView viewName properties w = w.
Proof. intros H. unfold trackView. by rewrite H. Qed.

(** With tracking enabled [trackView] hands one view call to each enabled
    provider and changes nothing else. *)
Lemma trackView_enabled (viewName : string) (properties : option Props) (w : World) :
  _trackScreenViews (this w) = true ->
  exists cs,
    only_emits cs w (trackView viewName properties w)
    /\ one_view_each cs w
    /\ (properties = None -> all_named viewName cs).
Proof.
  intros Hon. unfold trackView. rewrite Hon. cbn.
  unfold only_emits, one_view_each, all_named, getEnabledProviders,
    countly_active, posthog_active, active_countly, active_posthog.
  destruct w as [[i c cp pp r o tsv] rt0]. cbn in *.
  destruct cp as [[[[[[] ? ? ?]|[[] ? ? ?]]|] dc]|],
    pp as [[[[[[] ? ? ? ? ?]|[[] ? ? ? ? ?]]|] dp]|]; cbn;
    lazymatch goal with
    | |- ex (fun cs => (_ /\ _ /\ _ /\ ((_ ++ [?a]) ++ [?b])%list = _) /\ _) =>
        exists [a; b]
    | |- ex (fun cs => (_ /\ _ /\ _ /\ (_ ++ [?a])%list = _) /\ _) => exists [a]
    | |- _ => exists []
    end;
    (split; [repeat split; cbn;
             first [ by rewrite <- app_assoc | by rewrite app_nil_r | reflexivity ] |]);
    (split; [split; [reflexivity | repeat constructor] |]);
    intros ->; repeat constructor.
Qed.

Lemma trackView_this (viewName : string) (properties : option Props) (w : World) :
  this (trackView viewName properties w) = this w.
Proof.
  destruct (_trackScreenViews (this w)) eqn:Hflag.
  - destruct (trackView_enabled viewName properties w Hflag) as (cs & (Ht & _) & _).
    exact Ht.
  - by rewrite trackView_disabled.
Qed.

Lemma truthy_string_nonempty (s : string) : s <> "" -> truthy_string (Some s) = true.
Proof. by destruct s. Qed.

(** A transition arriving at a screen with a non-empty override: one
    [trackView] under the override's name, then the entry is deleted. *)
Lemma onStateChange_override (s custom : string) (w : World) :
  s <> "" -> custom <> "" ->
  routeNameRef (this w) <> Some s ->
  screenViewOverrides (this w) !! s = Some custom ->
  onStateChange (Some s) w
    = set_routeNameRef (Some s) (clearScreenViewOverride s (trackView custom None w)).
Proof.
  intros Hs Hc Hprev Hreg. unfold onStateChange.
  rewrite bool_decide_eq_false_2 by done.
  rewrite (truthy_string_nonempty s Hs). cbn.
  rewrite Hreg, (truthy_string_nonempty custom Hc). cbn.
  reflexivity.
Qed.

(** A transition arriving at a screen without an override: one
    [trackView] under the screen's own name. *)
Lemma onStateChange_plain (s : string) (w : World) :
  s <> "" ->
  routeNameRef (this w) <> Some s ->
  screenViewOverrides (this w) !! s = None ->
  onStateChange (Some s) w = set_routeNameRef (Some s) (trackView s None w).
Proof.
  intros Hs Hprev Hreg. unfold onStateChange.
  rewrite bool_decide_eq_false_2 by done.
  rewrite (truthy_string_nonempty s Hs). cbn.
  by rewrite Hreg.
Qed.

Lemma onRouteChange_override (s custom : string) (h : WebNavigationHandlers) (w : World) :
  s <> "" -> custom <> "" ->
  previousPath h <> Some s ->
  screenViewOverrides (this w) !! s = Some custom ->
  onRouteChange s h w
    = ({| previousPath := Some s |},
       clearScreenViewOverride s (trackView custom None w)).
Proof.
  intros Hs Hc Hprev Hreg. unfold onRouteChange.
  rewrite (truthy_string_nonempty s Hs).
  rewrite bool_decide_eq_false_2 by congruence. cbn.
  rewrite Hreg, (truthy_string_nonempty custom Hc). cbn.
  reflexivity.
Qed.

Lemma onRouteChange_plain (s : string) (h : WebNavigationHandlers) (w : World) :
  s <> "" ->
  previousPath h <> Some s ->
  screenViewOverrides (this w) !! s = None ->
  onRouteChange s h w = ({| previousPath := Some s |}, trackView s None w).
Proof.
  intros Hs Hprev Hreg. unfold onRouteChange.
  rewrite (truthy_string_nonempty s Hs).
  rewrite bool_decide_eq_false_2 by congruence. cbn.
  by rewrite Hreg.
Qed.

Lemma overrides_after_consume (s : string) (r : option string) (w : World) :
  screenViewOverrides (this (set_routeNameRef r (clearScreenViewOverride s w))) !! s = None.
Proof. cbn. apply lookup_delete_eq. Qed.

End ScreenViews.


(** ** Heap discipline of the proxies *)

Section Proxies.

Lemma moved_same (n n' : nat) (o : option loc) : moved n n' o o.
Proof. intros l Hl. by left. Qed.

Lemma moved_none (n n' : nat) (o : option loc) : moved n n' o None.
Proof. intros l Hl. discriminate. Qed.

Lemma moved_fresh (n n' l : nat) (o : option loc) : n <= l < n' -> moved n n' o (Some l).
Proof. intros Hl l' [= <-]. right. lia. Qed.

Lemma moved_trans (n1 n2 n3 : nat) (a b c : option loc) :
  n1 <= n2 -> n2 <= n3 -> moved n1 n2 a b -> moved n2 n3 b c -> moved n1 n3 a c.
Proof.
  intros H12 H23 Hab Hbc l Hl.
  destruct (Hbc l Hl) as [Hb | Hb]; [|right; lia].
  destruct (Hab l Hb) as [Ha | Ha]; [by left | right; lia].
Qed.

Lemma getPlatform_heap (env : Env) (rt : Runtime) :
  heap (Platform.getPlatform env rt).2 = heap rt.
Proof. unfold Platform.getPlatform. by destruct (currentPlatform rt). Qed.

Lemma setPlatform_heap (given : string) (rt : Runtime) :
  heap (Platform.setPlatform given rt).2 = heap rt.
Proof. unfold Platform.setPlatform. by destruct (Platform.parse given). Qed.

Lemma CountlyProvider_init_moves env p cfg rt :
  let '(r, p', rt') := CountlyProvider.init env p cfg rt in
  length (heap rt) <= length (heap rt')
  /\ moved (length (heap rt)) (length (heap rt'))
       (CountlyProvider.context_loc p) (CountlyProvider.context_loc p').
Proof.
  unfold CountlyProvider.init, Platform.getPlatform, CountlyProvider.context_loc,
    CountlyProvider.set_impl,
    CountlyProviderWeb.init, CountlyProviderNative.init,
    CountlyProviderWeb.new, CountlyProviderNative.new.
  destruct p as [[[a|a]|] d], (currentPlatform rt) as [[]|], (autoDetectPlatform env);
    break; (split; [heap_arith|]);
    first [apply moved_same | apply moved_fresh; heap_arith].
Qed.

Lemma PostHogProvider_init_moves env p cfg rt :
  let '(r, p', rt') := PostHogProvider.init env p cfg rt in
  length (heap rt) <= length (heap rt')
  /\ moved (length (heap rt)) (length (heap rt'))
       (PostHogProvider.registered_loc p) (PostHogProvider.registered_loc p').
Proof.
  unfold PostHogProvider.init, Platform.getPlatform, PostHogProvider.registered_loc,
    PostHogProvider.set_impl,
    PostHogProviderWeb.init, PostHogProviderNative.init,
    PostHogProviderWeb.new, PostHogProviderNative.new.
  destruct p as [[[a|a]|] d], (currentPlatform rt) as [[]|], (autoDetectPlatform env);
    break; (split; [heap_arith|]);
    first [apply moved_same | apply moved_fresh; heap_arith].
Qed.

Lemma CountlyProvider_setUserContext_moves p props rt :
  let '(p', rt') := CountlyProvider.setUserContext p props rt in
  length (heap rt) <= length (heap rt')
  /\ moved (length (heap rt)) (length (heap rt'))
       (CountlyProvider.context_loc p) (CountlyProvider.context_loc p')
  /\ CountlyProvider.isInitialized p' = CountlyProvider.isInitialized p.
Proof.
  unfold CountlyProvider.setUserContext, CountlyProvider.context_loc, CountlyProvider.set_impl,
    CountlyProvider.isInitialized,
    CountlyProviderWeb.setUserContext, CountlyProviderNative.setUserContext,
    CountlyProviderWeb.ensureInitialized, CountlyProviderNative.ensureInitialized.
  destruct p as [[[[[] ? ? ?]|[[] ? ? ?]]|] d];
    break; (split; [heap_arith|]);
    (split; [first [apply moved_same | apply moved_fresh; heap_arith] | reflexivity]).
Qed.

Lemma PostHogProvider_register_moves p props rt :
  let '(p', rt') := PostHogProvider.register p props rt in
  length (heap rt) <= length (heap rt')
  /\ moved (length (heap rt)) (length (heap rt'))
       (PostHogProvider.registered_loc p) (PostHogProvider.registered_loc p')
  /\ PostHogProvider.isInitialized p' = PostHogProvider.isInitialized p.
Proof.
  unfold PostHogProvider.register, PostHogProvider.registered_loc, PostHogProvider.set_impl,
    PostHogProvider.isInitialized,
    PostHogProviderWeb.register, PostHogProviderNative.register,
    PostHogProviderWeb.ensureInitialized, PostHogProviderNative.ensureInitialized.
  destruct p as [[[[[] ? ? ? ? ?]|[[] ? ? ? ? ?]]|] d];
    break; (split; [heap_arith|]);
    (split; [first [apply moved_same | apply moved_fresh; heap_arith] | reflexivity]).
Qed.

Lemma PostHogProvider_onFeatureFlags_frame env p cb rt :
  let '(r, p', rt') := PostHogProvider.onFeatureFlags env p cb rt in
  heap rt' = heap rt
  /\ PostHogProvider.registered_loc p' = PostHogProvider.registered_loc p.
Proof.
  unfold PostHogProvider.onFeatureFlags, PostHogProvider.registered_loc,
    PostHogProvider.set_impl,
    PostHogProviderWeb.onFeatureFlags, PostHogProviderNative.onFeatureFlags,
    PostHogProviderWeb.ensureInitialized, PostHogProviderNative.ensureInitialized.
  destruct p as [[[[[] ? ? ? ? ?]|[[] ? ? ? ? ?]]|] d]; break; by split.
Qed.

Lemma PostHogProvider_unregister_length p k rt :
  length (heap (PostHogProvider.unregister p k rt)) = length (heap rt).
Proof.
  unfold PostHogProvider.unregister, PostHogProviderWeb.unregister,
    PostHogProviderNative.unregister.
  destruct p as [[[[[] ? ? ? ? ?]|[[] ? ? ? ? ?]]|] d]; break; heap_arith.
Qed.

Lemma CountlyProvider_track_heap p n props rt :
  heap (CountlyProvider.trackEvent p n props rt) = heap rt
  /\ heap (CountlyProvider.trackView p n props rt) = heap rt.
Proof.
  unfold CountlyProvider.trackEvent, CountlyProvider.trackView,
    CountlyProviderWeb.trackEvent, CountlyProviderWeb.trackView,
    CountlyProviderNative.trackEvent, CountlyProviderNative.trackView.
  destruct p as [[[[[] ? ? ?]|[[] ? ? ?]]|] d]; by split.
Qed.

Lemma PostHogProvider_track_heap p n props rt :
  heap (PostHogProvider.trackEvent p n props rt) = heap rt
  /\ heap (PostHogProvider.trackView p n props rt) = heap rt.
Proof.
  unfold PostHogProvider.trackEvent, PostHogProvider.trackView,
    PostHogProviderWeb.trackEvent, PostHogProviderWeb.trackView,
    PostHogProviderNative.trackEvent, PostHogProviderNative.trackView.
  destruct p as [[[[[] ? ? ? ? ?]|[[] ? ? ? ? ?]]|] d]; by split.
Qed.

(** Reading a store through its proxy: a new object holding the store's
    contents (the empty object when the proxy has no adapter). *)
Lemma CountlyProvider_getUserContext_spec p rt :
  CountlyProvider.getUserContext p rt
    = alloc (default ∅ (deref rt <$> CountlyProvider.context_loc p)) rt.
Proof.
  unfold CountlyProvider.getUserContext, CountlyProvider.context_loc,
    CountlyProviderWeb.getUserContext, CountlyProviderNative.getUserContext.
  destruct p as [[[a|a]|] d]; cbn; by rewrite ?spread_empty_r.
Qed.

Lemma PostHogProvider_getRegisteredProperties_spec p rt :
  PostHogProvider.getRegisteredProperties p rt
    = alloc (default ∅ (deref rt <$> PostHogProvider.registered_loc p)) rt.
Proof.
  unfold PostHogProvider.getRegisteredProperties, PostHogProvider.registered_loc,
    PostHogProviderWeb.getRegisteredProperties, PostHogProviderNative.getRegisteredProperties.
  destruct p as [[[a|a]|] d]; cbn; by rewrite ?spread_empty_r.
Qed.

End Proxies.

(** ** The stores only move to new addresses *)

Section Extends.

Import UnifiedAnalytics.

Lemma extends_refl (w : World) : extends w w.
Proof. repeat split; [lia | apply moved_same | apply moved_same]. Qed.

Lemma extends_trans (w1 w2 w3 : World) : extends w1 w2 -> extends w2 w3 -> extends w1 w3.
Proof.
  intros (H12 & Hc12 & Hp12) (H23 & Hc23 & Hp23).
  repeat split; [lia | |]; eapply moved_trans; eauto.
Qed.

(** A change that leaves the heap size and both stores alone. *)
Lemma extends_frame (w w' : World) :
  length (heap (rt w')) = length (heap (rt w)) ->
  countly_store w' = countly_store w ->
  posthog_store w' = posthog_store w ->
  extends w w'.
Proof.
  intros Hh Hc Hp. unfold extends. rewrite Hh, Hc, Hp.
  repeat split; [lia | apply moved_same | apply moved_same].
Qed.

Lemma init_countly_extends env cfg c w : extends w (init_countly env cfg c w).
Proof.
  unfold init_countly.
  pose proof (CountlyProvider_init_moves env
                (CountlyProvider.setDebug (default false (debug cfg)) CountlyProvider.new)
                c (rt w)) as H.
  destruct (CountlyProvider.init _ _ _ _) as [[r p1] rt'].
  destruct H as [Hle Hmv].
  destruct r; (split; [exact Hle|]); cbn; split;
    try apply moved_same; try apply moved_none.
  intros l Hl. destruct (Hmv l Hl) as [Hold|Hnew]; [discriminate | by right].
Qed.

Lemma init_posthog_extends env cfg c w : extends w (init_posthog env cfg c w).
Proof.
  unfold init_posthog.
  pose proof (PostHogProvider_init_moves env
                (PostHogProvider.setDebug (default false (debug cfg)) PostHogProvider.new)
                c (rt w)) as H.
  destruct (PostHogProvider.init _ _ _ _) as [[r p1] rt'].
  destruct H as [Hle Hmv].
  destruct r; (split; [exact Hle|]); cbn; split;
    try apply moved_same; try apply moved_none.
  intros l Hl. destruct (Hmv l Hl) as [Hold|Hnew]; [discriminate | by right].
Qed.

Lemma init_providers_extends env cfg w :
  extends w
    (set_initialized true
       match posthog cfg with
       | Some p =>
           init_posthog env cfg p
             match countly cfg with Some c => init_countly env cfg c w | None => w end
       | None => match countly cfg with Some c => init_countly env cfg c w | None => w end
       end).
Proof.
  set (w3 := match countly cfg with Some c => init_countly env cfg c w | None => w end).
  assert (H3 : extends w w3).
  { subst w3. destruct (countly cfg); [apply init_countly_extends | apply extends_refl]. }
  set (w4 := match posthog cfg with Some p => init_posthog env cfg p w3 | None => w3 end).
  assert (H4 : extends w3 w4).
  { subst w4. destruct (posthog cfg); [apply init_posthog_extends | apply extends_refl]. }
  eapply extends_trans; [exact H3|].
  eapply extends_trans; [exact H4|].
  by apply extends_frame.
Qed.

Lemma init_extends env cfg w : extends w (init env cfg w).2.
Proof.
  unfold init.
  destruct (initialized (this w)); [apply extends_refl|].
  destruct (negb (Helpers.valid (Helpers.validateConfig cfg))); [apply extends_refl|].
  pose proof (setPlatform_heap (default "" (platform cfg)) (rt (set_config (Some cfg) w)))
    as Hsp.
  destruct (truthy_string (platform cfg)).
  - destruct (Platform.setPlatform _ _) as [r rt1]. cbn in Hsp.
    destruct r as [[]|e]; cbn [snd].
    + eapply extends_trans; [|apply init_providers_extends].
      apply extends_frame; cbn; by rewrite ?Hsp.
    + apply extends_frame; cbn; by rewrite ?Hsp.
  - cbn [snd].
    eapply extends_trans; [|apply init_providers_extends].
    by apply extends_frame.
Qed.

Lemma trackEvent_extends n p w : extends w (trackEvent n p w).
Proof.
  unfold trackEvent, trackEventToProviders, active_countly, active_posthog.
  apply extends_frame; repeat (case_match; cbn);
    rewrite ?(proj1 (PostHogProvider_track_heap _ _ _ _)),
      ?(proj1 (CountlyProvider_track_heap _ _ _ _)); reflexivity.
Qed.

Lemma trackView_extends n p w : extends w (trackView n p w).
Proof.
  unfold trackView, active_countly, active_posthog.
  apply extends_frame; repeat (case_match; cbn);
    rewrite ?(proj2 (PostHogProvider_track_heap _ _ _ _)),
      ?(proj2 (CountlyProvider_track_heap _ _ _ _)); reflexivity.
Qed.

Lemma setGlobalProperties_extends props w : extends w (setGlobalProperties props w).
Proof.
  unfold setGlobalProperties.
  set (w1 := match active_countly w with
             | Some p =>
                 let (p', rt') := CountlyProvider.setUserContext p props (rt w) in
                 set_countlyProvider (Some p') (set_rt rt' w)
             | None => w
             end).
  assert (H1 : extends w w1).
  { subst w1. unfold active_countly.
    destruct (countlyProvider (this w)) as [p|] eqn:Hp; [|apply extends_refl].
    destruct (CountlyProvider.isInitialized p); [|apply extends_refl].
    pose proof (CountlyProvider_setUserContext_moves p props (rt w)) as H.
    destruct (CountlyProvider.setUserContext p props (rt w)) as [p' rt'].
    destruct H as (Hle & Hmv & _).
    repeat split; [exact Hle | | apply moved_same].
    unfold countly_store. cbn. by rewrite Hp. }
  eapply extends_trans; [exact H1|].
  unfold active_posthog.
  destruct (posthogProvider (this w1)) as [p|] eqn:Hp; [|apply extends_refl].
  destruct (PostHogProvider.isInitialized p); [|apply extends_refl].
  pose proof (PostHogProvider_register_moves p props (rt w1)) as H.
  destruct (PostHogProvider.register p props (rt w1)) as [p' rt'].
  destruct H as (Hle & Hmv & _).
  repeat split; [exact Hle | apply moved_same |].
  unfold posthog_store. cbn. by rewrite Hp.
Qed.

Lemma moved_weaken (n n1 n' : nat) (a b : option loc) :
  n <= n1 -> moved n1 n' a b -> moved n n' a b.
Proof. intros Hn H l Hl. destruct (H l Hl); [by left | right; lia]. Qed.

(** [getGlobalProperties] allocates one new object holding the contents
    of the store it reads, and changes nothing else. *)
Lemma getGlobalProperties_spec (w : World) :
  getGlobalProperties w
    = (length (heap (rt w)), set_rt (alloc (global_properties w) (rt w)).2 w).
Proof.
  unfold getGlobalProperties, global_properties.
  destruct (active_countly w) as [p|].
  - by rewrite CountlyProvider_getUserContext_spec.
  - destruct (active_posthog w) as [p|]; [|reflexivity].
    by rewrite PostHogProvider_getRegisteredProperties_spec.
Qed.

Lemma getGlobalProperties_extends (w : World) : extends w (getGlobalProperties w).2.
Proof.
  rewrite getGlobalProperties_spec. cbn [snd].
  repeat split; [heap_arith | apply moved_same | apply moved_same].
Qed.

Lemma removeGlobalProperty_extends key w : extends w (removeGlobalProperty key w).
Proof.
  unfold removeGlobalProperty.
  match goal with |- extends w (match active_posthog ?x with _ => _ end) => set (w1 := x) end.
  assert (H1 : extends w w1).
  { subst w1. unfold active_countly.
    destruct (countlyProvider (this w)) as [p|] eqn:Hp; [|apply extends_refl].
    destruct (CountlyProvider.isInitialized p); [|apply extends_refl].
    rewrite CountlyProvider_getUserContext_spec. cbn [alloc].
    match goal with |- context [CountlyProvider.setUserContext p ?props ?r] =>
      pose proof (CountlyProvider_setUserContext_moves p props r) as H;
      destruct (CountlyProvider.setUserContext p props r) as [p' rt']
    end.
    destruct H as (Hle & Hmv & _). revert Hle Hmv. heap_arith. intros Hle Hmv.

    repeat split; [cbn; lia | | apply moved_same].
    unfold countly_store. cbn. rewrite Hp. cbn.
    eapply moved_weaken; [|exact Hmv]. lia. }
  eapply extends_trans; [exact H1|].
  unfold active_posthog.
  destruct (posthogProvider (this w1)) as [p|]; [|apply extends_refl].
  destruct (PostHogProvider.isInitialized p); [|apply extends_refl].
  apply extends_frame; cbn; [apply PostHogProvider_unregister_length | reflexivity..].
Qed.

Lemma onFeatureFlagsChange_extends env cb w : extends w (onFeatureFlagsChange env cb w).2.
Proof.
  unfold onFeatureFlagsChange, active_posthog.
  destruct (posthogProvider (this w)) as [p|] eqn:Hp; [|apply extends_refl].
  destruct (PostHogProvider.isInitialized p); [|apply extends_refl].
  pose proof (PostHogProvider_onFeatureFlags_frame env p cb (rt w)) as H.
  destruct (PostHogProvider.onFeatureFlags env p cb (rt w)) as [[r p'] rt'].
  destruct H as [Hh Hl].
  destruct r; apply extends_frame; cbn; rewrite ?Hh; try reflexivity;
    unfold posthog_store; cbn; by rewrite Hp, Hl.
Qed.

Lemma extends_then_frame (w w1 w2 : World) :
  extends w w1 ->
  length (heap (rt w2)) = length (heap (rt w1)) ->
  countly_store w2 = countly_store w1 ->
  posthog_store w2 = posthog_store w1 ->
  extends w w2.
Proof. intros H ? ? ?. eapply extends_trans; [exact H | by apply extends_frame]. Qed.

Lemma consume_extends (name : string) (custom : option string) (w : World) :
  extends w
    (if truthy_string custom
     then
       set_screenViewOverrides
         (delete name (screenViewOverrides (this (trackView (default "" custom) None w))))
         (trackView (default "" custom) None w)
     else trackView name None w).
Proof.
  destruct (truthy_string custom); [|apply trackView_extends].
  eapply extends_then_frame; [apply trackView_extends | reflexivity..].
Qed.

Lemma onStateChange_extends r w : extends w (onStateChange r w).
Proof.
  unfold onStateChange.
  match goal with |- extends w (set_routeNameRef r ?x) =>
    apply (extends_then_frame w x); [|reflexivity..] end.
  case_match; [apply consume_extends | apply extends_refl].
Qed.

Lemma onRouteChange_extends url h w : extends w (onRouteChange url h w).2.
Proof.
  unfold onRouteChange.
  case_match; cbn [snd]; [apply consume_extends | apply extends_refl].
Qed.

Lemma app_write_extends l o w : extends w (app_write l o w).
Proof. apply extends_frame; [apply store_length | reflexivity..]. Qed.

Lemma step_extends env op s : extends (world s) (world (step env op s)).
Proof.
  destruct op; cbn [step world].
  - apply init_extends.
  - apply trackEvent_extends.
  - apply trackView_extends.
  - by apply extends_frame.
  - by apply extends_frame.
  - by apply extends_frame.
  - apply setGlobalProperties_extends.
  - pose proof (getGlobalProperties_extends (world s)) as H.
    by destruct (getGlobalProperties (world s)).
  - apply removeGlobalProperty_extends.
  - apply onFeatureFlagsChange_extends.
  - by apply extends_frame.
  - apply onStateChange_extends.
  - apply onRouteChange_extends.
  - case_bool_decide; [apply app_write_extends | apply extends_refl].
Qed.

Lemma step_handed env op s :
  handed (step env op s)
    = match op with
      | OpGetGlobalProperties => length (heap (rt (world s))) :: handed s
      | _ => handed s
      end.
Proof.
  destruct op; try reflexivity.
  - unfold step. by rewrite getGlobalProperties_spec.
  - unfold step. by case_bool_decide.
Qed.

Lemma step_get_world env s :
  world (step env OpGetGlobalProperties s)
    = set_rt (alloc (global_properties (world s)) (rt (world s))).2 (world s).
Proof. unfold step. by rewrite getGlobalProperties_spec. Qed.

(** Every session the application can bring about keeps the stores
    allocated and apart from the objects handed out. *)
Lemma reachable_heap_ok (s : Session) : reachable s -> heap_ok s.
Proof.
  induction 1 as [|env op s Hr (Hc & Hp & Hh)].
  - split; [|split]; cbn; intros l Hl; try discriminate. by apply not_elem_of_nil in Hl.
  - pose proof (step_extends env op s) as (Hle & Hmc & Hmp).
    assert (Hold : forall l, l ∈ handed s ->
              l < length (heap (rt (world (step env op s))))
              /\ countly_store (world (step env op s)) <> Some l
              /\ posthog_store (world (step env op s)) <> Some l).
    { intros l Hl. destruct (Hh l Hl) as (Hlt & Hnc & Hnp).
      repeat split; [lia | |]; intros Heq.
      - destruct (Hmc l Heq) as [?|?]; [done | lia].
      - destruct (Hmp l Heq) as [?|?]; [done | lia]. }
    split; [|split].
    + intros l Hl. destruct (Hmc l Hl) as [Ho|?]; [|lia]. specialize (Hc l Ho). lia.
    + intros l Hl. destruct (Hmp l Hl) as [Ho|?]; [|lia]. specialize (Hp l Ho). lia.
    + rewrite step_handed.
      destruct op; try exact Hold.
      intros l Hl.
      apply elem_of_cons in Hl as [->|Hin]; [|apply Hold; exact Hin].
      rewrite step_get_world. cbn.
      split; [heap_arith|].
      split; intros Heq; [apply Hc in Heq | apply Hp in Heq]; lia.
Qed.

End Extends.

(** ** Global properties *)

Section GlobalProperties.

Import UnifiedAnalytics.

Lemma active_countly_Some (w : World) (p : CountlyProvider.t) :
  active_countly w = Some p ->
  countlyProvider (this w) = Some p /\ CountlyProvider.isInitialized p = true
  /\ exists l, CountlyProvider.context_loc p = Some l /\ countly_store w = Some l.
Proof.
  unfold active_countly, countly_store. intros H.
  destruct (countlyProvider (this w)) as [q|]; [|discriminate].
  destruct (CountlyProvider.isInitialized q) eqn:Hq; [|discriminate].
  simplify_eq. split; [done|]. split; [done|]. cbn.
  unfold CountlyProvider.isInitialized, CountlyProvider.context_loc in *.
  destruct (CountlyProvider._impl p) as [[a|a]|]; [eauto..|discriminate].
Qed.

Lemma active_posthog_Some (w : World) (p : PostHogProvider.t) :
  active_posthog w = Some p ->
  posthogProvider (this w) = Some p /\ PostHogProvider.isInitialized p = true
  /\ exists l, PostHogProvider.registered_loc p = Some l /\ posthog_store w = Some l.
Proof.
  unfold active_posthog, posthog_store. intros H.
  destruct (posthogProvider (this w)) as [q|]; [|discriminate].
  destruct (PostHogProvider.isInitialized q) eqn:Hq; [|discriminate].
  simplify_eq. split; [done|]. split; [done|]. cbn.
  unfold PostHogProvider.isInitialized, PostHogProvider.registered_loc in *.
  destruct (PostHogProvider._impl p) as [[a|a]|]; [eauto..|discriminate].
Qed.

(** On an initialized provider [setUserContext] points the store at a new
    object: the old contents overlaid with the given properties. *)
Lemma CountlyProvider_setUserContext_spec p l props rt :
  CountlyProvider.isInitialized p = true ->
  CountlyProvider.context_loc p = Some l ->
  exists p',
    CountlyProvider.setUserContext p props rt
      = (p', (alloc (spread (deref rt l) props) rt).2)
    /\ CountlyProvider.context_loc p' = Some (length (heap rt))
    /\ CountlyProvider.isInitialized p' = true.
Proof.
  unfold CountlyProvider.isInitialized, CountlyProvider.context_loc,
    CountlyProvider.setUserContext, CountlyProviderWeb.setUserContext,
    CountlyProviderNative.setUserContext,
    CountlyProviderWeb.ensureInitialized, CountlyProviderNative.ensureInitialized.
  destruct p as [[[[[] ? ? ?]|[[] ? ? ?]]|] d]; cbn; intros; simplify_eq; eauto.
Qed.

Lemma PostHogProvider_register_spec p l props rt :
  PostHogProvider.isInitialized p = true ->
  PostHogProvider.registered_loc p = Some l ->
  exists p',
    PostHogProvider.register p props rt
      = (p', emit (PostHog_register props) (alloc (spread (deref rt l) props) rt).2)
    /\ PostHogProvider.registered_loc p' = Some (length (heap rt))
    /\ PostHogProvider.isInitialized p' = true.
Proof.
  unfold PostHogProvider.isInitialized, PostHogProvider.registered_loc,
    PostHogProvider.register, PostHogProviderWeb.register,
    PostHogProviderNative.register,
    PostHogProviderWeb.ensureInitialized, PostHogProviderNative.ensureInitialized.
  destruct p as [[[[[] ? ? ? ? ?]|[[] ? ? ? ? ?]]|] d]; cbn; intros; simplify_eq; eauto.
Qed.

Lemma PostHogProvider_unregister_spec p l k rt :
  PostHogProvider.isInitialized p = true ->
  PostHogProvider.registered_loc p = Some l ->
  PostHogProvider.unregister p k rt
    = emit (PostHog_unregister k) (store l (delete k (deref rt l)) rt).
Proof.
  unfold PostHogProvider.isInitialized, PostHogProvider.registered_loc,
    PostHogProvider.unregister, PostHogProviderWeb.unregister,
    PostHogProviderNative.unregister,
    PostHogProviderWeb.ensureInitialized, PostHogProviderNative.ensureInitialized.
  destruct p as [[[[[] ? ? ? ? ?]|[[] ? ? ? ? ?]]|] d]; cbn; intros; simplify_eq; eauto.
Qed.

(** What [getGlobalProperties] reads depends on the orchestrator's fields
    and on the contents of the two stores only. *)
Lemma global_properties_frame (w w' : World) :
  this w' = this w ->
  (forall l, countly_store w = Some l -> deref (rt w') l = deref (rt w) l) ->
  (forall l, posthog_store w = Some l -> deref (rt w') l = deref (rt w) l) ->
  global_properties w' = global_properties w.
Proof.
  intros Ht Hc Hp. unfold global_properties.
  assert (Hac : active_countly w' = active_countly w)
    by (unfold active_countly; by rewrite Ht).
  assert (Hap : active_posthog w' = active_posthog w)
    by (unfold active_posthog; by rewrite Ht).
  rewrite Hac, Hap.
  destruct (active_countly w) as [p|] eqn:Ha.
  - apply active_countly_Some in Ha as (_ & _ & l & Hl & Hs).
    rewrite Hl. cbn. by rewrite Hc.
  - destruct (active_posthog w) as [p|] eqn:Hb; [|done].
    apply active_posthog_Some in Hb as (_ & _ & l & Hl & Hs).
    rewrite Hl. cbn. by rewrite Hp.
Qed.

Lemma heap_last (h : Heap) (o : Props) : (h ++ [o])%list !! length h = Some o.
Proof. rewrite lookup_app_r by lia. by rewrite Nat.sub_diag. Qed.

Lemma heap_last_but_one (h : Heap) (o o' : Props) :
  ((h ++ [o]) ++ [o'])%list !! length h = Some o.
Proof. rewrite lookup_app_l by (rewrite length_app; cbn; lia). apply heap_last. Qed.

Lemma heap_last_S (h : Heap) (o o' : Props) :
  ((h ++ [o]) ++ [o'])%list !! S (length h) = Some o'.
Proof.
  replace (S (length h)) with (length (h ++ [o])%list) by (rewrite length_app; cbn; lia).
  apply heap_last.
Qed.

(** First half of C3: with a provider active, what [setGlobalProperties]
    was given is what [getGlobalProperties] reads next. *)
Lemma setGlobalProperties_contains (props : Props) (k : string) (v : JsValue) (w : World) :
  props !! k = Some v ->
  is_Some (active_countly w) \/ is_Some (active_posthog w) ->
  global_properties (setGlobalProperties props w) !! k = Some v.
Proof.
  intros Hk Hact.
  destruct_world w; cbn in Hact;
    try (destruct Hact as [[? ?]|[? ?]]; discriminate);
    cbn; unfold deref; cbn;
    rewrite ?heap_last_but_one, ?heap_last; cbn;
    rewrite lookup_spread, Hk; reflexivity.
Qed.

Lemma delete_spread_id (k : string) (c : Props) : spread c (delete k c) = c.
Proof.
  apply map_eq. intros j. rewrite lookup_spread.
  destruct (decide (k = j)) as [->|Hne].
  - by rewrite lookup_delete_eq.
  - rewrite lookup_delete_ne by done. by destruct (c !! j).
Qed.

(** With Countly active, [removeGlobalProperty] rebuilds the very context
    it started from: the copy without the key is merged back over the
    stored context, which still has it. *)
Lemma removeGlobalProperty_countly_noop (k : string) (w : World) :
  is_Some (active_countly w) ->
  (forall l, countly_store w = Some l -> l < length (heap (rt w))) ->
  (forall l, posthog_store w = Some l -> l < length (heap (rt w))) ->
  global_properties (removeGlobalProperty k w) = global_properties w.
Proof.
  intros [p Hact] Hc Hp.
  destruct (active_countly_Some w p Hact) as (Hcp & Hinit & lc & Hlc & Hsc).
  specialize (Hc lc Hsc).
  assert (Hgw : global_properties w = deref (rt w) lc).
  { unfold global_properties. by rewrite Hact, Hlc. }
  unfold removeGlobalProperty. rewrite Hact.
  rewrite CountlyProvider_getUserContext_spec, Hlc.
  cbn [fmap option_fmap option_map default]. unfold id.
  set (n := length (heap (rt w))).
  set (rt1 := (alloc (deref (rt w) lc) (rt w)).2).
  change (alloc (deref (rt w) lc) (rt w)) with (n, rt1).
  cbv iota beta.
  set (rt2 := store n (delete k (deref rt1 n)) rt1).
  destruct (CountlyProvider_setUserContext_spec p lc (deref rt2 n) rt2 Hinit Hlc)
    as (p' & Heq & Hl' & Hi').
  rewrite Heq.
  set (rt3 := (alloc (spread (deref rt2 lc) (deref rt2 n)) rt2).2).
  assert (Hn1 : length (heap rt1) = S n) by (subst rt1; apply alloc_length).
  assert (Hn2 : length (heap rt2) = S n) by (subst rt2; by rewrite store_length).
  assert (Hd1 : deref rt1 n = deref (rt w) lc) by (subst rt1 n; apply deref_alloc_new).
  assert (Hd2 : deref rt2 n = delete k (deref (rt w) lc)).
  { subst rt2. rewrite deref_store_eq by lia. by rewrite Hd1. }
  assert (Hd2c : deref rt2 lc = deref (rt w) lc).
  { subst rt2. rewrite deref_store_ne by lia. subst rt1. by apply deref_alloc_old. }
  assert (Hd3 : deref rt3 (S n) = deref (rt w) lc).
  { subst rt3. rewrite <- Hn2, deref_alloc_new, Hd2, Hd2c. apply delete_spread_id. }
  rewrite Hn2 in Hl'.
  set (w1 := set_countlyProvider (Some p') (set_rt rt3 w)).
  assert (Hac1 : forall r, active_countly (set_rt r w1) = Some p').
  { intros r. unfold active_countly. cbn. by rewrite Hi'. }
  assert (Hap1 : active_posthog w1 = active_posthog w) by reflexivity.
  rewrite Hap1, Hgw.
  destruct (active_posthog w) as [q|] eqn:Hq.
  - destruct (active_posthog_Some w q Hq) as (_ & Hqi & lp & Hlp & Hsp).
    specialize (Hp lp Hsp).
    rewrite (PostHogProvider_unregister_spec q lp k _ Hqi Hlp).
    unfold global_properties. rewrite Hac1, Hl'. cbn.
    rewrite deref_emit, deref_store_ne by lia. exact Hd3.
  - unfold global_properties.
    change w1 with (set_rt (rt w1) w1) at 1. rewrite Hac1, Hl'. cbn. exact Hd3.
Qed.

(** With only PostHog active the removal works: [unregister] deletes the
    key from the stored object itself. *)
Lemma removeGlobalProperty_posthog_only (k : string) (w : World) :
  active_countly w = None ->
  is_Some (active_posthog w) ->
  (forall l, posthog_store w = Some l -> l < length (heap (rt w))) ->
  global_properties (removeGlobalProperty k w) = delete k (global_properties w).
Proof.
  intros Hc [q Hq] Hp.
  destruct (active_posthog_Some w q Hq) as (_ & Hqi & lp & Hlp & Hsp).
  specialize (Hp lp Hsp).
  unfold removeGlobalProperty. rewrite Hc, Hq.
  rewrite (PostHogProvider_unregister_spec q lp k _ Hqi Hlp).
  unfold global_properties.
  change (active_countly (set_rt _ w)) with (active_countly w).
  change (active_posthog (set_rt _ w)) with (active_posthog w).
  rewrite Hc, Hq, Hlp. cbn.
  by rewrite deref_emit, deref_store_eq.
Qed.

(** Writing to a newly allocated object leaves every older object as it
    was. *)
Lemma write_to_copy_frame (rt : Runtime) (g o : Props) (l : loc) :
  l < length (heap rt) ->
  deref (store (length (heap rt)) o (alloc g rt).2) l = deref rt l.
Proof.
  intros Hl. rewrite deref_store_ne by lia. by apply deref_alloc_old.
Qed.

Lemma write_to_copy_length (rt : Runtime) (g o : Props) :
  length (heap (store (length (heap rt)) o (alloc g rt).2)) = S (length (heap rt)).
Proof. by rewrite store_length, alloc_length. Qed.

End GlobalProperties.
(** C10.  In every session the application can bring about,
    [getGlobalProperties] returns a new object holding the contents of the
    store it reads; whatever the application then writes into that object,
    both stores keep their contents, and a second [getGlobalProperties]
    returns the contents the first one returned.  The same holds for the
    proxies' [getUserContext] and [getRegisteredProperties]. *)
Theorem getGlobalProperties_returns_copy (s : Session) (o : Props) :
  reachable s ->
  let w := world s in
  let first := UnifiedAnalytics.getGlobalProperties w in
  let w2 := app_write first.1 o first.2 in
  let second := UnifiedAnalytics.getGlobalProperties w2 in
  deref (UnifiedAnalytics.rt first.2) first.1 = global_properties w
  /\ (forall l, countly_store w = Some l ->
        first.1 <> l /\ deref (UnifiedAnalytics.rt w2) l = deref (UnifiedAnalytics.rt w) l)
  /\ (forall l, posthog_store w = Some l ->
        first.1 <> l /\ deref (UnifiedAnalytics.rt w2) l = deref (UnifiedAnalytics.rt w) l)
  /\ deref (UnifiedAnalytics.rt second.2) second.1
      = deref (UnifiedAnalytics.rt first.2) first.1
  /\ (forall p, UnifiedAnalytics.countlyProvider (UnifiedAnalytics.this w) = Some p ->
        let r1 := CountlyProvider.getUserContext p (UnifiedAnalytics.rt w) in
        let r2 := CountlyProvider.getUserContext p (store r1.1 o r1.2) in
        deref r2.2 r2.1 = deref r1.2 r1.1)
  /\ (forall p, UnifiedAnalytics.posthogProvider (UnifiedAnalytics.this w) = Some p ->
        let r1 := PostHogProvider.getRegisteredProperties p (UnifiedAnalytics.rt w) in
        let r2 := PostHogProvider.getRegisteredProperties p (store r1.1 o r1.2) in
        deref r2.2 r2.1 = deref r1.2 r1.1).
Proof.
  intros Hreach w first w2 second.
  destruct (reachable_heap_ok s Hreach) as (Hc & Hp & _). fold w in Hc, Hp.
  set (n := length (heap (UnifiedAnalytics.rt w))) in *.
  assert (Hfirst : first = (n, UnifiedAnalytics.set_rt
                                (alloc (global_properties w) (UnifiedAnalytics.rt w)).2 w))
    by apply getGlobalProperties_spec.
  assert (H1 : deref (UnifiedAnalytics.rt first.2) first.1 = global_properties w).
  { rewrite Hfirst. cbn [fst snd UnifiedAnalytics.set_rt UnifiedAnalytics.rt].
    apply deref_alloc_new. }
  assert (Hframe : forall l, l < n ->
            deref (UnifiedAnalytics.rt w2) l = deref (UnifiedAnalytics.rt w) l).
  { intros l Hl. subst w2. rewrite Hfirst.
    cbn [fst snd app_write UnifiedAnalytics.set_rt UnifiedAnalytics.rt].
    by apply write_to_copy_frame. }
  assert (Hn : first.1 = n) by (by rewrite Hfirst).
  split; [exact H1|].
  split; [intros l Hl; specialize (Hc l Hl); split; [lia | by apply Hframe]|].
  split; [intros l Hl; specialize (Hp l Hl); split; [lia | by apply Hframe]|].
  split.
  - rewrite H1. subst second. rewrite getGlobalProperties_spec.
    cbn [fst snd UnifiedAnalytics.set_rt UnifiedAnalytics.rt].
    rewrite deref_alloc_new.
    apply global_properties_frame.
    + subst w2. by rewrite Hfirst.
    + intros l Hl. apply Hframe, Hc, Hl.
    + intros l Hl. apply Hframe, Hp, Hl.
  - split; intros p Hprov r1 r2; subst r1 r2.
    + rewrite !CountlyProvider_getUserContext_spec.
      rewrite !alloc_loc, !deref_alloc_new.
      destruct (CountlyProvider.context_loc p) as [l|] eqn:Hl; [|reflexivity].
      cbn. apply write_to_copy_frame. apply Hc.
      unfold countly_store. fold w. by rewrite Hprov.
    + rewrite !PostHogProvider_getRegisteredProperties_spec.
      rewrite !alloc_loc, !deref_alloc_new.
      destruct (PostHogProvider.registered_loc p) as [l|] eqn:Hl; [|reflexivity].
      cbn. apply write_to_copy_frame. apply Hp.
      unfold posthog_store. fold w. by rewrite Hprov.
Qed.

Lemma getGlobalProperties_returns_copy_witness :
  reachable Scenario.with_plan
  /\ let first := UnifiedAnalytics.getGlobalProperties (world Scenario.with_plan) in
     let second := UnifiedAnalytics.getGlobalProperties (app_write first.1 ∅ first.2) in
     deref (UnifiedAnalytics.rt second.2) second.1
     = deref (UnifiedAnalytics.rt first.2) first.1.
Proof.
  assert (Hreach : reachable Scenario.with_plan)
    by (apply reachable_step, reachable_step, reachable_start).
  split; [exact Hreach|].
  destruct (getGlobalProperties_returns_copy Scenario.with_plan ∅ Hreach)
    as (_ & _ & _ & H & _).
  exact H.
Defined.

(** ** Screen-view overrides *)

Section Overrides.

Import UnifiedAnalytics.




Lemma trackEvent_this n p w : this (trackEvent n p w) = this w.
Proof.
  unfold trackEvent, trackEventToProviders. repeat case_match; reflexivity.
Qed.




Lemma trackView_overrides n p w : overrides (trackView n p w) = overrides w.
Proof. unfold overrides. by rewrite trackView_this. Qed.

Lemma overrides_set_routeNameRef r w : overrides (set_routeNameRef r w) = overrides w.
Proof. reflexivity. Qed.

Lemma overrides_set_screenViewOverrides m w : overrides (set_screenViewOverrides m w) = m.
Proof. reflexivity. Qed.

(** A transition arriving at [r] leaves the entries of every other screen
    alone, and never adds one. *)
Lemma onStateChange_overrides r w :
  overrides (onStateChange r w) = overrides w
  \/ exists name, r = Some name /\ overrides (onStateChange r w) = delete name (overrides w).
Proof.
  unfold onStateChange. cbv zeta. rewrite overrides_set_routeNameRef.
  destruct r as [name|]; [|rewrite andb_false_r; by left].
  destruct (_ && _); [|by left].
  change (default "" (Some name)) with name.
  destruct (truthy_string (screenViewOverrides (this w) !! name)).
  - right. exists name. split; [done|].
    rewrite overrides_set_screenViewOverrides.
    fold (overrides (trackView (default "" (screenViewOverrides (this w) !! name)) None w)).
    by rewrite trackView_overrides.
  - left. apply trackView_overrides.
Qed.




Lemma tracked_view_trackView (n : string) (w : World) :
  _trackScreenViews (this w) = true -> tracked_view n w (trackView n None w).
Proof.
  intros Hon.
  destruct (trackView_enabled n None w Hon) as (cs & (Ht & Hp & Hh & Hs) & Hone & Hnamed).
  exists cs. repeat split; [exact Hs | exact Hh | apply Hone | apply Hone | by apply Hnamed].
Qed.

End Overrides.

Section Transitions.

Import UnifiedAnalytics.

Lemma tracked_view_rt (n : string) (w w1 w1' : World) :
  rt w1' = rt w1 -> tracked_view n w w1 -> tracked_view n w w1'.
Proof. intros Hrt (cs & H). exists cs. by rewrite Hrt. Qed.

Lemma onStateChange_flag r w :
  _trackScreenViews (this (onStateChange r w)) = _trackScreenViews (this w).
Proof.
  unfold onStateChange. cbv zeta.
  repeat case_match; cbn; by rewrite ?trackView_this.
Qed.

Lemma onStateChange_route r w : routeNameRef (this (onStateChange r w)) = r.
Proof. reflexivity. Qed.


(** A transition arriving at [s], from elsewhere, with no override
    registered for [s] and tracking enabled. *)
Lemma transition_without_override (s : string) (h : WebNavigationHandlers) (w : World) :
  s <> "" ->
  overrides w !! s = None ->
  _trackScreenViews (this w) = true ->
  routeNameRef (this w) <> Some s ->
  previousPath h <> Some s ->
  (tracked_view s w (onStateChange (Some s) w)
   /\ overrides (onStateChange (Some s) w) = overrides w)
  /\ (tracked_view s w (onRouteChange s h w).2
      /\ overrides (onRouteChange s h w).2 = overrides w).
Proof.
  intros Hs Hreg Hon Hprev Hprev'.
  rewrite (onStateChange_plain s w Hs Hprev Hreg).
  rewrite (onRouteChange_plain s h w Hs Hprev' Hreg). cbn [snd].
  pose proof (tracked_view_trackView s w Hon) as Htv.
  repeat split.
  - eapply tracked_view_rt; [|exact Htv]. reflexivity.
  - unfold overrides. cbn. by rewrite trackView_this.
  - exact Htv.
  - apply trackView_overrides.
Qed.

End Transitions.

(** ** The tracking flag *)

Section TrackingFlag.

Import UnifiedAnalytics.




End TrackingFlag.




(** C9, as amended.  Let [s] and [custom] be non-empty.  If tracking is
    disabled when a navigation transition arrives at [s] from another
    route while [custom] is registered for [s], nothing is tracked and no
    stored object changes, yet the entry is deleted; re-enabling tracking
    does not bring it back, and the next transition arriving at [s] tracks
    the view under the name [s]. *)
Theorem override_lost_while_disabled
    (w : UnifiedAnalytics.World) (h : UnifiedAnalytics.WebNavigationHandlers)
    (s custom : string) (r : option string) :
  s <> "" -> custom <> "" ->
  overrides w !! s = Some custom ->
  UnifiedAnalytics._trackScreenViews (UnifiedAnalytics.this w) = false ->
  UnifiedAnalytics.routeNameRef (UnifiedAnalytics.this w) <> Some s ->
  UnifiedAnalytics.previousPath h <> Some s ->
  r <> Some s ->
  let w1 := UnifiedAnalytics.onStateChange (Some s) w in
  let w1' := (UnifiedAnalytics.onRouteChange s h w).2 in
  let reenabled := UnifiedAnalytics.setTrackScreenViews true w1 in
  let elsewhere := UnifiedAnalytics.onStateChange r reenabled in
  (UnifiedAnalytics.rt w1 = UnifiedAnalytics.rt w /\ overrides w1 = delete s (overrides w))
  /\ (UnifiedAnalytics.rt w1' = UnifiedAnalytics.rt w
      /\ overrides w1' = delete s (overrides w))
  /\ overrides reenabled !! s = None
  /\ overrides (UnifiedAnalytics.setTrackScreenViews true w1') !! s = None
  /\ tracked_view s elsewhere (UnifiedAnalytics.onStateChange (Some s) elsewhere).
Proof.
  intros Hs Hc Hreg Hoff Hprev Hprev' Hr w1 w1' reenabled elsewhere.
  assert (H1 : UnifiedAnalytics.rt w1 = UnifiedAnalytics.rt w
               /\ overrides w1 = delete s (overrides w)).
  { subst w1. rewrite (onStateChange_override s custom w Hs Hc Hprev Hreg).
    rewrite (trackView_disabled custom None w Hoff). by split. }
  assert (H1' : UnifiedAnalytics.rt w1' = UnifiedAnalytics.rt w
                /\ overrides w1' = delete s (overrides w)).
  { subst w1'. rewrite (onRouteChange_override s custom h w Hs Hc Hprev' Hreg).
    cbn [snd]. rewrite (trackView_disabled custom None w Hoff). by split. }
  assert (Hgone : overrides reenabled !! s = None).
  { subst reenabled. change (overrides (UnifiedAnalytics.setTrackScreenViews true w1))
      with (overrides w1). rewrite (proj2 H1). apply lookup_delete_eq. }
  split; [exact H1|]. split; [exact H1'|]. split; [exact Hgone|]. split.
  - change (overrides (UnifiedAnalytics.setTrackScreenViews true w1')) with (overrides w1').
    rewrite (proj2 H1'). apply lookup_delete_eq.
  - apply (transition_without_override s UnifiedAnalytics.createWebNavigationHandlers).
    + exact Hs.
    + subst elsewhere.
      destruct (onStateChange_overrides r reenabled) as [->|(name & _ & ->)]; [exact Hgone|].
      destruct (decide (name = s)) as [->|];
        [apply lookup_delete_eq | by rewrite lookup_delete_ne].
    + subst elsewhere. by rewrite onStateChange_flag.
    + subst elsewhere. by rewrite onStateChange_route.
    + discriminate.
Qed.

Lemma override_lost_while_disabled_witness :
  let w := UnifiedAnalytics.setTrackScreenViews false Scenario.login_overridden in
  let w1 := UnifiedAnalytics.onStateChange (Some "Login") w in
  overrides w !! "Login" = Some "Login-Custom"
  /\ UnifiedAnalytics.rt w1 = UnifiedAnalytics.rt w
  /\ overrides (UnifiedAnalytics.setTrackScreenViews true w1) !! "Login" = None.
Proof.
  cbv zeta. split; [vm_compute; reflexivity|].
  destruct (override_lost_while_disabled
              (UnifiedAnalytics.setTrackScreenViews false Scenario.login_overridden)
              UnifiedAnalytics.createWebNavigationHandlers
              "Login" "Login-Custom" (Some "Home"))
    as ((H1 & _) & _ & H3 & _).
  - discriminate.
  - discriminate.
  - vm_compute. reflexivity.
  - vm_compute. reflexivity.
  - vm_compute. discriminate.
  - vm_compute. discriminate.
  - discriminate.
  - split; [exact H1 | exact H3].
Defined.

Section Removal.

Import UnifiedAnalytics.

Lemma setGlobalProperties_keeps_countly (props : Props) (w : World) :
  countly_active w = true -> countly_active (setGlobalProperties props w) = true.
Proof. destruct_world w; cbn; done. Qed.

End Removal.

(** C3: the code departs from the claim.  In every session the
    application can bring about in which Countly is active: after
    [setGlobalProperties] with a mapping that has [k] at [v],
    [getGlobalProperties] returns a mapping with [k] at [v], as claimed;
    but after a following [removeGlobalProperty(k)] it still does.  The
    copy from which [k] was deleted is handed to [setUserContext], which
    merges it over the stored context instead of replacing it. *)
Theorem removeGlobalProperty_keeps_key_with_countly
    (s : Session) (props : Props) (k : string) (v : JsValue) :
  reachable s ->
  UnifiedAnalytics.countly_active (world s) = true ->
  props !! k = Some v ->
  let w1 := UnifiedAnalytics.setGlobalProperties props (world s) in
  let w2 := UnifiedAnalytics.removeGlobalProperty k w1 in
  let before := UnifiedAnalytics.getGlobalProperties w1 in
  let after := UnifiedAnalytics.getGlobalProperties w2 in
  deref (UnifiedAnalytics.rt before.2) before.1 !! k = Some v
  /\ deref (UnifiedAnalytics.rt after.2) after.1 !! k = Some v.
Proof.
  intros Hreach Hact Hk w1 w2 before after.
  assert (Hact0 : is_Some (UnifiedAnalytics.active_countly (world s)))
    by (by apply bool_decide_eq_true in Hact).
  assert (Hw1 : global_properties w1 !! k = Some v).
  { apply setGlobalProperties_contains; [exact Hk | by left]. }
  assert (Hread : forall w, deref (UnifiedAnalytics.rt (UnifiedAnalytics.getGlobalProperties w).2)
                              (UnifiedAnalytics.getGlobalProperties w).1
                            = global_properties w).
  { intros w. rewrite getGlobalProperties_spec. apply deref_alloc_new. }
  subst before after. rewrite !Hread. split; [exact Hw1|].
  pose proof (reachable_step Scenario.calm (OpSetGlobalProperties props) s Hreach) as Hr1.
  destruct (reachable_heap_ok _ Hr1) as (Hc & Hp & _).
  cbn [step world] in Hc, Hp. fold w1 in Hc, Hp.
  subst w2. rewrite removeGlobalProperty_countly_noop; [exact Hw1 | | exact Hc | exact Hp].
  pose proof (setGlobalProperties_keeps_countly props (world s) Hact) as Hact1.
  fold w1 in Hact1. by apply bool_decide_eq_true in Hact1.
Qed.

Lemma removeGlobalProperty_keeps_key_with_countly_witness :
  reachable (step Scenario.calm (OpInit Scenario.countly_only) session_start)
  /\ let w1 := UnifiedAnalytics.setGlobalProperties {[ "plan" := JsString "pro" ]}
                 Scenario.with_countly in
     let after := UnifiedAnalytics.getGlobalProperties
                    (UnifiedAnalytics.removeGlobalProperty "plan" w1) in
     deref (UnifiedAnalytics.rt after.2) after.1 !! "plan" = Some (JsString "pro").
Proof.
  split; [apply reachable_step, reachable_start|].
  apply (removeGlobalProperty_keeps_key_with_countly
           (step Scenario.calm (OpInit Scenario.countly_only) session_start)
           {[ "plan" := JsString "pro" ]} "plan" (JsString "pro")).
  - apply reachable_step, reachable_start.
  - reflexivity.
  - reflexivity.
Defined.

(** With PostHog alone the same sequence does remove the key. *)
Example removeGlobalProperty_works_with_posthog :
  let w1 := UnifiedAnalytics.setGlobalProperties {[ "plan" := JsString "pro" ]}
              Scenario.with_posthog in
  global_properties w1 !! "plan" = Some (JsString "pro")
  /\ global_properties (UnifiedAnalytics.removeGlobalProperty "plan" w1) !! "plan" = None.
Proof. split; vm_compute; reflexivity. Qed.

(** C5 as stated fails on a stored [undefined]: the key [a] is in the
    stored context only, and the event goes out without it. *)
Lemma undefined_context_key_not_sent :
  let w := UnifiedAnalytics.setGlobalProperties {[ "a" := JsUndefined ]}
             Scenario.with_countly in
  global_properties w !! "a" = Some JsUndefined
  /\ drop (length (sdk (UnifiedAnalytics.rt w)))
       (sdk (UnifiedAnalytics.rt (UnifiedAnalytics.trackEvent "signup" None w)))
     = [Countly_add_event "signup" ∅].
Proof. split; vm_compute; reflexivity. Qed.


(** C9 as stated fails on an empty substitute name, and on an empty
    screen name: with tracking disabled the transition leaves the entry
    registered. *)
Lemma empty_override_survives_disabled_transition :
  let off := UnifiedAnalytics.setTrackScreenViews false Scenario.with_countly in
  let w := UnifiedAnalytics.setScreenViewOverride "Login" "" off in
  let v := UnifiedAnalytics.setScreenViewOverride "" "Root" off in
  overrides (UnifiedAnalytics.onStateChange (Some "Login") w) !! "Login" = Some ""
  /\ overrides (UnifiedAnalytics.onStateChange (Some "") v) !! "" = Some "Root".
Proof. split; vm_compute; reflexivity. Qed.


(** * Further properties of the code *)

(** * Further properties of the code *)

(** ** The platform *)

Section PlatformFacts.

Import Platform.

Lemma parse_name (p : PlatformName) : parse (name p) = Some p.
Proof. by destruct p. Qed.

Lemma parse_Some (given : string) (p : PlatformName) :
  parse given = Some p -> given = name p.
Proof.
  unfold parse. destruct (String.eqb_spec given "web") as [->|_].
  - by intros [= <-].
  - destruct (String.eqb_spec given "native") as [->|_]; [by intros [= <-] | discriminate].
Qed.

Lemma parse_None (given : string) :
  parse given = None <-> given <> "web" /\ given <> "native".
Proof.
  unfold parse. destruct (String.eqb_spec given "web") as [->|Hw].
  - split; [discriminate | by intros [? _]].
  - destruct (String.eqb_spec given "native") as [->|Hn].
    + split; [discriminate | by intros [_ ?]].
    + by split.
Qed.

End PlatformFacts.

(** X1.  [setPlatform] accepts the two strings ["web"] and ["native"]
    and nothing else (no other spelling or case).  Once it has accepted
    one, [getPlatform] answers it on whatever host the code runs, without
    changing anything; a refused string throws and leaves the platform
    as it was. *)
Theorem setPlatform_then_getPlatform (given : string) (env : Env) (rt : Runtime) :
  match Platform.setPlatform given rt with
  | (Returns _, rt') =>
      exists p, given = Platform.name p
                /\ Platform.getPlatform env rt' = (p, rt')
                /\ heap rt' = heap rt /\ sdk rt' = sdk rt
  | (Throws e, rt') =>
      given <> "web" /\ given <> "native"
      /\ e = Platform.InvalidPlatform given /\ rt' = rt
  end.
Proof.
  unfold Platform.setPlatform.
  destruct (Platform.parse given) as [p|] eqn:Hp.
  - exists p. split; [by apply parse_Some|]. by repeat split.
  - apply parse_None in Hp as [? ?]. by repeat split.
Qed.

(** X2.  The platform is detected at most once: whatever the first
    [getPlatform] answered is what every later [getPlatform] answers,
    also on a host that would be detected differently, and the later
    calls change nothing.  [isWeb] and [isNative] report that answer and
    are never both true or both false. *)
Theorem getPlatform_detects_once (env env' : Env) (rt : Runtime) :
  let first := Platform.getPlatform env rt in
  Platform.getPlatform env' first.2 = first
  /\ Platform.getPlatform env' (Platform.getPlatform env' first.2).2 = first
  /\ ((Platform.isWeb env' first.2).1 = true <-> first.1 = web)
  /\ ((Platform.isNative env' first.2).1 = true <-> first.1 = native)
  /\ (Platform.isWeb env' first.2).1 = negb (Platform.isNative env' first.2).1
  /\ (Platform.isWeb env' first.2).2 = first.2
  /\ (Platform.isNative env' first.2).2 = first.2.
Proof.
  unfold Platform.isWeb, Platform.isNative, Platform.getPlatform.
  destruct rt as [[[]|] h s]; cbn;
    [| |destruct (autoDetectPlatform env); cbn]; repeat split; done.
Qed.

(** ** Validation of the configuration *)

Section ValidationReport.

Import Helpers.

Lemma elem_of_push (errors : list string) (message m : string) :
  m ∈ push errors message <-> m ∈ errors \/ m = message.
Proof. unfold push. rewrite elem_of_app, list_elem_of_singleton. tauto. Qed.

End ValidationReport.

(** X3.  [validateConfig] reports every problem of a configuration, not
    only the first: each of its four messages is in the error list
    exactly when its condition holds (a required field counts as missing
    also when it is the empty string), no message is listed twice, and
    the configuration is valid exactly when the list is empty. *)
Theorem validateConfig_reports_each_problem (cfg : AnalyticsConfig) :
  let report := Helpers.validateConfig cfg in
  ("At least one provider (countly or posthog) must be configured" ∈ Helpers.errors report
     <-> countly cfg = None /\ posthog cfg = None)
  /\ ("countly.serverUrl is required" ∈ Helpers.errors report
        <-> exists c, countly cfg = Some c /\ truthy_string (serverUrl c) = false)
  /\ ("countly.appKey is required" ∈ Helpers.errors report
        <-> exists c, countly cfg = Some c /\ truthy_string (appKey c) = false)
  /\ ("posthog.apiKey is required" ∈ Helpers.errors report
        <-> exists p, posthog cfg = Some p /\ truthy_string (apiKey p) = false)
  /\ NoDup (Helpers.errors report)
  /\ (Helpers.valid report = true <-> Helpers.errors report = []).
Proof.
  unfold Helpers.validateConfig, Helpers.push.
  destruct cfg as [pl dbg tsv [[su ak cd]|] [[ap ho pd]|]]; cbn;
    repeat (match goal with
            | |- context [truthy_string ?x] => destruct (truthy_string x) eqn:?
            end; cbn).
  all: repeat match goal with |- _ /\ _ => split end.
  all: try (apply NoDup_nil_2 || (repeat (apply NoDup_cons; split;
              [intros H; repeat (apply elem_of_cons in H as [H|H]; [discriminate|]);
               by apply not_elem_of_nil in H|]); apply NoDup_nil_2)).
  all: try (split; [done | by intros []]).
  all: split; intros H.
  all: try (repeat (apply elem_of_cons in H as [H|H]; [try discriminate|]);
            try (by apply not_elem_of_nil in H)).
  all: try (destruct H as (c & [= <-] & Hc); cbn in Hc; congruence).
  all: try (destruct H; discriminate).
  all: try (eexists; split; [reflexivity | cbn; assumption]).
  all: try by repeat constructor.
  all: done.
Qed.

(** ** [deepMerge] *)

Section DeepMerge.

Import Helpers.

Implicit Types (fields target source : list (string * JsValue)) (key k : string).

Lemma get_set_field_eq key value fields :
  get_field key (set_field key value fields) = value.
Proof.
  induction fields as [|[k0 v0] rest IH]; cbn.
  - by rewrite String.eqb_refl.
  - destruct (String.eqb_spec k0 key) as [->|Hne]; cbn.
    + by rewrite String.eqb_refl.
    + by destruct (String.eqb_spec k0 key).
Qed.

Lemma get_set_field_ne key k value fields :
  key <> k -> get_field k (set_field key value fields) = get_field k fields.
Proof.
  intros Hne. induction fields as [|[k0 v0] rest IH]; cbn.
  - by destruct (String.eqb_spec key k).
  - destruct (String.eqb_spec k0 key) as [->|Hk]; cbn.
    + by destruct (String.eqb_spec key k).
    + by rewrite IH.
Qed.

Lemma get_field_absent key fields :
  key ∉ field_keys fields -> get_field key fields = JsUndefined.
Proof.
  induction fields as [|[k0 v0] rest IH]; cbn; [done|].
  intros Hn. apply not_elem_of_cons in Hn as [Hne Hn].
  destruct (String.eqb_spec k0 key) as [->|_]; [done | by apply IH].
Qed.

Lemma set_field_same key value fields :
  get_field key fields = value -> value <> JsUndefined ->
  set_field key value fields = fields.
Proof.
  intros Hget Hdef. induction fields as [|[k0 v0] rest IH]; cbn in *.
  - congruence.
  - destruct (String.eqb_spec k0 key) as [->|_]; [by subst | by rewrite IH].
Qed.

Lemma field_keys_set_field key value fields k :
  k ∈ field_keys (set_field key value fields) <-> k ∈ field_keys fields \/ k = key.
Proof.
  unfold field_keys. induction fields as [|[k0 v0] rest IH]; cbn.
  - rewrite list_elem_of_singleton. split; [by right | intros [H|H]; [by apply not_elem_of_nil in H | done]].
  - destruct (String.eqb_spec k0 key) as [->|_]; cbn.
    + rewrite !elem_of_cons. tauto.
    + rewrite !elem_of_cons, IH. tauto.
Qed.

(** [deepMerge] is its loop: the fields of the source, in order, worked
    into the copy of the target. *)
Lemma deepMerge_fold target source :
  deepMerge target source = deepMerge_loop source source target.
Proof.
  unfold deepMerge. cbn [deepMerge_from].
  match goal with |- ?f source target = _ => set (loop := f) end.
  assert (H : forall entries result, loop entries result = deepMerge_loop source entries result).
  { induction entries as [|[k v] rest IH]; intros result; [done|].
    cbn [deepMerge_loop]. unfold deepMerge_step, deepMerge.
    subst loop. cbn [fst snd]. cbv beta.
    case_bool_decide; [done|].
    destruct v; try apply IH.
    destruct (get_field k result); try apply IH.
    destruct (deepMerge_from _ _); [apply IH | done]. }
  apply H.
Qed.

Lemma deepMerge_throws target source :
  "hasOwnProperty" ∈ field_keys source ->
  deepMerge target source = Throws (TypeError "source.hasOwnProperty is not a function").
Proof.
  intros Hin. rewrite deepMerge_fold.
  destruct source as [|kv rest]; [by apply not_elem_of_nil in Hin|].
  cbn [deepMerge_loop]. unfold deepMerge_step. by rewrite bool_decide_true.
Qed.

(** A turn of the loop, given what [merged_value] says of its key. *)
Lemma deepMerge_step_returns source result k v mv :
  "hasOwnProperty" ∉ field_keys source ->
  merged_value v (get_field k result) = Returns mv ->
  deepMerge_step source result (k, v)
    = Returns (match v with JsUndefined => result | _ => set_field k mv result end).
Proof.
  intros Hplain. unfold deepMerge_step, merged_value. cbn [fst snd].
  rewrite bool_decide_false by done.
  destruct v; try (by intros [= <-]).
  destruct (get_field k result); try (by intros [= <-]).
  destruct (deepMerge _ _); [by intros [= <-] | discriminate].
Qed.

Lemma merged_value_undefined v mv : merged_value JsUndefined v = Returns mv -> mv = v.
Proof. by intros [= <-]. Qed.

Lemma merged_value_defined v tv mv :
  v <> JsUndefined -> merged_value v tv = Returns mv -> mv <> JsUndefined.
Proof.
  unfold merged_value. intros Hv.
  destruct v; try done; try (by intros [= <-]).
  destruct tv; try (by intros [= <-]).
  destruct (deepMerge _ _); [by intros [= <-] | discriminate].
Qed.

Lemma get_field_step k0 v mv result k :
  (v = JsUndefined -> mv = get_field k0 result) ->
  get_field k (match v with JsUndefined => result | _ => set_field k0 mv result end)
    = if String.eqb k0 k then mv else get_field k result.
Proof.
  intros Hu. destruct (String.eqb_spec k0 k) as [->|Hne].
  - destruct v; rewrite ?get_set_field_eq; try reflexivity. by rewrite Hu.
  - destruct v; rewrite ?get_set_field_ne by done; reflexivity.
Qed.

Lemma field_keys_step k0 v mv result k :
  k ∈ field_keys (match v with JsUndefined => result | _ => set_field k0 mv result end)
  <-> k ∈ field_keys result \/ (k = k0 /\ v <> JsUndefined).
Proof.
  destruct v;
    try (rewrite field_keys_set_field;
         split; intros [?|?]; [by left | by right | by left | right; tauto]).
  split; [by left | intros [?|[_ ?]]; done].
Qed.

Lemma get_field_elem_of k v source :
  NoDup (field_keys source) -> (k, v) ∈ source -> get_field k source = v.
Proof.
  induction source as [|[k0 v0] rest IH]; intros Hnd Hin; [by apply not_elem_of_nil in Hin|].
  apply NoDup_cons in Hnd as [Hk0 Hnd]. cbn.
  apply elem_of_cons in Hin as [[= -> ->]|Hin].
  - by rewrite String.eqb_refl.
  - destruct (String.eqb_spec k0 k) as [->|_]; [|by apply IH].
    exfalso. apply Hk0. unfold field_keys. apply list_elem_of_fmap. by exists (k, v).
Qed.

(** Induction on a value through the fields of its objects. *)
Lemma JsValue_fields_ind (P : JsValue -> Prop) :
  (forall v, (forall fields kv, v = JsObject fields -> kv ∈ fields -> P (snd kv)) -> P v) ->
  forall v, P v.
Proof.
  intros H. fix IH 1. intros v. apply H.
  destruct v as [| | | | | items | fields0]; try (intros fields kv Heq; discriminate).
  assert (Hall : Forall (fun kv => P (snd kv)) fields0).
  { induction fields0 as [|kv0 rest IHrest]; [constructor|].
    constructor; [apply IH | apply IHrest]. }
  intros fields kv Heq Hin. injection Heq as <-.
  rewrite Forall_forall in Hall. by apply Hall.
Qed.

Lemma get_field_in k v source :
  get_field k source = v -> v <> JsUndefined -> (k, v) ∈ source.
Proof.
  induction source as [|[k0 v0] rest IH]; cbn; [congruence|].
  destruct (String.eqb_spec k0 k) as [->|_].
  - intros -> _. by left.
  - intros Hg Hv. right. by apply IH.
Qed.

Lemma mergeable_object fields :
  mergeable (JsObject fields) = true ->
  NoDup (field_keys fields)
  /\ ("hasOwnProperty" ∉ field_keys fields)
  /\ forall kv, kv ∈ fields -> mergeable (snd kv) = true.
Proof.
  cbn [mergeable]. intros H. apply andb_prop in H as [Hnd Hall].
  rewrite forallb_forall in Hall.
  split; [by apply bool_decide_eq_true in Hnd|]. split.
  - intros Hin. apply list_elem_of_fmap in Hin as (kv & Hk & Hin).
    apply list_elem_of_In, Hall in Hin.
    apply andb_prop in Hin as [Hin _]. apply andb_prop in Hin as [Hin _].
    rewrite <- Hk in Hin. by rewrite String.eqb_refl in Hin.
  - intros kv Hin. apply list_elem_of_In, Hall in Hin.
    by apply andb_prop in Hin as [_ Hin].
Qed.

(** On a mergeable source [deepMerge] returns, and its result is read key
    by key from the two arguments. *)
Lemma deepMerge_spec (sourceValue : JsValue) :
  forall source, sourceValue = JsObject source -> mergeable sourceValue = true ->
  forall target, exists result,
    deepMerge target source = Returns result
    /\ (forall k, merged_value (get_field k source) (get_field k target)
                  = Returns (get_field k result))
    /\ (forall k, k ∈ field_keys result
                  <-> k ∈ field_keys target
                      \/ (k ∈ field_keys source /\ get_field k source <> JsUndefined)).
Proof.
  induction sourceValue as [sourceValue IH] using JsValue_fields_ind.
  intros source -> Hm. apply mergeable_object in Hm as (Hnd & Hplain & Hall).
  assert (Hmv : forall kv tv, kv ∈ source -> exists mv, merged_value (snd kv) tv = Returns mv).
  { intros [k v] tv Hin. unfold merged_value. cbn [snd].
    destruct v as [| | | | | |sf]; try (by eexists).
    destruct tv as [| | | | | |tf]; try (by eexists).
    destruct (IH source (k, JsObject sf) eq_refl Hin sf eq_refl (Hall _ Hin) tf)
      as (m & -> & _). by eexists. }
  assert (Hloop : forall entries,
            (forall kv, kv ∈ entries -> kv ∈ source) -> NoDup (field_keys entries) ->
            forall target, exists result,
              deepMerge_loop source entries target = Returns result
              /\ (forall k, merged_value (get_field k entries) (get_field k target)
                            = Returns (get_field k result))
              /\ (forall k, k ∈ field_keys result
                            <-> k ∈ field_keys target
                                \/ (k ∈ field_keys entries
                                    /\ get_field k entries <> JsUndefined))).
  { induction entries as [|[k0 v] rest IHrest]; intros Hsub Hnd' target.
    - exists target. split; [done|]. split; [done|].
      intros k. split; [by left|]. intros [?|[Hin _]]; [done|].
      by apply not_elem_of_nil in Hin.
    - apply NoDup_cons in Hnd' as [Hk0 Hnd'].
      destruct (Hmv (k0, v) (get_field k0 target)) as (mv & Hmv0); [apply Hsub; by left|].
      cbn [snd] in Hmv0.
      cbn [deepMerge_loop].
      rewrite (deepMerge_step_returns source target k0 v mv Hplain Hmv0).
      set (target1 := match v with JsUndefined => target | _ => set_field k0 mv target end).
      destruct (IHrest (fun kv Hin => Hsub kv (list_elem_of_further _ _ _ Hin)) Hnd' target1)
        as (result & Hres & Hget & Hkeys).
      assert (Hu : v = JsUndefined -> mv = get_field k0 target).
      { intros ->. by apply merged_value_undefined in Hmv0. }
      exists result. split; [exact Hres|]. split.
      + intros k. rewrite <- Hget. subst target1.
        rewrite (get_field_step k0 v mv target k Hu). cbn [get_field fst snd].
        destruct (String.eqb_spec k0 k) as [->|Hne]; [|done].
        rewrite (get_field_absent k rest Hk0). by rewrite Hmv0.
      + intros k. rewrite Hkeys. subst target1. rewrite field_keys_step.
        cbn [field_keys map get_field fst snd]. fold (field_keys rest).
        rewrite elem_of_cons.
        destruct (String.eqb_spec k0 k) as [->|Hne].
        * split.
          -- intros [[?|[_ ?]]|[Hin _]]; [by left | right; split; [by left|done] | done].
          -- intros [?|[_ ?]]; [by left; left | left; right; done].
        * split.
          -- intros [[?|[-> _]]|[Hin Hv]]; [by left | done | right; split; [by right|done]].
          -- intros [?|[[->|Hin] Hv]]; [by left; left | done | right; done]. }
  intros target. rewrite deepMerge_fold. by apply Hloop.
Qed.

(** Merging a mergeable source into what it has been merged into, or
    into itself, changes nothing. *)
Lemma deepMerge_fixed (sourceValue : JsValue) :
  forall source, sourceValue = JsObject source -> mergeable sourceValue = true ->
    (forall target result,
        deepMerge target source = Returns result -> deepMerge result source = Returns result)
    /\ deepMerge source source = Returns source.
Proof.
  induction sourceValue as [sourceValue IH] using JsValue_fields_ind.
  intros source -> Hm. pose proof Hm as Hm'.
  apply mergeable_object in Hm as (Hnd & Hplain & Hall).
  assert (Hfix : forall result,
            (forall k, merged_value (get_field k source) (get_field k result)
                       = Returns (get_field k result)) ->
            deepMerge result source = Returns result).
  { intros result Hres. rewrite deepMerge_fold.
    assert (Hloop : forall entries, (forall kv, kv ∈ entries -> kv ∈ source) ->
              deepMerge_loop source entries result = Returns result).
    { induction entries as [|[k v] rest IHrest]; intros Hsub; [done|].
      cbn [deepMerge_loop].
      pose proof (Hres k) as Hk.
      rewrite (get_field_elem_of k v source Hnd (Hsub _ (list_elem_of_here _ _))) in Hk.
      rewrite (deepMerge_step_returns source result k v _ Hplain Hk).
      replace (match v with
               | JsUndefined => result
               | _ => set_field k (get_field k result) result
               end) with result.
      - apply IHrest. intros kv Hin. apply Hsub. by right.
      - assert (Hdef : v <> JsUndefined -> get_field k result <> JsUndefined)
          by (intros Hv; by apply (merged_value_defined v _ _ Hv Hk)).
        destruct v; try reflexivity;
          by rewrite (set_field_same k (get_field k result) result eq_refl
                        (Hdef ltac:(discriminate))). }
    by apply Hloop. }
  assert (Hself : deepMerge source source = Returns source).
  { apply Hfix. intros k.
    destruct (get_field k source) as [| | | | | |sf] eqn:Hg; try reflexivity.
    pose proof (get_field_in k _ source Hg ltac:(discriminate)) as Hin.
    destruct (IH source (k, JsObject sf) eq_refl Hin sf eq_refl (Hall _ Hin)) as [_ Hs].
    unfold merged_value. by rewrite Hs. }
  split; [|exact Hself].
  intros target result Hres. apply Hfix. intros k.
  destruct (deepMerge_spec (JsObject source) source eq_refl Hm' target)
    as (result' & Hres' & Hget & _).
  rewrite Hres in Hres'. injection Hres' as <-.
  specialize (Hget k).
  destruct (get_field k source) as [| | | | | |sf] eqn:Hg;
    try reflexivity; try (injection Hget as <-; reflexivity).
  pose proof (get_field_in k _ source Hg ltac:(discriminate)) as Hin.
  destruct (IH source (k, JsObject sf) eq_refl Hin sf eq_refl (Hall _ Hin)) as [Htw Hs].
  unfold merged_value in Hget |- *.
  destruct (get_field k target) as [| | | | | |tf];
    try (injection Hget as <-; by rewrite Hs).
  destruct (deepMerge tf sf) as [m|e] eqn:Hm0; [|discriminate].
  injection Hget as <-. by rewrite (Htw tf m Hm0).
Qed.

End DeepMerge.

(** X4.  [deepMerge(target, source)] throws a [TypeError] when the
    source has a key of its own named [hasOwnProperty], whatever the
    target.  On a mergeable source it returns, and its result reads key
    by key: under each key it holds the merge of the two values when both
    are plain objects; the target's value when the source has [undefined]
    there or lacks the key; the source's value in every other case
    ([null] and arrays included, which replace and are not merged).  The
    result has the keys of the target, and those of the source that carry
    a value other than [undefined]. *)
Theorem deepMerge_key_by_key (target source : list (string * JsValue)) (key : string) :
  ("hasOwnProperty" ∈ field_keys source ->
   Helpers.deepMerge target source
   = Throws (TypeError "source.hasOwnProperty is not a function"))
  /\ (mergeable (JsObject source) = true ->
      exists result,
        Helpers.deepMerge target source = Returns result
        /\ merged_value (get_field key source) (get_field key target)
           = Returns (get_field key result)
        /\ (key ∈ field_keys result
            <-> key ∈ field_keys target
                \/ (key ∈ field_keys source /\ get_field key source <> JsUndefined))).
Proof.
  split; [apply deepMerge_throws|].
  intros Hm.
  destruct (deepMerge_spec (JsObject source) source eq_refl Hm target)
    as (result & Hres & Hget & Hkeys).
  exists result. split; [exact Hres|]. split; [apply Hget | apply Hkeys].
Qed.

Lemma deepMerge_key_by_key_witness :
  let target := [("theme", JsObject [("dark", JsBool true); ("font", JsNumber 12)]);
                 ("tags", JsArray [JsString "a"])] in
  let source := [("theme", JsObject [("font", JsNumber 14)]);
                 ("tags", JsArray [JsString "b"]);
                 ("user", JsUndefined)] in
  exists result,
    Helpers.deepMerge target source = Returns result
    /\ get_field "theme" result = JsObject [("dark", JsBool true); ("font", JsNumber 14)]
    /\ ("user" ∉ field_keys result)
    /\ Helpers.deepMerge target [("hasOwnProperty", JsNull)]
       = Throws (TypeError "source.hasOwnProperty is not a function").
Proof.
  cbv zeta.
  pose proof (deepMerge_key_by_key
                [("theme", JsObject [("dark", JsBool true); ("font", JsNumber 12)]);
                 ("tags", JsArray [JsString "a"])]
                [("theme", JsObject [("font", JsNumber 14)]);
                 ("tags", JsArray [JsString "b"]);
                 ("user", JsUndefined)]) as H.
  destruct (proj2 (H "theme") eq_refl) as (result & Hres & Hget & _).
  destruct (proj2 (H "user") eq_refl) as (result' & Hres' & _ & Hkeys).
  rewrite Hres in Hres'. injection Hres' as <-.
  exists result. split; [exact Hres|]. split; [|split].
  - change (Returns (JsObject [("dark", JsBool true); ("font", JsNumber 14)])
            = Returns (get_field "theme" result)) in Hget.
    by injection Hget as <-.
  - intros Hin. apply Hkeys in Hin as [Hin|[_ Hin]].
    + repeat (apply elem_of_cons in Hin as [Hin|Hin]; [discriminate|]).
      by apply not_elem_of_nil in Hin.
    + by apply Hin.
  - apply (proj1 (deepMerge_key_by_key
                    [("theme", JsObject [("dark", JsBool true); ("font", JsNumber 12)]);
                     ("tags", JsArray [JsString "a"])]
                    [("hasOwnProperty", JsNull)] "theme")).
    by left.
Defined.

(** X5.  On a mergeable source, merging the same source a second time
    changes nothing: [deepMerge(target, source)] returns, and merging the
    source into that result returns the result again; merging an object
    into itself gives the object back. *)
Theorem deepMerge_idempotent (target source : list (string * JsValue)) :
  mergeable (JsObject source) = true ->
  exists result,
    Helpers.deepMerge target source = Returns result
    /\ Helpers.deepMerge result source = Returns result
    /\ Helpers.deepMerge source source = Returns source.
Proof.
  intros Hm.
  destruct (deepMerge_spec (JsObject source) source eq_refl Hm target) as (result & Hres & _).
  destruct (deepMerge_fixed (JsObject source) source eq_refl Hm) as [Htwice Hself].
  exists result. split; [exact Hres|]. split; [exact (Htwice target result Hres) | exact Hself].
Qed.

Lemma deepMerge_idempotent_witness :
  let target := [("theme", JsObject [("dark", JsBool true)]); ("lang", JsString "en")] in
  let source := [("theme", JsObject [("font", JsNumber 14)]); ("lang", JsNull)] in
  exists result,
    Helpers.deepMerge target source = Returns result
    /\ Helpers.deepMerge result source = Returns result.
Proof.
  cbv zeta.
  destruct (deepMerge_idempotent
              [("theme", JsObject [("dark", JsBool true)]); ("lang", JsString "en")]
              [("theme", JsObject [("font", JsNumber 14)]); ("lang", JsNull)] eq_refl)
    as (result & Hres & Htwice & _).
  by exists result.
Defined.

(** ** [init]: once only, and on one platform *)

Section InitMore.

Import UnifiedAnalytics.

Lemma init_initialized env cfg w :
  initialized (this w) = true -> init env cfg w = (Returns tt, w).
Proof. unfold init. by intros ->. Qed.

Lemma init_countly_initialized env cfg c w :
  initialized (this (init_countly env cfg c w)) = initialized (this w).
Proof. unfold init_countly. by repeat case_match. Qed.

Lemma init_posthog_initialized env cfg c w :
  initialized (this (init_posthog env cfg c w)) = initialized (this w).
Proof. unfold init_posthog. by repeat case_match. Qed.

Lemma init_resolved env cfg w :
  (init env cfg w).1 = Returns tt -> initialized (this (init env cfg w).2) = true.
Proof.
  unfold init. destruct (initialized (this w)) eqn:Hi; [done|].
  destruct (negb _); [discriminate|].
  destruct (if truthy_string (platform cfg) then _ else _) as [[[]|e] rt1];
    [reflexivity | discriminate].
Qed.

(** The platform an adapter runs on, and the platform left behind. *)
Lemma init_countly_platform env cfg c w :
  let w' := init_countly env cfg c w in
  currentPlatform (rt w') = Some (resolved_platform env (rt w))
  /\ forall n plat failure,
       SdkInit n plat failure ∈ calls_between w w' -> plat = resolved_platform env (rt w).
Proof.
  unfold init_countly, CountlyProvider.init, Platform.getPlatform,
    CountlyProviderWeb.init, CountlyProviderNative.init,
    CountlyProviderWeb.new, CountlyProviderNative.new, resolved_platform, calls_between.
  destruct w as [th [[[]|] h s]]; cbn; [| |destruct (autoDetectPlatform env); cbn];
    repeat (case_match; cbn; simplify_eq); cbn;
    (split; [reflexivity|]); intros n plat failure;
    rewrite ?drop_app_length, ?drop_all;
    intros Hin; repeat (apply elem_of_cons in Hin as [Hin|Hin]; simplify_eq);
    try (by apply elem_of_nil in Hin); done.
Qed.

Lemma init_posthog_platform env cfg c w :
  let w' := init_posthog env cfg c w in
  currentPlatform (rt w') = Some (resolved_platform env (rt w))
  /\ forall n plat failure,
       SdkInit n plat failure ∈ calls_between w w' -> plat = resolved_platform env (rt w).
Proof.
  unfold init_posthog, PostHogProvider.init, Platform.getPlatform,
    PostHogProviderWeb.init, PostHogProviderNative.init,
    PostHogProviderWeb.new, PostHogProviderNative.new, resolved_platform, calls_between.
  destruct w as [th [[[]|] h s]]; cbn; [| |destruct (autoDetectPlatform env); cbn];
    repeat (case_match; cbn; simplify_eq); cbn;
    (split; [reflexivity|]); intros n plat failure;
    rewrite ?drop_app_length, ?drop_all;
    intros Hin; repeat (apply elem_of_cons in Hin as [Hin|Hin]; simplify_eq);
    try (by apply elem_of_nil in Hin); done.
Qed.

Lemma calls_between_refl (w w' : World) :
  sdk (rt w') = sdk (rt w) -> calls_between w w' = [].
Proof. unfold calls_between. intros ->. apply drop_all. Qed.

Lemma calls_between_app (w w' : World) (evs : list SdkCall) :
  sdk (rt w') = (sdk (rt w) ++ evs)%list -> calls_between w w' = evs.
Proof. unfold calls_between. intros ->. apply drop_app_length. Qed.

Lemma calls_between_trans (w w' w'' : World) (evs evs' : list SdkCall) :
  sdk (rt w') = (sdk (rt w) ++ evs)%list ->
  sdk (rt w'') = (sdk (rt w') ++ evs')%list ->
  calls_between w w'' = (calls_between w w' ++ calls_between w' w'')%list.
Proof.
  intros H1 H2. rewrite (calls_between_app w w' evs H1), (calls_between_app w' w'' evs' H2).
  apply calls_between_app. by rewrite H2, H1, app_assoc.
Qed.

Lemma resolved_platform_set env rt p :
  currentPlatform rt = Some p -> resolved_platform env rt = p.
Proof. unfold resolved_platform. by intros ->. Qed.

(** The two provider phases run on the platform resolved at their
    start. *)
Lemma init_providers_platform env cfg w :
  let w3 := match countly cfg with Some c => init_countly env cfg c w | None => w end in
  let w4 := match posthog cfg with Some p => init_posthog env cfg p w3 | None => w3 end in
  forall n plat failure,
    SdkInit n plat failure ∈ calls_between w w4 -> plat = resolved_platform env (rt w).
Proof.
  intros w3 w4 n plat failure.
  assert (H3 : (exists evs, sdk (rt w3) = (sdk (rt w) ++ evs)%list)
               /\ resolved_platform env (rt w3) = resolved_platform env (rt w)
               /\ (SdkInit n plat failure ∈ calls_between w w3 ->
                   plat = resolved_platform env (rt w))).
  { subst w3. destruct (countly cfg) as [c|].
    - destruct (init_countly_spec env cfg c w) as (_ & evs & Hs & _).
      destruct (init_countly_platform env cfg c w) as [Hcur Hev].
      split; [by exists evs|]. split; [by apply resolved_platform_set | apply Hev].
    - split; [exists []; by rewrite app_nil_r|]. split; [done|].
      rewrite calls_between_refl by done. intros Hin. by apply elem_of_nil in Hin. }
  destruct H3 as ((evc & Hs3) & Hres3 & Hev3).
  assert (H4 : (exists evs, sdk (rt w4) = (sdk (rt w3) ++ evs)%list)
               /\ (SdkInit n plat failure ∈ calls_between w3 w4 ->
                   plat = resolved_platform env (rt w))).
  { subst w4. destruct (posthog cfg) as [p|].
    - destruct (init_posthog_spec env cfg p w3) as (_ & evs & Hs & _).
      destruct (init_posthog_platform env cfg p w3) as [_ Hev].
      split; [by exists evs|]. rewrite <- Hres3. apply Hev.
    - split; [exists []; by rewrite app_nil_r|].
      rewrite calls_between_refl by done. intros Hin. by apply elem_of_nil in Hin. }
  destruct H4 as ((evp & Hs4) & Hev4).
  rewrite (calls_between_trans w w3 w4 evc evp Hs3 Hs4), elem_of_app.
  intros [Hin|Hin]; [by apply Hev3 | by apply Hev4].
Qed.

Lemma init_calls_platform env cfg w n plat failure :
  SdkInit n plat failure ∈ calls_between w (init env cfg w).2 ->
  plat = init_platform env cfg (rt w).
Proof.
  assert (Hnone : forall w' (P : Prop), sdk (rt w') = sdk (rt w) ->
            SdkInit n plat failure ∈ calls_between w w' -> P).
  { intros w' P Hs. rewrite calls_between_refl by done. intros Hin. by apply elem_of_nil in Hin. }
  unfold init.
  destruct (initialized (this w)); [by apply Hnone|].
  destruct (negb _); [by apply Hnone|].
  unfold init_platform.
  destruct (platform cfg) as [[|a given]|] eqn:Hpl; cbn [truthy_string mbind option_bind default].
  - pose proof (init_providers_platform env cfg
      (set_trackScreenViews (negb (bool_decide (trackScreenViews cfg = Some false)))
         (set_rt (rt (set_config (Some cfg) w)) (set_config (Some cfg) w)))) as H.
    cbn zeta in H. exact (H n plat failure).
  - unfold Platform.setPlatform, id.
    destruct (Platform.parse (String a given)) as [p|] eqn:Hp; [|eapply Hnone; reflexivity].
    pose proof (init_providers_platform env cfg
      (set_trackScreenViews (negb (bool_decide (trackScreenViews cfg = Some false)))
         (set_rt (with_platform (Some p) (rt (set_config (Some cfg) w)))
                 (set_config (Some cfg) w)))) as H.
    cbn zeta in H. exact (H n plat failure).
  - pose proof (init_providers_platform env cfg
      (set_trackScreenViews (negb (bool_decide (trackScreenViews cfg = Some false)))
         (set_rt (rt (set_config (Some cfg) w)) (set_config (Some cfg) w)))) as H.
    cbn zeta in H. exact (H n plat failure).
Qed.

(** A provider whose adapter cannot be loaded or cannot start is
    dropped. *)
Lemma init_countly_fails env cfg c w :
  (forall plat, is_Some (import_adapter env Countly plat)
                \/ is_Some (sdk_init env Countly plat)) ->
  countlyProvider (this (init_countly env cfg c w)) = None.
Proof.
  intros H.
  unfold init_countly, CountlyProvider.init, Platform.getPlatform,
    CountlyProviderWeb.init, CountlyProviderNative.init,
    CountlyProviderWeb.new, CountlyProviderNative.new.
  pose proof (H web) as [[? Hw]|[? Hw]]; pose proof (H native) as [[? Hn]|[? Hn]];
    destruct w as [th [[[]|] h s]]; cbn; try destruct (autoDetectPlatform env); cbn;
    rewrite ?Hw, ?Hn; cbn; repeat (case_match; cbn; simplify_eq); done.
Qed.

Lemma init_posthog_fails env cfg c w :
  (forall plat, is_Some (import_adapter env PostHog plat)
                \/ is_Some (sdk_init env PostHog plat)) ->
  posthogProvider (this (init_posthog env cfg c w)) = None.
Proof.
  intros H.
  unfold init_posthog, PostHogProvider.init, Platform.getPlatform,
    PostHogProviderWeb.init, PostHogProviderNative.init,
    PostHogProviderWeb.new, PostHogProviderNative.new.
  pose proof (H web) as [[? Hw]|[? Hw]]; pose proof (H native) as [[? Hn]|[? Hn]];
    destruct w as [th [[[]|] h s]]; cbn; try destruct (autoDetectPlatform env); cbn;
    rewrite ?Hw, ?Hn; cbn; repeat (case_match; cbn; simplify_eq); done.
Qed.

Lemma init_countly_keeps_posthog env cfg c w :
  posthogProvider (this (init_countly env cfg c w)) = posthogProvider (this w).
Proof. unfold init_countly. by repeat case_match. Qed.

Lemma init_posthog_keeps_countly env cfg c w :
  countlyProvider (this (init_posthog env cfg c w)) = countlyProvider (this w).
Proof. unfold init_posthog. by repeat case_match. Qed.

End InitMore.

(** X6.  [init] takes effect once.  After an [init] that resolved, the
    instance counts as initialized and every further [init], with whatever
    configuration and whatever the SDKs would now do, resolves at once
    and changes nothing: providers that failed to start the first time
    are not tried again. *)
Theorem init_only_once (env env' : Env) (cfg cfg' : AnalyticsConfig)
    (w : UnifiedAnalytics.World) :
  (UnifiedAnalytics.init env cfg w).1 = Returns tt ->
  let w' := (UnifiedAnalytics.init env cfg w).2 in
  UnifiedAnalytics.isInitialized w' = true
  /\ UnifiedAnalytics.init env' cfg' w' = (Returns tt, w').
Proof.
  intros Hr w'. pose proof (init_resolved env cfg w Hr) as Hi.
  split; [exact Hi | by apply init_initialized].
Qed.

Lemma init_only_once_witness :
  let w' := (UnifiedAnalytics.init Scenario.countly_down Scenario.countly_only
               UnifiedAnalytics.initial).2 in
  UnifiedAnalytics.getEnabledProviders w' = []
  /\ UnifiedAnalytics.isInitialized w' = true
  /\ UnifiedAnalytics.init Scenario.calm Scenario.both w' = (Returns tt, w').
Proof.
  split; [reflexivity|].
  apply (init_only_once Scenario.countly_down Scenario.calm Scenario.countly_only
           Scenario.both UnifiedAnalytics.initial).
  reflexivity.
Defined.

(** X7.  [init] on a new instance resolves even when no configured
    provider can start (its adapter module does not load, or its SDK
    throws on start-up, on either platform): the instance is then
    initialized with no provider enabled and no proxy kept. *)
Theorem init_resolves_without_providers (env : Env) (cfg : AnalyticsConfig) (rt0 : Runtime) :
  Helpers.valid (Helpers.validateConfig cfg) = true ->
  (forall given, platform cfg = Some given -> given = "" \/ given = "web" \/ given = "native") ->
  (forall n plat, is_Some (import_adapter env n plat) \/ is_Some (sdk_init env n plat)) ->
  let result :=
    UnifiedAnalytics.init env cfg
      {| UnifiedAnalytics.this := UnifiedAnalytics.new; UnifiedAnalytics.rt := rt0 |} in
  result.1 = Returns tt
  /\ UnifiedAnalytics.isInitialized result.2 = true
  /\ UnifiedAnalytics.getEnabledProviders result.2 = []
  /\ UnifiedAnalytics.countlyProvider (UnifiedAnalytics.this result.2) = None
  /\ UnifiedAnalytics.posthogProvider (UnifiedAnalytics.this result.2) = None.
Proof.
  intros Hvalid Hplat Hfail.
  set (w := {| UnifiedAnalytics.this := UnifiedAnalytics.new; UnifiedAnalytics.rt := rt0 |}).
  assert (Hmain : forall w2,
            UnifiedAnalytics.countlyProvider (UnifiedAnalytics.this w2) = None ->
            UnifiedAnalytics.posthogProvider (UnifiedAnalytics.this w2) = None ->
            let w3 := match countly cfg with
                      | Some c => UnifiedAnalytics.init_countly env cfg c w2 | None => w2 end in
            let w4 := match posthog cfg with
                      | Some p => UnifiedAnalytics.init_posthog env cfg p w3 | None => w3 end in
            UnifiedAnalytics.countlyProvider (UnifiedAnalytics.this w4) = None
            /\ UnifiedAnalytics.posthogProvider (UnifiedAnalytics.this w4) = None).
  { intros w2 Hc Hp w3 w4.
    assert (H3 : UnifiedAnalytics.countlyProvider (UnifiedAnalytics.this w3) = None
                 /\ UnifiedAnalytics.posthogProvider (UnifiedAnalytics.this w3) = None).
    { subst w3. destruct (countly cfg) as [c|]; [|done].
      split; [apply init_countly_fails; intros; apply Hfail|].
      by rewrite init_countly_keeps_posthog. }
    destruct H3 as [Hc3 Hp3]. subst w4. destruct (posthog cfg) as [p|]; [|done].
    split; [by rewrite init_posthog_keeps_countly|].
    apply init_posthog_fails. intros; apply Hfail. }
  assert (Hend : forall w4,
            UnifiedAnalytics.countlyProvider (UnifiedAnalytics.this w4) = None
            /\ UnifiedAnalytics.posthogProvider (UnifiedAnalytics.this w4) = None ->
            let w5 := UnifiedAnalytics.set_initialized true w4 in
            UnifiedAnalytics.isInitialized w5 = true
            /\ UnifiedAnalytics.getEnabledProviders w5 = []
            /\ UnifiedAnalytics.countlyProvider (UnifiedAnalytics.this w5) = None
            /\ UnifiedAnalytics.posthogProvider (UnifiedAnalytics.this w5) = None).
  { intros w4 [Hc Hp]. cbn.
    unfold UnifiedAnalytics.getEnabledProviders, UnifiedAnalytics.countly_active,
      UnifiedAnalytics.posthog_active, UnifiedAnalytics.active_countly,
      UnifiedAnalytics.active_posthog. cbn. by rewrite Hc, Hp. }
  unfold UnifiedAnalytics.init. cbn [UnifiedAnalytics.initialized UnifiedAnalytics.this w
    UnifiedAnalytics.new]. rewrite Hvalid. cbn [negb].
  destruct (platform cfg) as [[|a given]|] eqn:Hpl; cbn [truthy_string default]; unfold id.
  - cbn [fst snd]. split; [reflexivity|]. apply Hend. by apply Hmain.
  - destruct (Hplat _ eq_refl) as [?|[Heq|Heq]]; [discriminate| |];
      rewrite Heq; cbn [Platform.setPlatform Platform.parse String.eqb Ascii.eqb Bool.eqb];
      cbn [fst snd]; (split; [reflexivity|]); apply Hend; by apply Hmain.
  - cbn [fst snd]. split; [reflexivity|]. apply Hend. by apply Hmain.
Qed.

Lemma init_resolves_without_providers_witness :
  let result := UnifiedAnalytics.init Scenario.all_down Scenario.both
                  UnifiedAnalytics.initial in
  result.1 = Returns tt
  /\ UnifiedAnalytics.isInitialized result.2 = true
  /\ UnifiedAnalytics.getEnabledProviders result.2 = [].
Proof.
  pose proof (init_resolves_without_providers Scenario.all_down Scenario.both
                UnifiedAnalytics.initial_runtime) as H.
  destruct H as (Hr & Hi & He & _).
  - reflexivity.
  - intros given [= <-]. right; left; reflexivity.
  - intros n plat. right. by eexists.
  - by repeat split.
Defined.

(** X8.  A configuration that passes validation but names a platform
    other than ["web"] and ["native"] makes [init] reject with the error
    of [setPlatform].  By then the configuration has been stored, and
    nothing else has happened: no proxy is constructed, no SDK is called,
    the platform is not set and the instance is not initialized, so a
    later [init] is not skipped. *)
Theorem init_rejects_unknown_platform (env : Env) (cfg : AnalyticsConfig)
    (w : UnifiedAnalytics.World) (given : string) :
  UnifiedAnalytics.isInitialized w = false ->
  Helpers.valid (Helpers.validateConfig cfg) = true ->
  platform cfg = Some given ->
  given <> "" -> given <> "web" -> given <> "native" ->
  UnifiedAnalytics.init env cfg w
    = (Throws (Platform.InvalidPlatform given), UnifiedAnalytics.set_config (Some cfg) w)
  /\ UnifiedAnalytics.isInitialized (UnifiedAnalytics.init env cfg w).2 = false.
Proof.
  intros Hi Hvalid Hpl Hne Hw Hn.
  assert (Hinit : UnifiedAnalytics.init env cfg w
    = (Throws (Platform.InvalidPlatform given), UnifiedAnalytics.set_config (Some cfg) w)).
  { unfold UnifiedAnalytics.init. unfold UnifiedAnalytics.isInitialized in Hi.
    rewrite Hi, Hvalid, Hpl. cbn [negb default]. unfold id.
    rewrite (truthy_string_nonempty given Hne).
    unfold Platform.setPlatform.
    assert (Hp : Platform.parse given = None) by (by apply parse_None).
    rewrite Hp. by destruct w. }
  split; [exact Hinit|]. rewrite Hinit. exact Hi.
Qed.

Lemma init_rejects_unknown_platform_witness :
  UnifiedAnalytics.init Scenario.calm Scenario.both_on_ios UnifiedAnalytics.initial
    = (Throws (Platform.InvalidPlatform "ios"),
       UnifiedAnalytics.set_config (Some Scenario.both_on_ios) UnifiedAnalytics.initial).
Proof.
  apply (init_rejects_unknown_platform Scenario.calm Scenario.both_on_ios
           UnifiedAnalytics.initial "ios"); [reflexivity..| | |]; discriminate.
Defined.

(** X9.  All adapters started by one [init(config)] run on the same
    platform: the one the configuration names, whatever was set or would
    be detected; without one, the platform set or detected earlier; and
    only failing that the one detected now. *)
Theorem init_runs_on_one_platform (env : Env) (cfg : AnalyticsConfig)
    (w : UnifiedAnalytics.World) (n : ProviderName) (plat : PlatformName)
    (failure : option Exception) :
  SdkInit n plat failure ∈ calls_between w (UnifiedAnalytics.init env cfg w).2 ->
  plat = match platform cfg ≫= Platform.parse with
         | Some p => p
         | None =>
             match currentPlatform (UnifiedAnalytics.rt w) with
             | Some p => p
             | None => autoDetectPlatform env
             end
         end.
Proof. apply init_calls_platform. Qed.

Lemma init_runs_on_one_platform_witness :
  SdkInit PostHog native None
    ∈ calls_between UnifiedAnalytics.initial
        (UnifiedAnalytics.init Scenario.calm Scenario.both_native UnifiedAnalytics.initial).2
  /\ autoDetectPlatform Scenario.calm = web
  /\ native = match platform Scenario.both_native ≫= Platform.parse with
              | Some p => p
              | None =>
                  match currentPlatform (UnifiedAnalytics.rt UnifiedAnalytics.initial) with
                  | Some p => p
                  | None => autoDetectPlatform Scenario.calm
                  end
              end.
Proof.
  assert (Hin : SdkInit PostHog native None
                  ∈ calls_between UnifiedAnalytics.initial
                      (UnifiedAnalytics.init Scenario.calm Scenario.both_native
                         UnifiedAnalytics.initial).2).
  { vm_compute. do 2 constructor. }
  split; [exact Hin|]. split; [reflexivity|].
  exact (init_runs_on_one_platform Scenario.calm Scenario.both_native
           UnifiedAnalytics.initial PostHog native None Hin).
Defined.

(** ** Tracking through the facade *)

(** X10.  [trackEvent] reaches every enabled provider once, Countly
    before PostHog, and changes nothing else; it does not look at the
    screen-view switch.  What the providers receive differs: Countly gets
    the stringified merge of the global properties with the event's own,
    PostHog gets the event's own properties as they are (the library does
    not add the registered properties itself). *)
Theorem trackEvent_reaches_each_provider (name : string) (properties : option Props)
    (w : UnifiedAnalytics.World) :
  exists to_countly to_posthog,
    only_emits (to_countly ++ to_posthog) w (UnifiedAnalytics.trackEvent name properties w)
    /\ (if UnifiedAnalytics.countly_active w
        then exists c, to_countly = [c]
                       /\ countly_event c
                          = Some (name, sent_segments (global_properties w) properties)
        else to_countly = [])
    /\ to_posthog = (if UnifiedAnalytics.posthog_active w
                     then [PostHog_capture name (default ∅ properties)]
                     else []).
Proof.
  destruct_world w; cbn.
  all: first
    [ solve [exists [], []; unfold only_emits; cbn; rewrite ?app_nil_r; repeat split; done]
    | solve [eexists [_], []; unfold only_emits; cbn; repeat split;
             eexists; split; reflexivity]
    | solve [eexists [], [_]; unfold only_emits; cbn; repeat split; done]
    | solve [eexists [_], [_]; unfold only_emits; cbn; rewrite <- ?app_assoc; cbn;
             repeat split; eexists; split; reflexivity] ].
Qed.

(** X11.  While no provider is enabled (before [init], after an [init]
    that was rejected, after an [init] in which every provider failed)
    the facade drops what it is given: tracking, identity, global
    properties, timers and the report of an error value change nothing,
    call no SDK and do not throw; nothing is kept for later.
    [getGlobalProperties] hands out a new empty object.  The one call
    that throws is [trackError] with [null] or [undefined] for the error:
    reading its [message] is a [TypeError], in this state as in any
    other, and nothing is sent or changed. *)
Theorem no_provider_no_effect (env : Env) (faults : Faults) (w : UnifiedAnalytics.World)
    (name key : string) (properties : option Props) (props : Props)
    (userId : JsValue) (e : UnifiedAnalytics.ErrorView) :
  no_provider w ->
  UnifiedAnalytics.trackEvent name properties w = w
  /\ UnifiedAnalytics.trackView name properties w = w
  /\ UnifiedAnalytics.identify faults userId properties w = []
  /\ UnifiedAnalytics.reset w = (w, [])
  /\ UnifiedAnalytics.setGlobalProperties props w = w
  /\ UnifiedAnalytics.removeGlobalProperty key w = w
  /\ UnifiedAnalytics.clearGlobalProperties faults w = w
  /\ UnifiedAnalytics.startTimer name w = (Returns tt, [])
  /\ UnifiedAnalytics.endTimer name properties w = (Returns tt, [])
  /\ UnifiedAnalytics.trackError faults (UnifiedAnalytics.GivenError e) properties w
     = (Returns tt, w, [])
  /\ (let (l, w') := UnifiedAnalytics.getGlobalProperties w in
      deref (UnifiedAnalytics.rt w') l = ∅
      /\ l = length (heap (UnifiedAnalytics.rt w))
      /\ UnifiedAnalytics.this w' = UnifiedAnalytics.this w)
  /\ (forall w0,
        UnifiedAnalytics.trackError faults UnifiedAnalytics.NullError properties w0
        = (Throws (TypeError "Cannot read properties of null (reading 'message')"), w0, [])
        /\ UnifiedAnalytics.trackError faults UnifiedAnalytics.UndefinedError properties w0
           = (Throws (TypeError "Cannot read properties of undefined (reading 'message')"),
              w0, [])).
Proof.
  intros [Hc Hp].
  split; [|split; [|split; [|split; [|split; [|split; [|split; [|split; [|split;
    [|split; [|split]]]]]]]]]]; [..|by intros w0].
  all: unfold UnifiedAnalytics.trackEvent, UnifiedAnalytics.trackEventToProviders,
    UnifiedAnalytics.trackView, UnifiedAnalytics.identify, UnifiedAnalytics.reset,
    UnifiedAnalytics.setGlobalProperties, UnifiedAnalytics.removeGlobalProperty,
    UnifiedAnalytics.clearGlobalProperties, UnifiedAnalytics.startTimer,
    UnifiedAnalytics.endTimer, UnifiedAnalytics.posthog_debug_test,
    UnifiedAnalytics.trackError, UnifiedAnalytics.getGlobalProperties.
  all: rewrite ?Hc, ?Hp; cbn zeta; rewrite ?Hp; try reflexivity.
  - by destruct (negb _).
  - repeat split. unfold deref. cbn. by rewrite heap_last.
Qed.

Lemma no_provider_no_effect_witness :
  no_provider UnifiedAnalytics.initial
  /\ UnifiedAnalytics.trackEvent "signup" None UnifiedAnalytics.initial
     = UnifiedAnalytics.initial
  /\ UnifiedAnalytics.startTimer "signup" UnifiedAnalytics.initial = (Returns tt, [])
  /\ UnifiedAnalytics.trackError Scenario.sound UnifiedAnalytics.NullError None
       UnifiedAnalytics.initial
     = (Throws (TypeError "Cannot read properties of null (reading 'message')"),
        UnifiedAnalytics.initial, []).
Proof.
  assert (H : no_provider UnifiedAnalytics.initial) by (split; reflexivity).
  split; [exact H|].
  destruct (no_provider_no_effect Scenario.calm Scenario.sound UnifiedAnalytics.initial
              "signup" "plan" None ∅ JsNull
              {| UnifiedAnalytics.error_message := JsUndefined;
                 UnifiedAnalytics.error_name := JsUndefined;
                 UnifiedAnalytics.error_stack := JsUndefined;
                 UnifiedAnalytics.error_String := "" |} H)
    as (Hev & _ & _ & _ & _ & _ & _ & Hst & _ & _ & _ & Hnull).
  split; [exact Hev|]. split; [exact Hst|].
  exact (proj1 (Hnull UnifiedAnalytics.initial)).
Defined.

(** X12.  [hasProvider(name)] answers [true] exactly for the names
    [getEnabledProviders] lists (any other name, also a known one in
    another case, gives [false]); the list holds ["countly"] and
    ["posthog"] at most once each, in that order. *)
Theorem hasProvider_iff_enabled (name : string) (w : UnifiedAnalytics.World) :
  (UnifiedAnalytics.hasProvider name w = true
     <-> name ∈ UnifiedAnalytics.getEnabledProviders w)
  /\ sublist (UnifiedAnalytics.getEnabledProviders w) ["countly"; "posthog"].
Proof.
  unfold UnifiedAnalytics.hasProvider, UnifiedAnalytics.getEnabledProviders.
  destruct (UnifiedAnalytics.countly_active w), (UnifiedAnalytics.posthog_active w);
    cbn [app]; (split; [|by repeat constructor]);
    destruct (String.eqb_spec name "countly") as [->|Hc];
    try destruct (String.eqb_spec name "posthog") as [->|Hp];
    rewrite ?elem_of_cons, ?elem_of_nil; split; intros H; try done;
    try (by left); try (by right; left); try (destruct H as [?|[?|?]]; done);
    try (destruct H as [?|?]; done).
Qed.

(** ** Sessions over the whole facade *)

Section ClearAndReset.

Import UnifiedAnalytics.

Lemma unregister_each_spec faults keys rt :
  exists attempted_keys,
    heap (unregister_each faults keys rt).2 = heap rt
    /\ currentPlatform (unregister_each faults keys rt).2 = currentPlatform rt
    /\ sdk (unregister_each faults keys rt).2
       = (sdk rt ++ (PostHog_unregister <$> attempted_keys))%list
    /\ attempted_keys `prefix_of` keys
    /\ ((unregister_each faults keys rt).1 = true -> attempted_keys = keys)
    /\ ((unregister_each faults keys rt).1 = true
        <-> Forall (fun key => unregister_throws faults key = false) keys).
Proof.
  revert rt. induction keys as [|key rest IH]; intros rt; cbn [unregister_each].
  - exists []. cbn. rewrite app_nil_r. repeat split; done.
  - destruct (unregister_throws faults key) eqn:Hk.
    + exists [key]. cbn. repeat split; try done.
      * by exists rest.
      * intros H. apply Forall_cons in H as [H _]. congruence.
    + destruct (IH (emit (PostHog_unregister key) rt))
        as (ks & Hh & Hp & Hs & Hsub & Hall & Hiff).
      exists (key :: ks). rewrite Hh, Hp, Hs. cbn. rewrite <- app_assoc. cbn.
      repeat split; try done.
      * by apply prefix_cons.
      * intros H. by rewrite (Hall H).
      * intros H. apply Forall_cons. split; [done | by apply Hiff].
      * intros H. apply Forall_cons in H as [_ H]. by apply Hiff.
Qed.

(** [clearUserContext] through the proxy: the store moves to a new empty
    object; the adapter need not be initialized. *)
Lemma CountlyProvider_clearUserContext_spec p l rt :
  CountlyProvider.context_loc p = Some l ->
  exists p',
    CountlyProvider.clearUserContext p rt = (p', (alloc ∅ rt).2)
    /\ CountlyProvider.context_loc p' = Some (length (heap rt))
    /\ CountlyProvider.isInitialized p' = CountlyProvider.isInitialized p.
Proof.
  unfold CountlyProvider.context_loc, CountlyProvider.clearUserContext,
    CountlyProvider.isInitialized,
    CountlyProviderWeb.clearUserContext, CountlyProviderNative.clearUserContext.
  destruct p as [[[[? ? ? ?]|[? ? ? ?]]|] d]; cbn; intros; simplify_eq; eauto.
Qed.

(** [reset] through the Countly proxy, on an initialized adapter. *)
Lemma CountlyProvider_reset_spec p l rt :
  CountlyProvider.isInitialized p = true ->
  CountlyProvider.context_loc p = Some l ->
  exists p' requests,
    CountlyProvider.reset p rt = (p', (alloc ∅ rt).2, requests)
    /\ CountlyProvider.context_loc p' = Some (length (heap rt))
    /\ CountlyProvider.isInitialized p' = true.
Proof.
  unfold CountlyProvider.context_loc, CountlyProvider.reset, CountlyProvider.isInitialized,
    CountlyProviderWeb.reset, CountlyProviderNative.reset,
    CountlyProviderWeb.clearUserContext, CountlyProviderNative.clearUserContext,
    CountlyProviderWeb.ensureInitialized, CountlyProviderNative.ensureInitialized.
  destruct p as [[[[[] ? ? ?]|[[] ? ? ?]]|] d]; cbn; intros; simplify_eq; eauto.
Qed.

(** [clearRegisteredProperties] through the PostHog proxy, on an
    initialized adapter: the loop, then a new empty store if the loop
    completed. *)
Lemma PostHogProvider_clearRegisteredProperties_spec faults p l rt :
  PostHogProvider.isInitialized p = true ->
  PostHogProvider.registered_loc p = Some l ->
  let loop := unregister_each faults (map_to_list (deref rt l)).*1 rt in
  if loop.1
  then exists p',
         PostHogProvider.clearRegisteredProperties faults p rt = (p', (alloc ∅ loop.2).2)
         /\ PostHogProvider.registered_loc p' = Some (length (heap rt))
         /\ PostHogProvider.isInitialized p' = true
  else PostHogProvider.clearRegisteredProperties faults p rt = (p, loop.2).
Proof.
  intros Hi Hl loop.
  pose proof (unregister_each_spec faults (map_to_list (deref rt l)).*1 rt)
    as (ks & Hh & _).
  fold loop in Hh.
  unfold PostHogProvider.isInitialized, PostHogProvider.registered_loc,
    PostHogProvider.clearRegisteredProperties,
    PostHogProviderWeb.clearRegisteredProperties,
    PostHogProviderNative.clearRegisteredProperties,
    PostHogProviderWeb.ensureInitialized, PostHogProviderNative.ensureInitialized in *.
  destruct p as [[[[[] ? ? ? ? ?]|[[] ? ? ? ? ?]]|] d]; cbn in *; simplify_eq;
    fold loop; destruct loop as [[] rt1] eqn:Hloop; cbn in *;
    rewrite ?Hh; eauto.
Qed.

(** The two halves of [clearGlobalProperties], and the Countly half of
    [reset], as changes of the world. *)
Lemma clear_countly_half (w : World) (p : CountlyProvider.t) :
  active_countly w = Some p ->
  exists p',
    (let (p1, rt1) := CountlyProvider.clearUserContext p (rt w) in
     set_countlyProvider (Some p1) (set_rt rt1 w))
      = set_countlyProvider (Some p') (set_rt (alloc ∅ (rt w)).2 w)
    /\ CountlyProvider.context_loc p' = Some (length (heap (rt w)))
    /\ CountlyProvider.isInitialized p' = true.
Proof.
  intros Ha. destruct (active_countly_Some w p Ha) as (_ & Hi & l & Hl & _).
  destruct (CountlyProvider_clearUserContext_spec p l (rt w) Hl) as (p' & Heq & Hl' & Hi').
  exists p'. rewrite Heq. split; [done|]. split; [done | congruence].
Qed.

Lemma reset_countly_half (w : World) (p : CountlyProvider.t) :
  active_countly w = Some p ->
  exists p' requests,
    CountlyProvider.reset p (rt w) = (p', (alloc ∅ (rt w)).2, requests)
    /\ CountlyProvider.context_loc p' = Some (length (heap (rt w)))
    /\ CountlyProvider.isInitialized p' = true.
Proof.
  intros Ha. destruct (active_countly_Some w p Ha) as (_ & Hi & l & Hl & _).
  by apply (CountlyProvider_reset_spec p l).
Qed.

Lemma clear_posthog_half faults (w : World) (p : PostHogProvider.t) :
  active_posthog w = Some p ->
  let loop := unregister_each faults (map_to_list (posthog_registered w)).*1 (rt w) in
  let w' := (let (p1, rt1) := PostHogProvider.clearRegisteredProperties faults p (rt w) in
             set_posthogProvider (Some p1) (set_rt rt1 w)) in
  if loop.1
  then exists p',
         w' = set_posthogProvider (Some p') (set_rt (alloc ∅ loop.2).2 w)
         /\ PostHogProvider.registered_loc p' = Some (length (heap (rt w)))
         /\ PostHogProvider.isInitialized p' = true
  else w' = set_rt loop.2 w.
Proof.
  intros Ha. destruct (active_posthog_Some w p Ha) as (Hpp & Hi & l & Hl & Hs).
  pose proof (PostHogProvider_clearRegisteredProperties_spec faults p l (rt w) Hi Hl) as H.
  unfold posthog_registered. rewrite Hs.
  cbn [fmap option_fmap option_map default from_option]. unfold id. cbv zeta in *.
  destruct (unregister_each faults (map_to_list (deref (rt w) l)).*1 (rt w)) as [[] rt1];
    cbn [fst snd] in *.
  - destruct H as (p' & -> & Hl' & Hi'). by exists p'.
  - rewrite H. destruct w as [[] r]. cbn in *. by simplify_eq.
Qed.

Lemma extends_new_countly_store (w : World) (p' : CountlyProvider.t) (o : Props) :
  CountlyProvider.context_loc p' = Some (length (heap (rt w))) ->
  extends w (set_countlyProvider (Some p') (set_rt (alloc o (rt w)).2 w)).
Proof.
  intros Hl. unfold extends, countly_store, posthog_store. cbn. rewrite Hl, length_app. cbn.
  split; [lia|]. split; [apply moved_fresh; lia | apply moved_same].
Qed.

Lemma extends_new_posthog_store (w : World) (p' : PostHogProvider.t) (o : Props) (rt1 : Runtime) :
  heap rt1 = heap (rt w) ->
  PostHogProvider.registered_loc p' = Some (length (heap (rt w))) ->
  extends w (set_posthogProvider (Some p') (set_rt (alloc o rt1).2 w)).
Proof.
  intros Hh Hl. unfold extends, countly_store, posthog_store. cbn.
  rewrite Hl, Hh, length_app. cbn.
  split; [lia|]. split; [apply moved_same | apply moved_fresh; lia].
Qed.

Lemma clearGlobalProperties_extends faults (w : World) :
  extends w (clearGlobalProperties faults w).
Proof.
  unfold clearGlobalProperties.
  set (w1 := match active_countly w with Some _ => _ | None => w end).
  assert (H1 : extends w w1).
  { subst w1. destruct (active_countly w) as [p|] eqn:Ha; [|apply extends_refl].
    destruct (clear_countly_half w p Ha) as (p' & -> & Hl & _).
    by apply extends_new_countly_store. }
  eapply extends_trans; [exact H1|].
  destruct (active_posthog w1) as [q|] eqn:Hq; [|apply extends_refl].
  pose proof (clear_posthog_half faults w1 q Hq) as H. cbv zeta in H.
  pose proof (unregister_each_spec faults (map_to_list (posthog_registered w1)).*1 (rt w1))
    as (ks & Hh & _).
  destruct (unregister_each _ _ _) as [[] rt2]; cbn [fst snd] in *.
  - destruct H as (q' & -> & Hl & _). by apply extends_new_posthog_store.
  - rewrite H. apply extends_frame; [by rewrite <- Hh | reflexivity..].
Qed.

Lemma reset_extends (w : World) : extends w (reset w).1.
Proof.
  unfold reset.
  destruct (active_countly w) as [p|] eqn:Ha; [|apply extends_refl].
  destruct (reset_countly_half w p Ha) as (p' & requests & -> & Hl & _).
  by apply extends_new_countly_store.
Qed.

Lemma PostHogProvider_capture_frame p n props r :
  heap (PostHogProvider.capture p n props r) = heap r
  /\ currentPlatform (PostHogProvider.capture p n props r) = currentPlatform r.
Proof.
  unfold PostHogProvider.capture, PostHogProviderWeb.capture, PostHogProviderNative.capture,
    PostHogProviderWeb.trackEvent, PostHogProviderNative.trackEvent.
  destruct p as [[[[[] ? ? ? ? ?]|[[] ? ? ? ? ?]]|] d]; by split.
Qed.

Lemma trackError_frame faults error metadata (w : World) :
  this (trackError faults error metadata w).1.2 = this w
  /\ heap (rt (trackError faults error metadata w).1.2) = heap (rt w)
  /\ currentPlatform (rt (trackError faults error metadata w).1.2) = currentPlatform (rt w).
Proof.
  unfold trackError. destruct error as [| |e]; [by repeat split..|].
  cbn [fst snd]. destruct (active_posthog w) as [q|]; [|by repeat split].
  destruct (PostHogProvider_capture_frame q "$exception"
              (Some (exception_properties
                       (spread {[ "message" := or_else (error_message e)
                                                  (JsString (error_String e));
                                  "name" := or_else (error_name e) (JsString "Error");
                                  "stack" := or_else (error_stack e) (JsString "") ]}
                               (default ∅ metadata))
                       (default ∅ metadata)))
              (rt w)) as [Hh Hp].
  cbn. by repeat split.
Qed.

Lemma trackError_extends faults error metadata (w : World) :
  extends w (trackError faults error metadata w).1.2.
Proof.
  destruct (trackError_frame faults error metadata w) as (Ht & Hh & _).
  apply extends_frame; [by rewrite Hh | |];
    unfold countly_store, posthog_store; by rewrite Ht.
Qed.

Lemma perform_extends env faults c s : extends (world s) (world (perform env faults c s)).
Proof.
  destruct c; cbn [perform world].
  - apply step_extends.
  - apply reset_extends.
  - apply clearGlobalProperties_extends.
  - apply trackError_extends.
Qed.

Lemma perform_handed env faults c s :
  handed (perform env faults c s)
    = match c with
      | CallOp OpGetGlobalProperties => length (heap (rt (world s))) :: handed s
      | _ => handed s
      end.
Proof. destruct c; try reflexivity. cbn [perform]. rewrite step_handed. by destruct op. Qed.

(** Every session keeps the stores allocated and apart from the objects
    handed out, also with [reset], [clearGlobalProperties] and
    [trackError] among its calls. *)
Lemma attainable_heap_ok (s : Session) : attainable s -> heap_ok s.
Proof.
  induction 1 as [|env faults c s Hr (Hc & Hp & Hh)].
  - split; [|split]; cbn; intros l Hl; try discriminate. by apply not_elem_of_nil in Hl.
  - pose proof (perform_extends env faults c s) as (Hle & Hmc & Hmp).
    assert (Hold : forall l, l ∈ handed s ->
              l < length (heap (rt (world (perform env faults c s))))
              /\ countly_store (world (perform env faults c s)) <> Some l
              /\ posthog_store (world (perform env faults c s)) <> Some l).
    { intros l Hl. destruct (Hh l Hl) as (Hlt & Hnc & Hnp).
      repeat split; [lia | |]; intros Heq.
      - destruct (Hmc l Heq) as [?|?]; [done | lia].
      - destruct (Hmp l Heq) as [?|?]; [done | lia]. }
    split; [|split].
    + intros l Hl. destruct (Hmc l Hl) as [Ho|?]; [|lia]. specialize (Hc l Ho). lia.
    + intros l Hl. destruct (Hmp l Hl) as [Ho|?]; [|lia]. specialize (Hp l Ho). lia.
    + rewrite perform_handed.
      destruct c as [op| | |]; try exact Hold.
      destruct op; try exact Hold.
      intros l Hl.
      apply elem_of_cons in Hl as [->|Hin]; [|apply Hold; exact Hin].
      cbn [perform]. rewrite step_get_world. cbn.
      split; [heap_arith|].
      split; intros Heq; [apply Hc in Heq | apply Hp in Heq]; lia.
Qed.

(** *** The configuration is there when it is read *)

Lemma same_setup_refl (w : World) : same_setup w w.
Proof. by repeat split. Qed.

Lemma same_setup_this (w w' : World) : this w' = this w -> same_setup w w'.
Proof. unfold same_setup. by intros ->. Qed.

Lemma same_setup_known (w w' : World) : same_setup w w' -> config_known w -> config_known w'.
Proof.
  unfold same_setup, config_known. intros (-> & -> & Hc & Hp) H. rewrite Hc, Hp. exact H.
Qed.

Ltac setup_cases w :=
  destruct_world w; unfold same_setup; cbn; repeat case_match; cbn;
  repeat split; intros; first [done | by eexists].

Lemma setGlobalProperties_setup props (w : World) :
  same_setup w (setGlobalProperties props w).
Proof. setup_cases w. Qed.

Lemma removeGlobalProperty_setup key (w : World) :
  same_setup w (removeGlobalProperty key w).
Proof. setup_cases w. Qed.

Lemma onFeatureFlagsChange_setup env cb (w : World) :
  same_setup w (onFeatureFlagsChange env cb w).2.
Proof. setup_cases w. Qed.

Lemma onStateChange_this_setup r (w : World) : same_setup w (onStateChange r w).
Proof.
  unfold onStateChange. cbv zeta. repeat case_match;
    unfold same_setup; cbn; rewrite ?trackView_this; by repeat split.
Qed.

Lemma onRouteChange_setup url h (w : World) : same_setup w (onRouteChange url h w).2.
Proof.
  unfold onRouteChange. cbv zeta. repeat case_match;
    unfold same_setup; cbn; rewrite ?trackView_this; by repeat split.
Qed.

Lemma step_setup env op s :
  (forall cfg, op <> OpInit cfg) -> same_setup (world s) (world (step env op s)).
Proof.
  intros Hop. destruct op; cbn [step world].
  - by destruct (Hop cfg).
  - apply same_setup_this, trackEvent_this.
  - apply same_setup_this, trackView_this.
  - by repeat split.
  - by repeat split.
  - by repeat split.
  - apply setGlobalProperties_setup.
  - rewrite getGlobalProperties_spec. by apply same_setup_this.
  - apply removeGlobalProperty_setup.
  - apply onFeatureFlagsChange_setup.
  - by repeat split.
  - apply onStateChange_this_setup.
  - apply onRouteChange_setup.
  - case_bool_decide; by apply same_setup_this.
Qed.

Lemma clearGlobalProperties_setup faults (w : World) :
  same_setup w (clearGlobalProperties faults w).
Proof.
  unfold clearGlobalProperties.
  set (w1 := match active_countly w with Some _ => _ | None => w end).
  assert (H1 : same_setup w w1 /\ active_posthog w1 = active_posthog w).
  { subst w1. destruct (active_countly w) as [p|] eqn:Ha;
      [|split; [apply same_setup_refl | reflexivity]].
    destruct (clear_countly_half w p Ha) as (p' & -> & _).
    destruct (active_countly_Some w p Ha) as (Hcp & _).
    split; [|reflexivity]. unfold same_setup. cbn. rewrite Hcp.
    repeat split; intros; try done; by eexists. }
  destruct H1 as [Hsame Hap].
  destruct (active_posthog w1) as [q|] eqn:Hq; [|exact Hsame].
  destruct Hsame as (Hcfg & Hini & Hc & Hp).
  pose proof (clear_posthog_half faults w1 q Hq) as H. cbv zeta in H.
  destruct (active_posthog_Some w1 q Hq) as (Hqp & _).
  destruct (unregister_each _ _ _) as [[] rt2]; cbn [fst snd] in *.
  - destruct H as (q' & -> & _). unfold same_setup. cbn. rewrite <- Hp, Hqp.
    repeat split; try done; intros; try (by eexists); by apply Hc.
  - rewrite H. unfold same_setup. cbn. by repeat split; try apply Hc; try apply Hp.
Qed.

Lemma reset_setup (w : World) : same_setup w (reset w).1.
Proof.
  unfold reset. destruct (active_countly w) as [p|] eqn:Ha; [|apply same_setup_refl].
  destruct (reset_countly_half w p Ha) as (p' & requests & -> & _).
  destruct (active_countly_Some w p Ha) as (Hcp & _).
  unfold same_setup. cbn. rewrite Hcp. repeat split; intros; try done; by eexists.
Qed.

Lemma init_countly_this env cfg c (w : World) :
  config (this (init_countly env cfg c w)) = config (this w).
Proof. unfold init_countly. by repeat case_match. Qed.

Lemma init_posthog_this env cfg c (w : World) :
  config (this (init_posthog env cfg c w)) = config (this w).
Proof. unfold init_posthog. by repeat case_match. Qed.

Lemma init_config_known env cfg (w : World) :
  config_known w -> config_known (init env cfg w).2.
Proof.
  intros Hk. unfold init.
  destruct (initialized (this w)); [exact Hk|].
  destruct (negb _); [exact Hk|].
  assert (Hsome : forall w', config (this w') = Some cfg -> config_known w').
  { intros w' Hc _. rewrite Hc. by eexists. }
  destruct (if truthy_string (platform cfg) then _ else _) as [[[]|e] rt1]; cbn [snd];
    apply Hsome; [|reflexivity].
  change (config (this (set_initialized true ?x))) with (config (this x)).
  destruct (posthog cfg), (countly cfg);
    rewrite ?init_posthog_this, ?init_countly_this; reflexivity.
Qed.

Lemma perform_config_known env faults c s :
  config_known (world s) -> config_known (world (perform env faults c s)).
Proof.
  intros Hk. destruct c as [op| | |error metadata]; cbn [perform world].
  - destruct op; try (by apply (same_setup_known (world s)); [apply step_setup|]).
    by apply init_config_known.
  - by apply (same_setup_known (world s)); [apply reset_setup|].
  - by apply (same_setup_known (world s)); [apply clearGlobalProperties_setup|].
  - apply (same_setup_known (world s)); [|done].
    apply same_setup_this. apply trackError_frame.
Qed.

Lemma attainable_config_known (s : Session) : attainable s -> config_known (world s).
Proof.
  induction 1 as [|env faults c s Hr IH].
  - intros [[? H]|[[? H]|H]]; discriminate.
  - by apply perform_config_known.
Qed.

Lemma reachable_attainable (s : Session) : reachable s -> attainable s.
Proof.
  induction 1 as [|env op s Hr IH]; [constructor|].
  exact (attainable_perform env Scenario.sound (CallOp op) s IH).
Qed.

End ClearAndReset.

(** ** Global properties: set, clear, reset *)

Section GlobalPropertiesMore.

Import UnifiedAnalytics.

Lemma countly_context_active (w : World) (p : CountlyProvider.t) (l : loc) :
  active_countly w = Some p -> CountlyProvider.context_loc p = Some l ->
  countly_store w = Some l /\ countly_context w = deref (rt w) l
  /\ global_properties w = deref (rt w) l.
Proof.
  intros Ha Hl. destruct (active_countly_Some w p Ha) as (Hcp & _ & l' & Hl' & Hs).
  assert (l' = l) as -> by congruence.
  unfold countly_context, global_properties. rewrite Hs, Ha, Hl. by repeat split.
Qed.

Lemma posthog_registered_active (w : World) (p : PostHogProvider.t) (l : loc) :
  active_posthog w = Some p -> PostHogProvider.registered_loc p = Some l ->
  posthog_store w = Some l /\ posthog_registered w = deref (rt w) l
  /\ (active_countly w = None -> global_properties w = deref (rt w) l).
Proof.
  intros Ha Hl. destruct (active_posthog_Some w p Ha) as (Hcp & _ & l' & Hl' & Hs).
  assert (l' = l) as -> by congruence.
  unfold posthog_registered, global_properties. rewrite Hs, Ha, Hl.
  repeat split; try done. by intros ->.
Qed.

Lemma setGlobalProperties_stores props (w : World) :
  (forall l, countly_store w = Some l -> l < length (heap (rt w))) ->
  (forall l, posthog_store w = Some l -> l < length (heap (rt w))) ->
  let w' := setGlobalProperties props w in
  (countly_active w = true -> countly_context w' = spread (countly_context w) props)
  /\ (posthog_active w = true ->
      posthog_registered w' = spread (posthog_registered w) props)
  /\ (countly_active w = true \/ posthog_active w = true ->
      global_properties w' = spread (global_properties w) props).
Proof.
  intros Hc Hp.
  destruct_world w; cbn in Hc, Hp |- *;
    repeat split; intros H; try discriminate; try (destruct H; discriminate);
    unfold countly_context, posthog_registered, deref; cbn;
    rewrite ?heap_last_but_one, ?heap_last, ?heap_last_S; cbn;
    try reflexivity.
  all: rewrite lookup_app_l by (apply Hp; reflexivity); reflexivity.
Qed.

Lemma elem_of_keys (m : Props) (k : string) :
  k ∈ (map_to_list m).*1 <-> is_Some (m !! k).
Proof.
  rewrite list_elem_of_fmap. split.
  - intros ([k' v] & -> & Hin). apply elem_of_map_to_list in Hin. by exists v.
  - intros [v Hv]. exists (k, v). split; [done | by apply elem_of_map_to_list].
Qed.

(** The Countly half of [clearGlobalProperties] and of [reset]: a new
    empty context, every older object as it was. *)
Lemma new_countly_store_contents (w : World) (p' : CountlyProvider.t) :
  CountlyProvider.context_loc p' = Some (length (heap (rt w))) ->
  CountlyProvider.isInitialized p' = true ->
  (forall l, posthog_store w = Some l -> l < length (heap (rt w))) ->
  let w1 := set_countlyProvider (Some p') (set_rt (alloc ∅ (rt w)).2 w) in
  countly_context w1 = ∅
  /\ global_properties w1 = ∅
  /\ posthog_registered w1 = posthog_registered w
  /\ active_posthog w1 = active_posthog w
  /\ calls_between w w1 = []
  /\ (forall l, posthog_store w1 = Some l -> l < length (heap (rt w1))).
Proof.
  intros Hl Hi Hp w1.
  assert (Ha : active_countly w1 = Some p').
  { unfold active_countly. cbn. by rewrite Hi. }
  destruct (countly_context_active w1 p' _ Ha Hl) as (_ & -> & ->).
  assert (Hnew : deref (rt w1) (length (heap (rt w))) = ∅)
    by (subst w1; cbn; apply deref_alloc_new).
  split; [exact Hnew|]. split; [exact Hnew|].
  split; [|split; [reflexivity|split]].
  - unfold posthog_registered. change (posthog_store w1) with (posthog_store w).
    destruct (posthog_store w) as [l|] eqn:Hs; [|done]. cbn.
    apply deref_alloc_old. by apply Hp.
  - by apply calls_between_refl.
  - intros l Hs. change (posthog_store w1) with (posthog_store w) in Hs.
    apply Hp in Hs. subst w1. cbn. rewrite length_app. cbn. lia.
Qed.

(** The PostHog half of [clearGlobalProperties]. *)
Lemma clear_posthog_contents faults (w : World) (p : PostHogProvider.t) :
  active_posthog w = Some p ->
  (forall l, countly_store w = Some l -> l < length (heap (rt w))) ->
  let w' := (let (p1, rt1) := PostHogProvider.clearRegisteredProperties faults p (rt w) in
             set_posthogProvider (Some p1) (set_rt rt1 w)) in
  countly_context w' = countly_context w
  /\ active_countly w' = active_countly w
  /\ is_Some (active_posthog w')
  /\ ((forall k, is_Some (posthog_registered w !! k) -> unregister_throws faults k = false) ->
      posthog_registered w' = ∅
      /\ calls_between w w' = PostHog_unregister <$> (map_to_list (posthog_registered w)).*1)
  /\ ((exists k, is_Some (posthog_registered w !! k) /\ unregister_throws faults k = true) ->
      posthog_registered w' = posthog_registered w
      /\ exists ks, calls_between w w' = PostHog_unregister <$> ks
                    /\ ks `prefix_of` (map_to_list (posthog_registered w)).*1).
Proof.
  intros Ha Hc w'.
  pose proof (clear_posthog_half faults w p Ha) as H. cbv zeta in H. fold w' in H.
  pose proof (unregister_each_spec faults (map_to_list (posthog_registered w)).*1 (rt w))
    as (ks & Hh & Hplat & Hs & Hsub & Hall & Hiff).
  destruct (active_posthog_Some w p Ha) as (Hpp & Hi & l & Hl & Hst).
  destruct (unregister_each faults (map_to_list (posthog_registered w)).*1 (rt w))
    as [completed rt1] eqn:Hloop.
  cbn [fst snd] in *.
  destruct completed.
  - destruct H as (p' & Hw' & Hl' & Hi'). rewrite Hw'.
    assert (Hap : active_posthog
                    (set_posthogProvider (Some p') (set_rt (alloc ∅ rt1).2 w)) = Some p').
    { unfold active_posthog. cbn. by rewrite Hi'. }
    split; [|split; [reflexivity|split; [by rewrite Hap|split]]].
    + unfold countly_context.
      change (countly_store (set_posthogProvider _ _)) with (countly_store w).
      destruct (countly_store w) as [lc|] eqn:Hsc; [|done].
      cbn [fmap option_fmap option_map default from_option rt set_posthogProvider set_rt].
      unfold id. rewrite deref_alloc_old by (rewrite Hh; by apply Hc).
      unfold deref. by rewrite Hh.
    + intros _. specialize (Hall eq_refl). subst ks. split.
      * destruct (posthog_registered_active _ p' _ Hap Hl') as (_ & -> & _).
        cbn [rt set_posthogProvider set_rt]. rewrite <- Hh. apply deref_alloc_new.
      * apply calls_between_app. cbn. by rewrite Hs.
    + intros (k & Hk & Hthrow). exfalso.
      assert (HF : Forall (fun key => unregister_throws faults key = false)
                     (map_to_list (posthog_registered w)).*1) by (by apply Hiff).
      rewrite Forall_forall in HF. rewrite (HF k) in Hthrow; [done|].
      by apply elem_of_keys.
  - rewrite H.
    assert (Hreg : posthog_registered (set_rt rt1 w) = posthog_registered w).
    { unfold posthog_registered, deref. cbn. by rewrite Hh. }
    split; [|split; [reflexivity|split; [|split]]].
    + unfold countly_context, deref. cbn. by rewrite Hh.
    + change (active_posthog (set_rt rt1 w)) with (active_posthog w). by rewrite Ha.
    + intros Hno. exfalso.
      assert (HF : Forall (fun key => unregister_throws faults key = false)
                     (map_to_list (posthog_registered w)).*1).
      { rewrite Forall_forall. intros k Hk. apply Hno. by apply elem_of_keys. }
      apply Hiff in HF. discriminate.
    + intros _. split; [exact Hreg|]. exists ks. split; [by apply calls_between_app | done].
Qed.

Lemma calls_between_same_start (w w1 w' : World) :
  sdk (rt w1) = sdk (rt w) -> calls_between w w' = calls_between w1 w'.
Proof. unfold calls_between. by intros ->. Qed.

(** [clearGlobalProperties] with Countly enabled: its context is empty
    afterwards, whatever the PostHog half does. *)
Lemma clearGlobalProperties_countly faults (w : World) (p : CountlyProvider.t) :
  active_countly w = Some p ->
  (forall l, posthog_store w = Some l -> l < length (heap (rt w))) ->
  let w' := clearGlobalProperties faults w in
  countly_context w' = ∅ /\ global_properties w' = ∅ /\ is_Some (active_countly w').
Proof.
  intros Ha Hp. unfold clearGlobalProperties. rewrite Ha.
  destruct (clear_countly_half w p Ha) as (p' & -> & Hl & Hi).
  set (w1 := set_countlyProvider (Some p') (set_rt (alloc ∅ (rt w)).2 w)).
  destruct (new_countly_store_contents w p' Hl Hi Hp) as (Hcc & Hg & _). fold w1 in Hcc, Hg.
  assert (Ha1 : active_countly w1 = Some p').
  { unfold active_countly. cbn. by rewrite Hi. }
  assert (Hc1 : forall l, countly_store w1 = Some l -> l < length (heap (rt w1))).
  { intros l Hs. destruct (countly_context_active w1 p' _ Ha1 Hl) as (Hs' & _).
    rewrite Hs' in Hs. simplify_eq. cbn. rewrite length_app. cbn. lia. }
  destruct (active_posthog w1) as [q|] eqn:Hq; [|by rewrite Ha1].
  destruct (clear_posthog_contents faults w1 q Hq Hc1) as (Hcc2 & Hac2 & _).
  cbv zeta in *.
  set (w2 := let (p1, rt1) := PostHogProvider.clearRegisteredProperties faults q (rt w1) in
             set_posthogProvider (Some p1) (set_rt rt1 w1)) in *.
  rewrite Ha1 in Hac2.
  destruct (active_countly_Some w2 p' Hac2) as (_ & _ & l & Hl2 & _).
  destruct (countly_context_active w2 p' l Hac2 Hl2) as (_ & Hctx & Hglob).
  rewrite Hglob, <- Hctx, Hcc2, Hcc, Hac2. by repeat split.
Qed.

(** [clearGlobalProperties] with PostHog enabled: the mirror is emptied
    when no [unregister] throws, and kept whole when one does. *)
Lemma clearGlobalProperties_posthog faults (w : World) (q : PostHogProvider.t) :
  active_posthog w = Some q ->
  (forall l, countly_store w = Some l -> l < length (heap (rt w))) ->
  (forall l, posthog_store w = Some l -> l < length (heap (rt w))) ->
  let w' := clearGlobalProperties faults w in
  is_Some (active_posthog w')
  /\ (active_countly w = None -> active_countly w' = None)
  /\ ((forall k, is_Some (posthog_registered w !! k) -> unregister_throws faults k = false) ->
      posthog_registered w' = ∅
      /\ calls_between w w' = PostHog_unregister <$> (map_to_list (posthog_registered w)).*1)
  /\ ((exists k, is_Some (posthog_registered w !! k) /\ unregister_throws faults k = true) ->
      posthog_registered w' = posthog_registered w
      /\ exists ks, calls_between w w' = PostHog_unregister <$> ks
                    /\ ks `prefix_of` (map_to_list (posthog_registered w)).*1).
Proof.
  intros Hq Hc Hp. unfold clearGlobalProperties.
  set (w1 := match active_countly w with Some _ => _ | None => w end).
  assert (H1 : posthog_registered w1 = posthog_registered w
               /\ active_posthog w1 = active_posthog w
               /\ sdk (rt w1) = sdk (rt w)
               /\ (active_countly w = None -> w1 = w)
               /\ (forall l, countly_store w1 = Some l -> l < length (heap (rt w1)))).
  { subst w1. destruct (active_countly w) as [p|] eqn:Ha; [|by repeat split].
    destruct (clear_countly_half w p Ha) as (p' & -> & Hl & Hi).
    destruct (new_countly_store_contents w p' Hl Hi Hp) as (_ & _ & Hr & Hap & _).
    split; [done|]. split; [done|]. split; [reflexivity|]. split; [done|].
    intros l Hs. unfold countly_store in Hs. cbn in Hs. rewrite Hl in Hs.
    simplify_eq. cbn. rewrite length_app. cbn. lia. }
  destruct H1 as (Hr1 & Hap1 & Hs1 & Hsame & Hc1).
  rewrite Hap1, Hq. rewrite <- Hap1 in Hq.
  destruct (clear_posthog_contents faults w1 q Hq Hc1) as (_ & Hac & Hsome & Hok & Hbad).
  cbv zeta in *. rewrite Hr1 in Hok, Hbad.
  rewrite !(calls_between_same_start w w1) by done.
  split; [exact Hsome|]. split; [|split; [exact Hok | exact Hbad]].
  intros Hnone. rewrite Hac. by rewrite (Hsame Hnone).
Qed.

(** The requests of [reset]: the temporary device id on a native Countly
    adapter, and the PostHog client's own reset. *)
Lemma reset_requests (w : World) :
  (reset w).2
    = ((match countly_platform w with
        | Some native => [Countly_changeDeviceId TemporaryDeviceIDString false]
        | _ => []
        end)
       ++ (if posthog_active w then [PostHog_reset] else []))%list.
Proof. destruct_world w; reflexivity. Qed.

Lemma reset_contents (w : World) :
  (forall l, posthog_store w = Some l -> l < length (heap (rt w))) ->
  let w' := (reset w).1 in
  posthog_registered w' = posthog_registered w
  /\ active_posthog w' = active_posthog w
  /\ calls_between w w' = []
  /\ (is_Some (active_countly w) ->
      countly_context w' = ∅ /\ global_properties w' = ∅ /\ is_Some (active_countly w'))
  /\ (active_countly w = None -> w' = w).
Proof.
  intros Hp. unfold reset.
  destruct (active_countly w) as [p|] eqn:Ha.
  - destruct (reset_countly_half w p Ha) as (p' & requests & -> & Hl & Hi). cbn [fst].
    destruct (new_countly_store_contents w p' Hl Hi Hp) as (Hcc & Hg & Hr & Hap & Hcb & _).
    repeat split; try done.
    unfold active_countly. cbn. rewrite Hi. by eexists.
  - cbn [fst]. repeat split; try done; try (by intros [? ?]).
    by apply calls_between_refl.
Qed.

End GlobalPropertiesMore.

Lemma attainable_step env op s : attainable s -> attainable (step env op s).
Proof. exact (attainable_perform env Scenario.sound (CallOp op) s). Qed.

(** X13.  [setGlobalProperties] merges: each enabled provider's store
    afterwards holds what it held before overlaid with the given
    properties (a given key replaces the stored one, every other stored
    key stays), and so does what [getGlobalProperties] reads. *)
Theorem setGlobalProperties_merges (s : Session) (props : Props) :
  attainable s ->
  let w := world s in
  let w' := UnifiedAnalytics.setGlobalProperties props w in
  (UnifiedAnalytics.countly_active w = true ->
     countly_context w' = spread (countly_context w) props)
  /\ (UnifiedAnalytics.posthog_active w = true ->
        posthog_registered w' = spread (posthog_registered w) props)
  /\ (UnifiedAnalytics.countly_active w = true \/ UnifiedAnalytics.posthog_active w = true ->
        global_properties w' = spread (global_properties w) props).
Proof.
  intros Hs. destruct (attainable_heap_ok s Hs) as (Hc & Hp & _).
  by apply setGlobalProperties_stores.
Qed.

Lemma setGlobalProperties_merges_witness :
  attainable Scenario.both_plan
  /\ global_properties
       (UnifiedAnalytics.setGlobalProperties {[ "seats" := JsNumber 5 ]}
          (world Scenario.both_plan))
     = spread (global_properties (world Scenario.both_plan)) {[ "seats" := JsNumber 5 ]}
  /\ global_properties (world Scenario.both_plan) !! "plan" = Some (JsString "pro").
Proof.
  assert (H : attainable Scenario.both_plan)
    by (do 2 apply attainable_step; apply attainable_start).
  split; [exact H|].
  destruct (setGlobalProperties_merges Scenario.both_plan {[ "seats" := JsNumber 5 ]} H)
    as (_ & _ & Hg).
  split; [apply Hg; left; reflexivity | reflexivity].
Defined.

(** X14.  With Countly enabled, [clearGlobalProperties] leaves nothing
    for [getGlobalProperties] to read, whatever the PostHog client does
    while it is being cleared; and [setGlobalProperties] right after it
    gives exactly the properties set.  (This pair does remove a key where
    [removeGlobalProperty] leaves it.) *)
Theorem clearGlobalProperties_empties (s : Session) (faults : Faults) (props : Props) :
  attainable s ->
  UnifiedAnalytics.countly_active (world s) = true ->
  let w' := UnifiedAnalytics.clearGlobalProperties faults (world s) in
  countly_context w' = ∅
  /\ global_properties w' = ∅
  /\ global_properties (UnifiedAnalytics.setGlobalProperties props w') = props.
Proof.
  intros Hs Hact w'.
  destruct (attainable_heap_ok s Hs) as (Hc & Hp & _).
  apply bool_decide_eq_true in Hact as [p Ha].
  destruct (clearGlobalProperties_countly faults (world s) p Ha Hp) as (Hctx & Hg & Ha').
  fold w' in Hctx, Hg, Ha'.
  split; [exact Hctx|]. split; [exact Hg|].
  pose proof (attainable_perform Scenario.calm faults CallClearGlobalProperties s Hs) as Hs'.
  destruct (attainable_heap_ok _ Hs') as (Hc' & Hp' & _).
  destruct (setGlobalProperties_stores props _ Hc' Hp') as (_ & _ & Hm).
  cbn [perform world] in Hm. fold w' in Hm.
  rewrite Hm, Hg; [unfold spread; apply (right_id_L ∅ (∪))|].
  left. by apply bool_decide_eq_true.
Qed.

Lemma clearGlobalProperties_empties_witness :
  attainable Scenario.both_plan
  /\ global_properties (world Scenario.both_plan) !! "plan" = Some (JsString "pro")
  /\ global_properties
       (UnifiedAnalytics.clearGlobalProperties Scenario.unregister_fails
          (world Scenario.both_plan)) = ∅.
Proof.
  assert (H : attainable Scenario.both_plan)
    by (do 2 apply attainable_step; apply attainable_start).
  split; [exact H|]. split; [reflexivity|].
  by destruct (clearGlobalProperties_empties Scenario.both_plan Scenario.unregister_fails ∅
                 H eq_refl) as (_ & Hg & _).
Defined.

Lemma unregister_throws_somewhere faults (keys : list string) :
  Forall (fun k => unregister_throws faults k = false) keys
  \/ exists k, k ∈ keys /\ unregister_throws faults k = true.
Proof.
  induction keys as [|key rest [IH|(k & Hin & Hk)]].
  - by left.
  - destruct (unregister_throws faults key) eqn:Hkey.
    + right. exists key. split; [by left | done].
    + left. by constructor.
  - right. exists k. split; [by right | done].
Qed.

(** X15.  The PostHog half of [clearGlobalProperties] is all or nothing
    for the library's mirror of the registered properties.  It asks the
    client to unregister the registered keys one by one.  If no call
    throws, every key is unregistered once and the mirror is empty.  If
    one throws, the loop stops there and the mirror keeps every key, the
    ones already unregistered in the client too. *)
Theorem clearGlobalProperties_mirror_all_or_nothing (s : Session) (faults : Faults) :
  attainable s ->
  UnifiedAnalytics.posthog_active (world s) = true ->
  let w := world s in
  let w' := UnifiedAnalytics.clearGlobalProperties faults w in
  exists keys,
    calls_between w w' = PostHog_unregister <$> keys
    /\ NoDup keys
    /\ (forall k, k ∈ keys -> is_Some (posthog_registered w !! k))
    /\ ((forall k, is_Some (posthog_registered w !! k) -> unregister_throws faults k = false) ->
        posthog_registered w' = ∅
        /\ forall k, is_Some (posthog_registered w !! k) -> k ∈ keys)
    /\ ((exists k, is_Some (posthog_registered w !! k) /\ unregister_throws faults k = true) ->
        posthog_registered w' = posthog_registered w).
Proof.
  intros Hs Hact w w'.
  destruct (attainable_heap_ok s Hs) as (Hc & Hp & _).
  apply bool_decide_eq_true in Hact as [q Hq].
  destruct (clearGlobalProperties_posthog faults w q Hq Hc Hp) as (_ & _ & Hok & Hbad).
  fold w' in Hok, Hbad.
  assert (Hdec : (forall k, is_Some (posthog_registered w !! k) ->
                            unregister_throws faults k = false)
                 \/ exists k, is_Some (posthog_registered w !! k)
                              /\ unregister_throws faults k = true).
  { destruct (unregister_throws_somewhere faults (map_to_list (posthog_registered w)).*1)
      as [HF|(k & Hin & Hk)].
    - left. intros k Hk. rewrite Forall_forall in HF. apply HF. by apply elem_of_keys.
    - right. exists k. split; [by apply elem_of_keys | done]. }
  destruct Hdec as [Hall|Hsome].
  - destruct (Hok Hall) as [Hempty Hcalls].
    exists (map_to_list (posthog_registered w)).*1.
    split; [exact Hcalls|]. split; [apply NoDup_fst_map_to_list|].
    split; [intros k; apply elem_of_keys|]. split.
    + intros _. split; [exact Hempty | intros k; apply elem_of_keys].
    + intros (k & Hk & Hthrow). by rewrite (Hall k Hk) in Hthrow.
  - destruct (Hbad Hsome) as (Hkept & ks & Hcalls & [rest Hpre]).
    exists ks. split; [exact Hcalls|].
    pose proof (NoDup_fst_map_to_list (posthog_registered w)) as Hnd.
    rewrite Hpre in Hnd. apply NoDup_app in Hnd as (Hnd & _).
    split; [exact Hnd|]. split.
    + intros k Hk. apply elem_of_keys. rewrite Hpre. apply elem_of_app. by left.
    + split; [|by intros _]. intros Hall. destruct Hsome as (k & Hk & Hthrow).
      by rewrite (Hall k Hk) in Hthrow.
Qed.

Lemma clearGlobalProperties_mirror_all_or_nothing_witness :
  attainable Scenario.posthog_plan
  /\ posthog_registered
       (UnifiedAnalytics.clearGlobalProperties Scenario.unregister_fails
          (world Scenario.posthog_plan))
     = posthog_registered (world Scenario.posthog_plan)
  /\ posthog_registered (world Scenario.posthog_plan) !! "plan" = Some (JsString "pro").
Proof.
  assert (H : attainable Scenario.posthog_plan)
    by (do 2 apply attainable_step; apply attainable_start).
  split; [exact H|].
  destruct (clearGlobalProperties_mirror_all_or_nothing Scenario.posthog_plan
              Scenario.unregister_fails H eq_refl) as (keys & _ & _ & _ & _ & Hkept).
  split; [|reflexivity].
  apply Hkept. exists "plan". split; [by eexists | reflexivity].
Defined.

(** X16.  [reset] forgets on one side only.  With Countly enabled its
    user context is replaced by an empty one, so [getGlobalProperties]
    reads nothing afterwards; the library's mirror of the PostHog
    registered properties is left as it was, so with PostHog alone
    [getGlobalProperties] reads after [reset] what it read before.  The
    SDKs are asked for this much: the PostHog client's own reset, and on
    a native Countly adapter the switch to the temporary device id (on
    web, nothing). *)
Theorem reset_forgets_countly_only (s : Session) :
  attainable s ->
  let w := world s in
  let w' := (UnifiedAnalytics.reset w).1 in
  (UnifiedAnalytics.countly_active w = true ->
     countly_context w' = ∅ /\ global_properties w' = ∅)
  /\ posthog_registered w' = posthog_registered w
  /\ (UnifiedAnalytics.countly_active w = false -> global_properties w' = global_properties w)
  /\ calls_between w w' = []
  /\ (UnifiedAnalytics.reset w).2
     = ((match countly_platform w with
         | Some native => [Countly_changeDeviceId TemporaryDeviceIDString false]
         | _ => []
         end)
        ++ (if UnifiedAnalytics.posthog_active w then [PostHog_reset] else []))%list.
Proof.
  intros Hs w w'.
  destruct (attainable_heap_ok s Hs) as (_ & Hp & _).
  destruct (reset_contents w Hp) as (Hr & _ & Hcb & Hc & Hnone). fold w' in Hr, Hcb, Hc, Hnone.
  split; [|split; [exact Hr|split; [|split; [exact Hcb | apply reset_requests]]]].
  - intros Hact. apply bool_decide_eq_true in Hact. by destruct (Hc Hact) as (? & ? & _).
  - intros Hact. apply bool_decide_eq_false in Hact.
    rewrite Hnone; [done|]. destruct (UnifiedAnalytics.active_countly w); [|done].
    exfalso. apply Hact. by eexists.
Qed.

Lemma reset_forgets_countly_only_witness :
  attainable Scenario.posthog_plan
  /\ global_properties (UnifiedAnalytics.reset (world Scenario.posthog_plan)).1 !! "plan"
     = Some (JsString "pro")
  /\ (UnifiedAnalytics.reset (world Scenario.posthog_plan)).2 = [PostHog_reset].
Proof.
  assert (H : attainable Scenario.posthog_plan)
    by (do 2 apply attainable_step; apply attainable_start).
  split; [exact H|].
  destruct (reset_forgets_countly_only Scenario.posthog_plan H) as (_ & _ & Hg & _ & Hreq).
  split; [by rewrite Hg | exact Hreq].
Defined.

(** ** Timers and feature flags *)

Section TimersAndFlags.

Import UnifiedAnalytics.

Lemma posthog_debug_test_known (w : World) :
  config_known w -> posthog_debug_test w = Returns tt.
Proof.
  unfold posthog_debug_test, config_known. intros Hk.
  destruct (active_posthog w) as [q|] eqn:Hq; [|done].
  destruct (active_posthog_Some w q Hq) as (Hqp & _).
  destruct Hk as [c ->]; [|done]. right; left. by eexists.
Qed.

Lemma timer_requests (name : string) (properties : option Props) (w : World) :
  (startTimer name w).2
    = match countly_platform w with
      | Some web => [Countly_start_event name]
      | Some native => [Countly_events_startEvent name]
      | None => []
      end
  /\ (endTimer name properties w).2
     = match countly_platform w with
       | Some web =>
           [Countly_end_event name
              (BaseProvider.stringifyProperties (Some (default ∅ properties)))]
       | Some native =>
           [Countly_events_endEvent name
              (BaseProvider.stringifyProperties (Some (default ∅ properties)))]
       | None => []
       end.
Proof. destruct_world w; split; reflexivity. Qed.

Lemma countly_platform_active (w : World) :
  is_Some (countly_platform w) <-> countly_active w = true.
Proof. destruct_world w; cbn; split; intros H; try done; by inversion H. Qed.

End TimersAndFlags.

(** X17.  In no session do [startTimer] and [endTimer] throw, although
    they read [this.config]: the configuration is always there by the
    time a PostHog provider is enabled.  Only Countly hears of a timer,
    once per call; PostHog gets nothing.  The segmentation of the ended
    event is the stringified properties of the call alone: the global
    properties are not merged into timed events. *)
Theorem timers_do_not_throw (s : Session) (name : string) (properties : option Props) :
  attainable s ->
  let w := world s in
  (UnifiedAnalytics.startTimer name w).1 = Returns tt
  /\ (UnifiedAnalytics.endTimer name properties w).1 = Returns tt
  /\ (if UnifiedAnalytics.countly_active w
      then exists r r',
             (UnifiedAnalytics.startTimer name w).2 = [r]
             /\ timer_started r = Some name
             /\ (UnifiedAnalytics.endTimer name properties w).2 = [r']
             /\ timer_ended r'
                = Some (name, BaseProvider.stringifyProperties (Some (default ∅ properties)))
      else (UnifiedAnalytics.startTimer name w).2 = []
           /\ (UnifiedAnalytics.endTimer name properties w).2 = []).
Proof.
  intros Hs w. pose proof (attainable_config_known s Hs) as Hk. fold w in Hk.
  split; [by apply posthog_debug_test_known|].
  split; [by apply posthog_debug_test_known|].
  destruct (timer_requests name properties w) as [-> ->].
  pose proof (countly_platform_active w) as Hiff.
  destruct (UnifiedAnalytics.countly_active w).
  - destruct (countly_platform w) as [[]|]; [| |by destruct (proj2 Hiff eq_refl)];
      do 2 eexists; repeat split.
  - destruct (countly_platform w) as [plat|]; [|done].
    assert (false = true) by (apply Hiff; by eexists). discriminate.
Qed.

Lemma timers_do_not_throw_witness :
  attainable Scenario.both_plan
  /\ UnifiedAnalytics.startTimer "checkout" (world Scenario.both_plan)
     = (Returns tt, [Countly_start_event "checkout"])
  /\ UnifiedAnalytics.endTimer "checkout" None (world Scenario.both_plan)
     = (Returns tt, [Countly_end_event "checkout" ∅]).
Proof.
  assert (H : attainable Scenario.both_plan)
    by (do 2 apply attainable_step; apply attainable_start).
  split; [exact H|].
  destruct (timers_do_not_throw Scenario.both_plan "checkout" None H) as (Hst & Hen & _).
  split; [|reflexivity].
  destruct (UnifiedAnalytics.startTimer "checkout" (world Scenario.both_plan)) as [r rs] eqn:E.
  cbn [fst] in Hst. subst r. by injection E as <-.
Defined.

(** X18.  Once [init] has resolved, [getFeatureFlag] no longer throws,
    in any session: it returns what the PostHog provider answers, and
    [null] when PostHog is not enabled. *)
Theorem getFeatureFlag_after_init (s : Session) (env : Env) (key : string) :
  attainable s ->
  UnifiedAnalytics.isInitialized (world s) = true ->
  exists v,
    UnifiedAnalytics.getFeatureFlag env key (world s) = Returns v
    /\ (UnifiedAnalytics.posthog_active (world s) = false -> v = JsNull).
Proof.
  intros Hs Hi. pose proof (attainable_config_known s Hs) as Hk.
  unfold UnifiedAnalytics.getFeatureFlag, UnifiedAnalytics.posthog_active.
  destruct (UnifiedAnalytics.active_posthog (world s)) as [q|].
  - eexists. split; [reflexivity|]. intros H. apply bool_decide_eq_false in H.
    exfalso. apply H. by eexists.
  - destruct Hk as [c ->]; [by right; right|]. by exists JsNull.
Qed.

Lemma getFeatureFlag_after_init_witness :
  attainable (step Scenario.calm (OpInit Scenario.countly_only) session_start)
  /\ UnifiedAnalytics.getFeatureFlag Scenario.calm "new_ui" Scenario.with_countly
     = Returns JsNull.
Proof.
  assert (H : attainable (step Scenario.calm (OpInit Scenario.countly_only) session_start))
    by (apply attainable_step, attainable_start).
  split; [exact H|].
  destruct (getFeatureFlag_after_init _ Scenario.calm "new_ui" H eq_refl) as (v & Hv & Hnull).
  rewrite (Hnull eq_refl) in Hv. exact Hv.
Defined.

(** ** Errors *)

Section Errors.

Import UnifiedAnalytics.

Lemma errorData_fields (e : ErrorView) (md : Props) :
  let errorData :=
    spread {[ "message" := or_else (error_message e) (JsString (error_String e));
              "name" := or_else (error_name e) (JsString "Error");
              "stack" := or_else (error_stack e) (JsString "") ]} md in
  default JsUndefined (errorData !! "message") = reported_message e md
  /\ default JsUndefined (errorData !! "name") = reported_name e md
  /\ default JsUndefined (errorData !! "stack") = reported_stack e md.
Proof.
  cbv zeta. unfold reported_message, reported_name, reported_stack.
  rewrite !lookup_spread.
  destruct (md !! "message"), (md !! "name"), (md !! "stack"); by repeat split.
Qed.

Lemma exception_properties_lookup (errorData md : Props) (k : string) :
  exception_properties errorData md !! k
    = match md !! k with
      | Some v => Some v
      | None =>
          if String.eqb k "$exception_message"
          then Some (default JsUndefined (errorData !! "message"))
          else if String.eqb k "$exception_type"
          then Some (default JsUndefined (errorData !! "name"))
          else if String.eqb k "$exception_stack_trace_raw"
          then Some (default JsUndefined (errorData !! "stack"))
          else None
      end.
Proof.
  unfold exception_properties. rewrite lookup_spread.
  destruct (md !! k); [done|].
  destruct (String.eqb_spec k "$exception_message") as [->|H1]; [done|].
  destruct (String.eqb_spec k "$exception_type") as [->|H2]; [done|].
  destruct (String.eqb_spec k "$exception_stack_trace_raw") as [->|H3]; [done|].
  rewrite !lookup_insert_ne by done. by rewrite lookup_singleton_ne.
Qed.

Lemma capture_twice (q : PostHogProvider.t) (name : string) (props : option Props) (r : Runtime) :
  PostHogProvider.isInitialized q = true ->
  sdk (PostHogProvider.capture q name props r)
    = (sdk r ++ [PostHog_capture name (default ∅ props);
                 PostHog_capture name (default ∅ props)])%list.
Proof.
  unfold PostHogProvider.isInitialized, PostHogProvider.capture.
  destruct q as [[[[[] ? ? ? ? ?]|[[] ? ? ? ? ?]]|] d]; cbn; intros; try discriminate;
    by rewrite <- app_assoc.
Qed.

End Errors.

(** X19.  [trackError] sends its [$exception] event to PostHog twice.
    The proxy's [capture] calls the adapter's [capture] and, because that
    returns nothing, goes on to call the adapter's [trackEvent] with the
    same arguments.  Both events carry the same properties: the metadata
    as given, and the message, type and stack of the error under
    [$exception_message], [$exception_type] and
    [$exception_stack_trace_raw] unless the metadata have those keys. *)
Theorem trackError_captures_twice (faults : Faults) (e : UnifiedAnalytics.ErrorView)
    (metadata : option Props) (w : UnifiedAnalytics.World) :
  UnifiedAnalytics.posthog_active w = true ->
  let md := default ∅ metadata in
  let result := UnifiedAnalytics.trackError faults (UnifiedAnalytics.GivenError e) metadata w in
  exists properties,
    result.1.1 = Returns tt
    /\ calls_between w result.1.2
       = [PostHog_capture "$exception" properties; PostHog_capture "$exception" properties]
    /\ (forall k v, md !! k = Some v -> properties !! k = Some v)
    /\ (md !! "$exception_message" = None ->
        properties !! "$exception_message" = Some (reported_message e md))
    /\ (md !! "$exception_type" = None ->
        properties !! "$exception_type" = Some (reported_name e md))
    /\ (md !! "$exception_stack_trace_raw" = None ->
        properties !! "$exception_stack_trace_raw" = Some (reported_stack e md)).
Proof.
  intros Hact md result. apply bool_decide_eq_true in Hact as [q Hq].
  destruct (active_posthog_Some w q Hq) as (_ & Hi & _).
  subst result. unfold UnifiedAnalytics.trackError. fold md. cbn [fst snd]. rewrite Hq.
  set (errorData := spread _ md).
  exists (UnifiedAnalytics.exception_properties errorData md).
  destruct (errorData_fields e md) as (Hm & Hn & Hst). fold errorData in Hm, Hn, Hst.
  split; [reflexivity|]. split.
  { apply calls_between_app. cbn. by rewrite capture_twice. }
  split; [|split; [|split]].
  - intros k v Hk. by rewrite exception_properties_lookup, Hk.
  - intros Hk. by rewrite exception_properties_lookup, Hk, <- Hm.
  - intros Hk. by rewrite exception_properties_lookup, Hk, <- Hn.
  - intros Hk. by rewrite exception_properties_lookup, Hk, <- Hst.
Qed.

Lemma trackError_captures_twice_witness :
  let e := {| UnifiedAnalytics.error_message := JsString "boom";
              UnifiedAnalytics.error_name := JsString "TypeError";
              UnifiedAnalytics.error_stack := JsUndefined;
              UnifiedAnalytics.error_String := "TypeError: boom" |} in
  length (calls_between Scenario.with_posthog
            (UnifiedAnalytics.trackError Scenario.sound (UnifiedAnalytics.GivenError e) None
               Scenario.with_posthog).1.2) = 2.
Proof.
  cbv zeta.
  destruct (trackError_captures_twice Scenario.sound
              {| UnifiedAnalytics.error_message := JsString "boom";
                 UnifiedAnalytics.error_name := JsString "TypeError";
                 UnifiedAnalytics.error_stack := JsUndefined;
                 UnifiedAnalytics.error_String := "TypeError: boom" |}
              None Scenario.with_posthog eq_refl) as (properties & _ & Hcalls & _).
  by rewrite Hcalls.
Defined.

(** X20.  What [trackError] asks of Countly.  The message goes to the
    crash log in every case.  An error report follows only when the
    metadata carry a truthy [fatal] (and the crash-log call did not
    throw): it names the stack, or the message when there is no stack,
    always with the SDK's non-fatal flag [false], and with the whole
    metadata, [fatal] included, stringified as its segmentation.  An error
    without [fatal] is never reported as an error. *)
Theorem trackError_countly_requests (faults : Faults) (e : UnifiedAnalytics.ErrorView)
    (metadata : option Props) (w : UnifiedAnalytics.World) (plat : PlatformName) :
  countly_platform w = Some plat ->
  let md := default ∅ metadata in
  let message := reported_message e md in
  let stack := if is_undefined (reported_stack e md) then JsString "" else reported_stack e md in
  (UnifiedAnalytics.trackError faults (UnifiedAnalytics.GivenError e) metadata w).2
    = crash_log plat message
      :: (if truthy (default JsUndefined (md !! "fatal"))
             && negb (request_throws faults (crash_log plat message))
          then [error_report plat (or_else stack message) false
                  (BaseProvider.stringifyProperties (Some md))]
          else []).
Proof.
  intros Hplat md message stack.
  unfold UnifiedAnalytics.trackError. fold md. cbn [snd].
  set (errorData := spread _ md).
  destruct (errorData_fields e md) as (Hm & _ & Hst). fold errorData in Hm, Hst.
  rewrite Hm, Hst. fold message.
  assert (Hfatal : forall f, is_undefined (or_else f (JsBool false)) = false).
  { intros f. unfold or_else. by destruct f as [| |[]| | | |]; cbn; try case_match. }
  assert (Htruthy : forall f, truthy (or_else f (JsBool false)) = truthy f).
  { intros f. unfold or_else. by destruct (truthy f) eqn:Hf. }
  destruct_world w; try discriminate; injection Hplat as <-; cbn;
    rewrite Hfatal, Htruthy; fold stack;
    destruct (truthy (default JsUndefined (md !! "fatal"))); cbn;
    repeat (destruct (request_throws faults _); cbn); reflexivity.
Qed.

Lemma trackError_countly_requests_witness :
  let e := {| UnifiedAnalytics.error_message := JsString "boom";
              UnifiedAnalytics.error_name := JsString "TypeError";
              UnifiedAnalytics.error_stack := JsUndefined;
              UnifiedAnalytics.error_String := "TypeError: boom" |} in
  (UnifiedAnalytics.trackError Scenario.sound (UnifiedAnalytics.GivenError e)
     (Some {[ "fatal" := JsBool true ]}) Scenario.with_countly).2
    = [Countly_add_log (JsString "boom");
       Countly_log_error (JsString "boom") false {[ "fatal" := "true" ]}].
Proof.
  cbv zeta.
  rewrite (trackError_countly_requests Scenario.sound _ _ Scenario.with_countly web eq_refl).
  reflexivity.
Defined.

(** ** User data *)

Section UserData.

Lemma copy_if_truthy_lookup (k j : string) (properties userData : Props) :
  copy_if_truthy k properties userData !! j
    = if bool_decide (j = k)
      then match properties !! k with
           | Some v => if truthy v then Some v else userData !! j
           | None => userData !! j
           end
      else userData !! j.
Proof.
  unfold copy_if_truthy. case_bool_decide as Hj.
  - subst j. destruct (properties !! k) as [v|]; [|done].
    destruct (truthy v); [|done]. by rewrite lookup_insert_eq.
  - destruct (properties !! k) as [v|]; [|done].
    destruct (truthy v); [|done]. by rewrite lookup_insert_ne.
Qed.

Lemma custom_fields_lookup (userId : JsValue) (properties : Props) (key : string) :
  custom_fields userId properties !! key
    = if bool_decide (key ∈ profile_keys) then None
      else match properties !! key with
           | Some v => Some (JsString (BaseProvider.safeString v))
           | None => if bool_decide (key = "user_id") then Some userId else None
           end.
Proof.
  unfold custom_fields.
  apply (map_fold_weak_ind
           (fun (r : Props) (m : Props) =>
              r !! key
              = if bool_decide (key ∈ profile_keys) then None
                else match m !! key with
                     | Some v => Some (JsString (BaseProvider.safeString v))
                     | None => if bool_decide (key = "user_id") then Some userId else None
                     end)).
  - rewrite lookup_empty. case_bool_decide as Hin.
    + rewrite lookup_singleton_ne; [done|]. intros <-. unfold profile_keys in Hin.
      repeat (apply elem_of_cons in Hin as [Hin|Hin]; [discriminate|]).
      by apply elem_of_nil in Hin.
    + case_bool_decide as Hk.
      * subst key. by rewrite lookup_singleton_eq.
      * by rewrite lookup_singleton_ne.
  - intros k v m r Hk IH.
    destruct (decide (key = k)) as [->|Hne].
    + rewrite lookup_insert_eq. case_bool_decide as Hin; cbn.
      * by rewrite IH.
      * by rewrite lookup_insert_eq.
    + rewrite (lookup_insert_ne m) by done. rewrite <- IH.
      destruct (negb _); [by rewrite lookup_insert_ne|done].
Qed.

Lemma named_details_lookup (properties : Props) (key : string) :
  named_details properties !! key
    = if bool_decide (key = "byear")
      then match properties !! "birthYear" with
           | Some v => if truthy v then Some (JsString (Builtins.String_ v)) else None
           | None => None
           end
      else if bool_decide (key ∈ profile_keys) && negb (bool_decide (key = "birthYear"))
      then match properties !! key with
           | Some v => if truthy v then Some v else None
           | None => None
           end
      else None.
Proof.
  unfold named_details. cbv zeta.
  assert (Hrest : forall u7 : Props,
             (match properties !! "birthYear" with
              | Some v => if truthy v then <["byear" := JsString (Builtins.String_ v)]> u7 else u7
              | None => u7
              end) !! key
             = if bool_decide (key = "byear")
               then match properties !! "birthYear" with
                    | Some v =>
                        if truthy v then Some (JsString (Builtins.String_ v)) else u7 !! key
                    | None => u7 !! key
                    end
               else u7 !! key).
  { intros u7. case_bool_decide as Hk.
    - subst key. destruct (properties !! "birthYear") as [v|]; [|done].
      destruct (truthy v); [|done]. by rewrite lookup_insert_eq.
    - destruct (properties !! "birthYear") as [v|]; [|done].
      destruct (truthy v); [|done]. by rewrite lookup_insert_ne. }
  rewrite Hrest, !copy_if_truthy_lookup, lookup_empty.
  unfold profile_keys.
  repeat case_bool_decide; subst; try discriminate; cbn;
    repeat match goal with
      | H : _ ∈ _ |- _ => apply elem_of_cons in H as [H|H]; [try (exfalso; congruence)|]
      | H : _ ∈ [] |- _ => by apply elem_of_nil in H
      | H : _ ∉ _ |- _ => exfalso; apply H; clear; set_solver
      end;
    repeat case_match; try done.
Qed.

Lemma custom_of_lookup (properties : Props) (key : string) :
  custom_of properties !! key
    = (fun v => JsString (BaseProvider.safeString v)) <$> properties !! key.
Proof.
  unfold custom_of.
  apply (map_fold_weak_ind
           (fun (r : Props) (m : Props) =>
              r !! key = (fun v => JsString (BaseProvider.safeString v)) <$> m !! key)).
  - by rewrite !lookup_empty.
  - intros k v m r Hk IH.
    destruct (decide (key = k)) as [->|Hne].
    + by rewrite !lookup_insert_eq.
    + by rewrite !lookup_insert_ne.
Qed.

Lemma attempted_sound (faults : Faults) (block : list SdkRequest) :
  (forall r, r ∈ block -> request_throws faults r = false) ->
  attempted faults block = block.
Proof.
  induction block as [|r block IH]; intros Hall; [done|].
  cbn. rewrite (Hall r) by left. f_equal. apply IH. intros r' Hr'. apply Hall. by right.
Qed.

End UserData.

(** X21.  What [identify] tells Countly on the web: one [user_details]
    request.  Its named fields are the truthy ones among [name], [email],
    [username], [organization], [phone], [picture] and [gender], and
    [byear], the string of a truthy [birthYear].  Its [custom] object has
    every other property as a string ([undefined] as the empty string),
    and [user_id]: the id given, unless the properties have a [user_id] of
    their own, which wins.  PostHog, when enabled, gets the id and the
    properties as they are. *)
Theorem identify_user_data (faults : Faults) (userId : JsValue) (properties : option Props)
    (w : UnifiedAnalytics.World) :
  countly_platform w = Some web ->
  let props := default ∅ properties in
  exists details custom,
    UnifiedAnalytics.identify faults userId properties w
      = Countly_user_details {| user_details := details; user_custom := Some custom |}
        :: (if UnifiedAnalytics.posthog_active w then [PostHog_identify userId props] else [])
    /\ (forall key,
          details !! key
          = if bool_decide (key = "byear")
            then match props !! "birthYear" with
                 | Some v => if truthy v then Some (JsString (Builtins.String_ v)) else None
                 | None => None
                 end
            else if bool_decide (key ∈ profile_keys) && negb (bool_decide (key = "birthYear"))
            then match props !! key with
                 | Some v => if truthy v then Some v else None
                 | None => None
                 end
            else None)
    /\ (forall key,
          custom !! key
          = if bool_decide (key ∈ profile_keys) then None
            else match props !! key with
                 | Some v => Some (JsString (BaseProvider.safeString v))
                 | None => if bool_decide (key = "user_id") then Some userId else None
                 end).
Proof.
  intros Hplat props.
  exists (named_details props), (custom_fields userId props).
  split; [|split].
  - destruct_world w; try discriminate; reflexivity.
  - apply named_details_lookup.
  - apply custom_fields_lookup.
Qed.

Lemma identify_user_data_witness :
  let properties : Props := {[ "email" := JsString "a@b.c"; "plan" := JsNumber 2 ]} in
  exists details custom,
    UnifiedAnalytics.identify Scenario.sound (JsString "u1") (Some properties)
      Scenario.with_countly
    = [Countly_user_details {| user_details := details; user_custom := Some custom |}]
    /\ details !! "email" = Some (JsString "a@b.c")
    /\ details !! "plan" = None
    /\ custom !! "email" = None
    /\ custom !! "plan" = Some (JsString "2")
    /\ custom !! "user_id" = Some (JsString "u1").
Proof.
  cbv zeta.
  destruct (identify_user_data Scenario.sound (JsString "u1")
              (Some {[ "email" := JsString "a@b.c"; "plan" := JsNumber 2 ]})
              Scenario.with_countly eq_refl) as (details & custom & Hreq & Hd & Hc).
  exists details, custom. split; [exact Hreq|].
  rewrite !Hd, !Hc. by repeat split.
Defined.

(** X22.  On the native platform [identify] first moves the Countly
    device id to the string of the user id, merging on the server, and
    then sets and saves the user data; [save] is left out only when
    setting them throws.  With an id that is [null] or [undefined] it asks
    nothing of Countly, since reading [toString] of the id throws at
    once; PostHog still gets its [identify]. *)
Theorem identify_native_needs_id (faults : Faults) (userId : JsValue)
    (properties : option Props) (w : UnifiedAnalytics.World) :
  countly_platform w = Some native ->
  let props := default ∅ properties in
  let to_posthog :=
    if UnifiedAnalytics.posthog_active w then [PostHog_identify userId props] else [] in
  let set_data := Countly_userDataBulk_setUserProperties (identify_userData userId props) in
  UnifiedAnalytics.identify faults userId properties w
    = if is_null userId || is_undefined userId then to_posthog
      else ((Countly_changeDeviceId (GivenDeviceId (Builtins.String_ userId)) true
            :: set_data
            :: (if request_throws faults set_data then [] else [Countly_userDataBulk_save]))
           ++ to_posthog)%list.
Proof.
  intros Hplat props to_posthog set_data. subst to_posthog set_data.
  destruct_world w; try discriminate; cbn;
    destruct (is_null userId || is_undefined userId); cbn; try reflexivity;
    repeat (destruct (request_throws faults _); cbn); reflexivity.
Qed.

Lemma identify_native_needs_id_witness :
  UnifiedAnalytics.identify Scenario.sound JsNull None Scenario.with_both_native
    = [PostHog_identify JsNull ∅]
  /\ UnifiedAnalytics.identify Scenario.sound JsNull None Scenario.with_both
     = [Countly_user_details
          {| user_details := ∅; user_custom := Some {[ "user_id" := JsNull ]} |};
        PostHog_identify JsNull ∅].
Proof.
  split; [|reflexivity].
  by rewrite (identify_native_needs_id Scenario.sound JsNull None
                Scenario.with_both_native eq_refl).
Defined.

(** X23.  The Countly adapters' [setUserProperties] keeps every key of
    its argument and sends each value as a string; an [undefined] value is
    not dropped, as it is from an event's segmentation, but sent as the
    empty string.  The web adapter sends them as the [custom] object of
    one [user_details] request; the native one, when no request throws,
    as one [setProperty] per key followed by [save]. *)
Theorem setUserProperties_keeps_every_key (faults : Faults) (a : CountlyProviderWeb.t)
    (n : CountlyProviderNative.t) (properties : Props) :
  CountlyProviderWeb.isInitialized a = true ->
  CountlyProviderNative.isInitialized n = true ->
  (forall r, request_throws faults r = false) ->
  (exists custom,
      CountlyProviderWeb.setUserProperties a (Some properties)
        = [Countly_user_details {| user_details := ∅; user_custom := Some custom |}]
      /\ forall key,
           custom !! key = (fun v => JsString (BaseProvider.safeString v)) <$> properties !! key)
  /\ (exists sets,
        CountlyProviderNative.setUserProperties faults n (Some properties)
          = (sets ++ [Countly_userDataBulk_save])%list
        /\ length sets = size properties
        /\ forall r,
             r ∈ sets <->
             exists key v,
               properties !! key = Some v
               /\ r = Countly_userDataBulk_setProperty key (BaseProvider.safeString v)).
Proof.
  intros Ha Hn Hsound. split.
  - exists (custom_of properties). split; [|apply custom_of_lookup].
    unfold CountlyProviderWeb.setUserProperties, CountlyProviderWeb.ensureInitialized.
    unfold CountlyProviderWeb.isInitialized in Ha. by rewrite Ha.
  - eexists. split; [|split].
    + unfold CountlyProviderNative.setUserProperties, CountlyProviderNative.ensureInitialized.
      unfold CountlyProviderNative.isInitialized in Hn. rewrite Hn. cbn.
      rewrite attempted_sound by (intros; apply Hsound). reflexivity.
    + by rewrite length_map, length_map_to_list.
    + intros r.
      match goal with |- context [map ?f ?l] => change (map f l) with (f <$> l) end.
      rewrite list_elem_of_fmap. split.
      * intros ([key v] & -> & Hin). apply elem_of_map_to_list in Hin. by exists key, v.
      * intros (key & v & Hk & ->). exists (key, v). split; [done|].
        by apply elem_of_map_to_list.
Qed.

Lemma setUserProperties_keeps_every_key_witness :
  let properties : Props := {[ "plan" := JsUndefined ]} in
  (exists custom,
      CountlyProviderWeb.setUserProperties Scenario.web_adapter (Some properties)
        = [Countly_user_details {| user_details := ∅; user_custom := Some custom |}]
      /\ custom !! "plan" = Some (JsString ""))
  /\ Countly_userDataBulk_setProperty "plan" ""
       ∈ CountlyProviderNative.setUserProperties Scenario.sound Scenario.native_adapter
           (Some properties).
Proof.
  cbv zeta.
  destruct (setUserProperties_keeps_every_key Scenario.sound Scenario.web_adapter
              Scenario.native_adapter {[ "plan" := JsUndefined ]} eq_refl eq_refl
              (fun _ => eq_refl))
    as [(custom & Hweb & Hc) (sets & Hnat & _ & Hin)].
  split.
  - exists custom. split; [exact Hweb|]. by rewrite Hc.
  - rewrite Hnat. apply elem_of_app. left. apply Hin.
    exists "plan", JsUndefined. split; [apply lookup_singleton_eq | reflexivity].
Defined.

(** X24.  With PostHog enabled, [onFeatureFlagsChange] does not return
    an unsubscribe function.  It makes one call: the web adapter
    registers the callback with the SDK, the native one calls the
    callback at once with the current flags.  What that call throws
    reaches the caller; otherwise the result is [undefined], and calling
    it as a function is a [TypeError]. *)
Theorem onFeatureFlagsChange_with_posthog (env : Env) (cb : Callback)
    (w : UnifiedAnalytics.World) :
  UnifiedAnalytics.posthog_active w = true ->
  let result := UnifiedAnalytics.onFeatureFlagsChange env cb w in
  (exists call thrown,
      calls_between w result.2 = [call]
      /\ (call = PostHog_onFeatureFlags cb /\ thrown = sdk_onFeatureFlags env cb
          \/ exists flags, call = Callback_call cb flags /\ thrown = callback_call env cb flags)
      /\ result.1 = match thrown with
                    | None => Returns NoFunction
                    | Some e => Throws e
                    end)
  /\ forall u,
       result.1 = Returns u ->
       (UnifiedAnalytics.call_unsubscribe u result.2).1
       = Throws (TypeError "unsubscribe is not a function").
Proof.
  intros Hact result. subst result. split.
  - destruct_world w; try discriminate; cbn;
    first
      [ exists (PostHog_onFeatureFlags cb), (sdk_onFeatureFlags env cb);
        split; [|split; [by left|]];
        destruct (sdk_onFeatureFlags env cb); cbn; try reflexivity;
        by rewrite drop_app_length
      | match goal with
        | |- context [callback_call env cb ?flags] =>
            exists (Callback_call cb flags), (callback_call env cb flags);
            split; [|split; [right; by exists flags|]];
            destruct (callback_call env cb flags); cbn; try reflexivity;
            by rewrite drop_app_length
        end ].
  - intros u Hu.
    assert (u = NoFunction) as ->; [|reflexivity].
    revert Hu. unfold UnifiedAnalytics.onFeatureFlagsChange.
    apply bool_decide_eq_true in Hact as [q Hq]. rewrite Hq.
    destruct (PostHogProvider.onFeatureFlags env q cb (UnifiedAnalytics.rt w)) as [[[] p'] rt'];
      cbn; congruence.
Qed.

Lemma onFeatureFlagsChange_with_posthog_witness :
  let result := UnifiedAnalytics.onFeatureFlagsChange Scenario.calm 0%nat Scenario.with_posthog in
  result.1 = Returns NoFunction
  /\ (UnifiedAnalytics.call_unsubscribe NoFunction result.2).1
     = Throws (TypeError "unsubscribe is not a function").
Proof.
  cbv zeta.
  destruct (onFeatureFlagsChange_with_posthog Scenario.calm 0%nat Scenario.with_posthog eq_refl)
    as [_ Hcall].
  split; [reflexivity|]. by apply Hcall.
Defined.

(** X25.  Both navigation handlers ignore a transition that does not
    change the route: handling the same route a second time sends nothing
    and changes nothing, and so does [onStateChange] for the route that
    [onReady] just recorded.  Every call of [onStateChange] records its
    route, tracked or not. *)
Theorem navigation_ignores_repeated_route (route : option string) (url : string)
    (h : UnifiedAnalytics.WebNavigationHandlers) (w : UnifiedAnalytics.World) :
  let w1 := UnifiedAnalytics.onStateChange route w in
  let '(h2, w2) := UnifiedAnalytics.onRouteChange url h w in
  UnifiedAnalytics.routeNameRef (UnifiedAnalytics.this w1) = route
  /\ UnifiedAnalytics.onStateChange route w1 = w1
  /\ UnifiedAnalytics.onStateChange route (UnifiedAnalytics.onReady route w)
     = UnifiedAnalytics.set_routeNameRef route w
  /\ UnifiedAnalytics.onRouteChange url h2 w2 = (h2, w2).
Proof.
  cbv zeta.
  destruct (UnifiedAnalytics.onRouteChange url h w) as [h2 w2] eqn:Hweb.
  split; [|split; [|split]].
  - unfold UnifiedAnalytics.onStateChange. by destruct w as [[] ?].
  - assert (Href : UnifiedAnalytics.routeNameRef
                     (UnifiedAnalytics.this (UnifiedAnalytics.onStateChange route w)) = route).
    { unfold UnifiedAnalytics.onStateChange. by destruct w as [[] ?]. }
    revert Href. generalize (UnifiedAnalytics.onStateChange route w). intros w1 Href.
    unfold UnifiedAnalytics.onStateChange. rewrite Href.
    rewrite bool_decide_true by done. cbn.
    destruct w1 as [[] ?]. cbn in *. by subst.
  - unfold UnifiedAnalytics.onStateChange, UnifiedAnalytics.onReady.
    destruct w as [[] ?]. cbn.
    destruct (truthy_string route) eqn:Ht.
    + rewrite bool_decide_true by done. reflexivity.
    + rewrite andb_false_r. reflexivity.
  - revert Hweb. unfold UnifiedAnalytics.onRouteChange.
    destruct (truthy_string (Some url) && negb (bool_decide (Some url = UnifiedAnalytics.previousPath h)))
      eqn:Hc.
    + intros [= <- <-]. cbn [UnifiedAnalytics.previousPath].
      rewrite bool_decide_true by done. by rewrite andb_false_r.
    + intros [= <- <-]. by rewrite Hc.
Qed.

(** X26.  The PostHog proxy's aliases do the work twice.  On an
    initialized proxy [trackEvent] and [trackView] make one SDK call
    each; [capture] and [screen] make that same call two times, because
    the adapter's alias returns nothing and the proxy then falls through
    to the method it stands for. *)
Theorem posthog_aliases_dispatch_twice (q : PostHogProvider.t) (name : string)
    (properties : option Props) (r : Runtime) :
  PostHogProvider.isInitialized q = true ->
  exists event view,
    sdk (PostHogProvider.trackEvent q name properties r) = (sdk r ++ [event])%list
    /\ sdk (PostHogProvider.capture q name properties r) = (sdk r ++ [event; event])%list
    /\ sdk (PostHogProvider.trackView q name properties r) = (sdk r ++ [view])%list
    /\ sdk (PostHogProvider.screen q name properties r) = (sdk r ++ [view; view])%list
    /\ heap (PostHogProvider.capture q name properties r) = heap r
    /\ heap (PostHogProvider.screen q name properties r) = heap r.
Proof.
  unfold PostHogProvider.isInitialized.
  destruct q as [[[[[] ? ? ? ? ?]|[[] ? ? ? ? ?]]|] d]; cbn; intros; try discriminate;
    do 2 eexists; rewrite <- !app_assoc; cbn; repeat split; reflexivity.
Qed.

Lemma posthog_aliases_dispatch_twice_witness :
  exists q,
    UnifiedAnalytics.active_posthog Scenario.with_posthog = Some q
    /\ length (sdk (PostHogProvider.screen q "Home" None (UnifiedAnalytics.rt Scenario.with_posthog)))
       = S (S (length (sdk (UnifiedAnalytics.rt Scenario.with_posthog)))).
Proof.
  eexists. split; [reflexivity|].
  match goal with
  | |- context [PostHogProvider.screen ?q ?n ?p ?r] =>
      destruct (posthog_aliases_dispatch_twice q n p r eq_refl)
        as (event & view & _ & _ & _ & Hscreen & _)
  end.
  rewrite Hscreen, length_app. cbn. lia.
Defined.
